(** * A simulated filesystem: FakeFile, FakeDirectory, FilesystemWrapper

    Shallow embedding of [FilesystemWrapper.ts] and proofs about it.

    The TypeScript classes are objects with identity that are passed around
    and mutated in place: a [FakeDirectory] keeps the very arrays handed to
    its constructor, [addSubdirectory] stores the very directory it is given
    and returns it.  The embedding therefore has an explicit heap with one
    store per kind of object (files, arrays of files, arrays of directories,
    directories); a reference is an index into its store, allocation appends
    to the store.  Methods are computations in a state-and-exception monad
    over that heap. *)

From Stdlib Require Import String Ascii List Arith Lia Bool.
From stdpp Require Import base option list strings.

Local Open Scope string_scope.
Local Open Scope list_scope.

(** ** JavaScript built-ins used by the source

    A JavaScript string is a [string]; the operations of the source on
    strings are comparison with [===], concatenation in messages and the
    split on "/", a single character in either representation. *)

(** A JavaScript string is truthy unless it is empty. *)
Definition truthy (s : string) : bool := negb (String.eqb s EmptyString).

(** [Array.prototype.includes] on an array of strings. *)
Definition includes (x : string) (l : list string) : bool :=
  existsb (String.eqb x) l.

(** [Array.prototype.indexOf]: position of the first element strictly equal
    to [x]; JavaScript's [-1] is [None]. *)
Fixpoint indexOf {A} `{EqDecision A} (x : A) (l : list A) : option nat :=
  match l with
  | [] => None
  | y :: l' => if decide (y = x) then Some 0 else S <$> indexOf x l'
  end.

(** [a.splice(i, 1)] for [i] the result of [indexOf]: drops the element at
    index [i]; a start of [-1] counts from the end and drops the last
    element. *)
Definition splice1 {A} (i : option nat) (l : list A) : list A :=
  match i with
  | Some i => take i l ++ drop (S i) l
  | None => take (length l - 1) l
  end.

(** [String.prototype.split] with a separator of one character: the
    segments between the occurrences of the separator, so that a string
    without separator, the empty one included, gives one segment. *)
Fixpoint split (sep : ascii) (s : string) : list string :=
  match s with
  | EmptyString => [EmptyString]
  | String c s' =>
      if Ascii.eqb c sep then EmptyString :: split sep s'
      else match split sep s' with
           | t :: ts => String c t :: ts
           | [] => [String c EmptyString]
           end
  end.

(** A [Map<string, string>]: the entries in insertion order, one per key. *)
Abbreviation JSMap := (list (string * string)) (only parsing).

Fixpoint Map_get (k : string) (m : JSMap) : option string :=
  match m with
  | [] => None
  | (k', v) :: m' => if String.eqb k' k then Some v else Map_get k m'
  end.

(** [Map.prototype.set] replaces the value of a present key where it stands
    and appends an absent key. *)
Fixpoint Map_set (k v : string) (m : JSMap) : JSMap :=
  match m with
  | [] => [(k, v)]
  | (k', v') :: m' =>
      if String.eqb k' k then (k, v) :: m' else (k', v') :: Map_set k v m'
  end.

Definition Map_keys (m : JSMap) : list string := map fst m.

(** ** Objects and the heap *)

(** A reference is an index into the store of its class. *)
Abbreviation ref := nat (only parsing).

Module File.
(** Fields of a [FakeFile].  [tags], [extattrs], [uti] and [bookmarks]
    are private and never handed out (allTags and allExtendedAttributes
    copy), so they are kept inside the object. *)
Record t := Build {
  name : string;
  extension : string;
  tags : list string;
  extattrs : JSMap;
  uti : string;
  bookmarks : list string
}.
End File.

Module Dir.
(** Fields of a [FakeDirectory].  [files] and [subdirectories] are
    references to arrays that may be shared with the caller of the
    constructor.  No method reads or writes [bookmarks] after
    construction; its contents are kept in the object. *)
Record t := Build {
  bookmarks : list string;
  files : ref;
  subdirectories : ref;
  name : string
}.
End Dir.

Abbreviation FakeFile := File.t (only parsing).
Abbreviation FakeDirectory := Dir.t (only parsing).

(** A [FilesystemWrapper] has the one readonly field [root]. *)
Record FilesystemWrapper := { root : ref }.

(** The heap has a store per class and, as the declared types
    [FakeFile[]] and [FakeDirectory[]] have it, a store for the arrays of
    files and one for the arrays of directories.  An array is thus an array
    of files or an array of directories, never both: a client that hands
    one empty array (typed [never[]]) to the constructor as [files] and as
    [subdirectories] at once is not among the programs described here. *)
Record heap := Heap {
  fileObjs : list FakeFile;
  fileArrays : list (list ref);
  dirArrays : list (list ref);
  dirObjs : list FakeDirectory
}.

Definition empty_heap : heap := Heap [] [] [] [].

(** The source throws plain [Error] objects told apart by their message. *)
Inductive Error := mkError (message : string).

Definition message (e : Error) : string := let 'mkError m := e in m.

(** Outcome of a computation: a value, a thrown [Error] (the heap as it was
    when thrown), or [Wrong] when a reference without object or an index out
    of range is read, which no run of the typed program does. *)
Inductive outcome (A : Type) :=
| Ok (a : A) (h : heap)
| Throw (e : Error) (h : heap)
| Wrong.
Arguments Ok {A} a h.
Arguments Throw {A} e h.
Arguments Wrong {A}.

Definition M (A : Type) := heap -> outcome A.

Definition ret {A} (a : A) : M A := fun h => Ok a h.

Definition bind {A B} (m : M A) (k : A -> M B) : M B :=
  fun h => match m h with
           | Ok a h' => k a h'
           | Throw e h' => Throw e h'
           | Wrong => Wrong
           end.

Definition throw {A} (e : Error) : M A := fun h => Throw e h.

Definition wrong {A} : M A := fun _ => Wrong.

Declare Scope js_scope.
Delimit Scope js_scope with js.
Notation "x <- m ;; k" := (bind m (fun x => k))
  (at level 100, m at next level, right associativity) : js_scope.
Notation "m ;; k" := (bind m (fun _ => k))
  (at level 100, right associativity) : js_scope.
Local Open Scope js_scope.

(** Reading a slot of a store; an absent slot is [Wrong]. *)
Definition read {A} (sel : heap -> list A) (r : ref) : M A :=
  fun h => match sel h !! r with Some a => Ok a h | None => Wrong end.

Definition getFile : ref -> M FakeFile := read fileObjs.
Definition getFileArray : ref -> M (list ref) := read fileArrays.
Definition getDirArray : ref -> M (list ref) := read dirArrays.
Definition getDir : ref -> M FakeDirectory := read dirObjs.

Definition withFile (h : heap) (r : ref) (f : FakeFile) : heap :=
  Heap (<[r := f]> (fileObjs h)) (fileArrays h) (dirArrays h) (dirObjs h).

Definition withFileArray (h : heap) (r : ref) (a : list ref) : heap :=
  Heap (fileObjs h) (<[r := a]> (fileArrays h)) (dirArrays h) (dirObjs h).

Definition withDirArray (h : heap) (r : ref) (a : list ref) : heap :=
  Heap (fileObjs h) (fileArrays h) (<[r := a]> (dirArrays h)) (dirObjs h).

Definition setFile (r : ref) (f : FakeFile) : M unit :=
  fun h => Ok tt (withFile h r f).

Definition setFileArray (r : ref) (a : list ref) : M unit :=
  fun h => Ok tt (withFileArray h r a).

Definition setDirArray (r : ref) (a : list ref) : M unit :=
  fun h => Ok tt (withDirArray h r a).

(** Allocation: the new object takes the next free index of its store. *)
Definition newFileObj (f : FakeFile) : M ref :=
  fun h => Ok (length (fileObjs h))
              (Heap (fileObjs h ++ [f]) (fileArrays h)
                    (dirArrays h) (dirObjs h)).

Definition newFileArray (a : list ref) : M ref :=
  fun h => Ok (length (fileArrays h))
              (Heap (fileObjs h) (fileArrays h ++ [a])
                    (dirArrays h) (dirObjs h)).

Definition newDirArray (a : list ref) : M ref :=
  fun h => Ok (length (dirArrays h))
              (Heap (fileObjs h) (fileArrays h)
                    (dirArrays h ++ [a]) (dirObjs h)).

Definition newDirObj (d : FakeDirectory) : M ref :=
  fun h => Ok (length (dirObjs h))
              (Heap (fileObjs h) (fileArrays h)
                    (dirArrays h) (dirObjs h ++ [d])).

(** [a.push(x)] on an array of the heap. *)
Definition pushFileArray (r : ref) (x : ref) : M unit :=
  a <- getFileArray r ;; setFileArray r (a ++ [x]).

Definition pushDirArray (r : ref) (x : ref) : M unit :=
  a <- getDirArray r ;; setDirArray r (a ++ [x]).

(** [a.filter(p)] where the callback reads the heap. *)
Fixpoint filterM {A} (p : A -> M bool) (l : list A) : M (list A) :=
  match l with
  | [] => ret []
  | x :: l' =>
      b <- p x ;;
      r <- filterM p l' ;;
      ret (if b then x :: r else r)
  end.

(** [for (let x of l) body(x)] and [l.forEach(body)]. *)
Fixpoint forOf {A} (l : list A) (body : A -> M unit) : M unit :=
  match l with
  | [] => ret tt
  | x :: l' => body x ;; forOf l' body
  end.

(** [l.forEach(x => contents.push(g(x)))] on a local array [contents]. *)
Fixpoint pushEach {A B} (l : list A) (g : A -> M B) (contents : list B)
  : M (list B) :=
  match l with
  | [] => ret contents
  | x :: l' => b <- g x ;; pushEach l' g (contents ++ [b])
  end.

(** ** FakeFile *)

(** [new FakeFile(name, extension)]. *)
Definition new_FakeFile (name extension : string) : M ref :=
  newFileObj (File.Build name extension [] [] EmptyString []).

Definition addTag (this : ref) (tag : string) : M unit :=
  f <- getFile this ;;
  if negb (includes tag (File.tags f)) then
    setFile this (File.Build (File.name f) (File.extension f)
                    (File.tags f ++ [tag])
                    (File.extattrs f) (File.uti f) (File.bookmarks f))
  else ret tt.

Definition removeTag (this : ref) (tag : string) : M unit :=
  f <- getFile this ;;
  if includes tag (File.tags f) then
    setFile this (File.Build (File.name f) (File.extension f)
                    (splice1 (indexOf tag (File.tags f)) (File.tags f))
                    (File.extattrs f) (File.uti f) (File.bookmarks f))
  else ret tt.

(** [Array.from(this.tags)]: a fresh array, returned by value. *)
Definition allTags (this : ref) : M (list string) :=
  f <- getFile this ;; ret (File.tags f).

(** [null] is [None]. *)
Definition readExtendedAttribute (this : ref) (name : string)
  : M (option string) :=
  f <- getFile this ;;
  let attr := Map_get name (File.extattrs f) in
  match attr with
  | Some a => if truthy a then ret (Some a) else ret None
  | None => ret None
  end.

Definition allExtendedAttributes (this : ref) : M (list string) :=
  f <- getFile this ;; ret (Map_keys (File.extattrs f)).

Definition writeExtendedAttribute (this : ref) (value name : string)
  : M unit :=
  f <- getFile this ;;
  setFile this (File.Build (File.name f) (File.extension f) (File.tags f)
                  (Map_set name value (File.extattrs f))
                  (File.uti f) (File.bookmarks f)).

Definition getUTI (this : ref) : M string :=
  f <- getFile this ;; ret (File.uti f).

(** ** FakeDirectory *)

Definition file_exists_msg (name : string) : string :=
  "A file with the name '" +:+ name +:+ "' already exists.".

Definition dir_exists_msg (name : string) : string :=
  "A directory with the name '" +:+ name +:+ "' already exists.".

(** [new FakeDirectory(name, files?, bookmarks?, subdirectories?)].  The
    field initialiser [subdirectories = []] runs first and its array is
    dropped by the assignment in the body.  An array that is passed is
    stored as it is, not copied. *)
Definition new_FakeDirectory (name : string) (files : option ref)
    (bookmarks : option (list string)) (subdirectories : option ref)
  : M ref :=
  _ <- newDirArray [] ;;
  fa <- match files with Some a => ret a | None => newFileArray [] end ;;
  let bm := match bookmarks with Some b => b | None => [] end in
  sa <- match subdirectories with
        | Some a => ret a
        | None => newDirArray []
        end ;;
  newDirObj (Dir.Build bm fa sa name).

Definition addFile (this file : ref) : M unit :=
  d <- getDir this ;;
  fs <- getFileArray (Dir.files d) ;;
  found <- filterM (fun f =>
             fo <- getFile f ;;
             target <- getFile file ;;
             ret (String.eqb (File.name fo) (File.name target)
                  && String.eqb (File.extension fo) (File.extension target)))
             fs ;;
  let exists_ := (0 <? length found)%nat in
  if exists_ then
    target <- getFile file ;;
    throw (mkError (file_exists_msg (File.name target)))
  else pushFileArray (Dir.files d) file.

(** [for (let f of files) this.addFile(f)].  The loop runs over the
    elements the array has when the loop starts: the body only pushes to
    [this.files], and when that is the array being traversed its first
    element already collides with itself, so the loop never reaches an
    element pushed meanwhile. *)
Definition addFiles (this files : ref) : M unit :=
  fs <- getFileArray files ;;
  forOf fs (fun f => addFile this f).

Definition addSubdirectory (this dir : ref) : M ref :=
  t <- getDir this ;;
  subs <- getDirArray (Dir.subdirectories t) ;;
  found <- filterM (fun d =>
             dobj <- getDir d ;;
             target <- getDir dir ;;
             ret (String.eqb (Dir.name dobj) (Dir.name target)))
             subs ;;
  let exists_ := (0 <? length found)%nat in
  (if exists_ then
     target <- getDir dir ;;
     throw (mkError (dir_exists_msg (Dir.name target)))
   else pushDirArray (Dir.subdirectories t) dir) ;;
  subs' <- getDirArray (Dir.subdirectories t) ;;
  match indexOf dir subs' with
  | None => throw (mkError "Failed to add subdirectory.")
  | Some newDir =>
      match subs' !! newDir with
      | Some r => ret r
      | None => wrong
      end
  end.

(** [for (let d of dirs) this.addSubdirectory(d)], as in [addFiles]. *)
Definition addSubdirectories (this dirs : ref) : M unit :=
  ds <- getDirArray dirs ;;
  forOf ds (fun d => _ <- addSubdirectory this d ;; ret tt).

(** The array [contents] is local and returned; the result is its
    contents. *)
Definition listContents (this : ref) : M (list string) :=
  d <- getDir this ;;
  subs <- getDirArray (Dir.subdirectories d) ;;
  contents <- pushEach subs (fun s => o <- getDir s ;; ret (Dir.name o)) [] ;;
  fs <- getFileArray (Dir.files d) ;;
  pushEach fs (fun f => o <- getFile f ;; ret (File.name o)) contents.

(** ** FilesystemWrapper *)

Definition basicFilesystem : M FilesystemWrapper :=
  ROOT_DIRECTORY <- new_FakeDirectory "root" None None None ;;
  local_ <- new_FakeDirectory "local" None None None ;;
  _ <- addSubdirectory ROOT_DIRECTORY local_ ;;
  iCloud <- new_FakeDirectory "iCloud" None None None ;;
  _ <- addSubdirectory ROOT_DIRECTORY iCloud ;;
  ret {| root := ROOT_DIRECTORY |}.

(** The statements of [directoriesFromPath] that follow the split, as a
    function of the token array.  The array is local and never written, and
    the loop [for (let i = 0; i < tokens.length; i++)] visits [tokens[i]] in
    order. *)
Definition directoriesFromTokens (tokens : list string) : M ref :=
  if (length tokens =? 0)%nat then throw (mkError "Invalid path.")
  else
    fs <- basicFilesystem ;;
    let ROOT_DIRECTORY := root fs in
    forOf tokens (fun token =>
      d <- new_FakeDirectory token None None None ;;
      _ <- addSubdirectory ROOT_DIRECTORY d ;;
      ret tt) ;;
    ret ROOT_DIRECTORY.

Definition directoriesFromPath (path : string) : M ref :=
  directoriesFromTokens (split "/" path).

(** ** The error kinds of the specification

    The source has one class of error; the kinds are told apart by the
    message. *)
Definition DuplicateEntryError (e : Error) : Prop :=
  exists name, message e = file_exists_msg name
               \/ message e = dir_exists_msg name.

Definition InvalidPathError (e : Error) : Prop :=
  message e = "Invalid path.".

(** A message identifies a name when the name stands in it between
    quotes. *)
Definition identifies (msg name : string) : Prop :=
  exists pre post, msg = pre +:+ "'" +:+ name +:+ "'" +:+ post.

(** ** Views of the heap used in the statements *)

(** A reference is allocated in a store when the store has an object at its
    index.  A typed run only ever holds allocated references. *)
Definition allocated {A} (s : list A) (r : ref) : Prop := r < length s.

(** A heap is well formed when no object of it holds a reference without
    object.  Every heap a client reaches is (lemma [reachable_wf]). *)
Definition wf (h : heap) : Prop :=
  Forall (Forall (allocated (fileObjs h))) (fileArrays h)
  /\ Forall (Forall (allocated (dirObjs h))) (dirArrays h)
  /\ Forall (fun d => allocated (fileArrays h) (Dir.files d)
                      /\ allocated (dirArrays h) (Dir.subdirectories d))
            (dirObjs h).

(** The key under which a container tells files apart, and the key of the
    file behind a reference. *)
Definition fileKey (f : FakeFile) : string * string :=
  (File.name f, File.extension f).

Definition keyOf (h : heap) (r : ref) : option (string * string) :=
  fileKey <$> fileObjs h !! r.

Definition nameOf (h : heap) (r : ref) : option string :=
  Dir.name <$> dirObjs h !! r.

Definition fileNameOf (h : heap) (r : ref) : option string :=
  File.name <$> fileObjs h !! r.

(** [this.files] and [this.subdirectories] as they stand in the heap. *)
Definition fileList (h : heap) (this : ref) : option (list ref) :=
  match dirObjs h !! this with
  | Some d => fileArrays h !! Dir.files d
  | None => None
  end.

Definition subdirList (h : heap) (this : ref) : option (list ref) :=
  match dirObjs h !! this with
  | Some d => dirArrays h !! Dir.subdirectories d
  | None => None
  end.

(** The two uniqueness predicates of a container. *)
Definition files_unique (h : heap) (d : FakeDirectory) : Prop :=
  match fileArrays h !! Dir.files d with
  | Some fs => NoDup (map (keyOf h) fs)
  | None => True
  end.

Definition subdirs_unique (h : heap) (d : FakeDirectory) : Prop :=
  match dirArrays h !! Dir.subdirectories d with
  | Some ds => NoDup (map (nameOf h) ds)
  | None => True
  end.

(** Every container of the heap satisfies both. *)
Definition unique_children (h : heap) : Prop :=
  Forall (fun d => files_unique h d /\ subdirs_unique h d) (dirObjs h).

(** ** Programs against the public interface

    A client is a sequence of calls: object creation, array literals and
    the methods of the three classes. *)
Inductive call :=
| NewFakeFile (name extension : string)
| FileArrayLiteral (elems : list ref)
| DirArrayLiteral (elems : list ref)
| NewFakeDirectory (name : string) (files : option ref)
    (bookmarks : option (list string)) (subdirectories : option ref)
| AddTag (this : ref) (tag : string)
| RemoveTag (this : ref) (tag : string)
| AllTags (this : ref)
| ReadExtendedAttribute (this : ref) (name : string)
| AllExtendedAttributes (this : ref)
| WriteExtendedAttribute (this : ref) (value name : string)
| GetUTI (this : ref)
| AddFile (this file : ref)
| AddFiles (this files : ref)
| AddSubdirectory (this dir : ref)
| AddSubdirectories (this dirs : ref)
| ListContents (this : ref)
| BasicFilesystem
| DirectoriesFromPath (path : string).

(** The heap a computation leaves, whether it returns or throws. *)
Definition heap_after {A} (h : heap) (o : outcome A) : heap :=
  match o with
  | Ok _ h' => h'
  | Throw _ h' => h'
  | Wrong => h
  end.

Definition exec (c : call) (h : heap) : heap :=
  match c with
  | NewFakeFile n e => heap_after h (new_FakeFile n e h)
  | FileArrayLiteral l => heap_after h (newFileArray l h)
  | DirArrayLiteral l => heap_after h (newDirArray l h)
  | NewFakeDirectory n fs bs ds => heap_after h (new_FakeDirectory n fs bs ds h)
  | AddTag this t => heap_after h (addTag this t h)
  | RemoveTag this t => heap_after h (removeTag this t h)
  | AllTags this => heap_after h (allTags this h)
  | ReadExtendedAttribute this n =>
      heap_after h (readExtendedAttribute this n h)
  | AllExtendedAttributes this => heap_after h (allExtendedAttributes this h)
  | WriteExtendedAttribute this v n =>
      heap_after h (writeExtendedAttribute this v n h)
  | GetUTI this => heap_after h (getUTI this h)
  | AddFile this f => heap_after h (addFile this f h)
  | AddFiles this fs => heap_after h (addFiles this fs h)
  | AddSubdirectory this d => heap_after h (addSubdirectory this d h)
  | AddSubdirectories this ds => heap_after h (addSubdirectories this ds h)
  | ListContents this => heap_after h (listContents this h)
  | BasicFilesystem => heap_after h (basicFilesystem h)
  | DirectoriesFromPath p => heap_after h (directoriesFromPath p h)
  end.

Definition is_wrong {A} (o : outcome A) : Prop :=
  match o with Wrong => True | _ => False end.

(** The call reads a reference without object. *)
Definition goes_wrong (c : call) (h : heap) : Prop :=
  match c with
  | NewFakeFile n e => is_wrong (new_FakeFile n e h)
  | FileArrayLiteral l => is_wrong (newFileArray l h)
  | DirArrayLiteral l => is_wrong (newDirArray l h)
  | NewFakeDirectory n fs bs ds => is_wrong (new_FakeDirectory n fs bs ds h)
  | AddTag this t => is_wrong (addTag this t h)
  | RemoveTag this t => is_wrong (removeTag this t h)
  | AllTags this => is_wrong (allTags this h)
  | ReadExtendedAttribute this n => is_wrong (readExtendedAttribute this n h)
  | AllExtendedAttributes this => is_wrong (allExtendedAttributes this h)
  | WriteExtendedAttribute this v n =>
      is_wrong (writeExtendedAttribute this v n h)
  | GetUTI this => is_wrong (getUTI this h)
  | AddFile this f => is_wrong (addFile this f h)
  | AddFiles this fs => is_wrong (addFiles this fs h)
  | AddSubdirectory this d => is_wrong (addSubdirectory this d h)
  | AddSubdirectories this ds => is_wrong (addSubdirectories this ds h)
  | ListContents this => is_wrong (listContents this h)
  | BasicFilesystem => is_wrong (basicFilesystem h)
  | DirectoriesFromPath p => is_wrong (directoriesFromPath p h)
  end.

Definition allocated_opt {A} (s : list A) (r : option ref) : Prop :=
  match r with Some r => allocated s r | None => True end.

(** A call is typed when the references it passes have objects of the
    expected class. *)
Definition typed (h : heap) (c : call) : Prop :=
  match c with
  | NewFakeFile _ _ | BasicFilesystem | DirectoriesFromPath _ => True
  | FileArrayLiteral l => Forall (allocated (fileObjs h)) l
  | DirArrayLiteral l => Forall (allocated (dirObjs h)) l
  | NewFakeDirectory _ fs _ ds =>
      allocated_opt (fileArrays h) fs /\ allocated_opt (dirArrays h) ds
  | AddTag this _ | RemoveTag this _ | AllTags this
  | ReadExtendedAttribute this _ | AllExtendedAttributes this
  | WriteExtendedAttribute this _ _ | GetUTI this =>
      allocated (fileObjs h) this
  | AddFile this f => allocated (dirObjs h) this /\ allocated (fileObjs h) f
  | AddFiles this fs =>
      allocated (dirObjs h) this /\ allocated (fileArrays h) fs
  | AddSubdirectory this d =>
      allocated (dirObjs h) this /\ allocated (dirObjs h) d
  | AddSubdirectories this ds =>
      allocated (dirObjs h) this /\ allocated (dirArrays h) ds
  | ListContents this => allocated (dirObjs h) this
  end.

(** Heaps a client reaches from the empty heap with typed calls that
    satisfy [allowed]. *)
Inductive reachable (allowed : heap -> call -> Prop) : heap -> Prop :=
| reachable_empty : reachable allowed empty_heap
| reachable_call h c :
    reachable allowed h -> typed h c -> allowed h c ->
    reachable allowed (exec c h).

Definition any_call (h : heap) (c : call) : Prop := True.

(** ** Trees built by the factory

    A directory without children of its own whose subdirectory array is
    not the array [parent]. *)
Definition leaf (h : heap) (parent : ref) (r : ref) : Prop :=
  exists c,
    dirObjs h !! r = Some c
    /\ fileArrays h !! Dir.files c = Some []
    /\ dirArrays h !! Dir.subdirectories c = Some []
    /\ Dir.subdirectories c <> parent.

(** A directory named "root" without files whose subdirectories are
    [subs], leaves named [names] in that order. *)
Definition flat_root (h : heap) (r : ref) (subs : list ref)
    (names : list string) : Prop :=
  exists d,
    dirObjs h !! r = Some d
    /\ Dir.name d = "root"
    /\ dirArrays h !! Dir.subdirectories d = Some subs
    /\ fileArrays h !! Dir.files d = Some []
    /\ map (nameOf h) subs = map Some names
    /\ Forall (leaf h (Dir.subdirectories d)) subs.

(** Some token is already the name of a subdirectory, or occurs twice. *)
Definition clash (names tokens : list string) : Prop :=
  (exists t, t ∈ tokens /\ t ∈ names) \/ ~ NoDup tokens.

(** The body of the loop of [directoriesFromPath]. *)
Definition addToken (ROOT_DIRECTORY : ref) (token : string) : M unit :=
  d <- new_FakeDirectory token None None None ;;
  _ <- addSubdirectory ROOT_DIRECTORY d ;;
  ret tt.

(** ** Invariants of runs *)

(** No store of [h'] is shorter than in [h]: what is allocated in [h] is
    allocated in [h']. *)
Definition grows (h h' : heap) : Prop :=
  length (fileObjs h) <= length (fileObjs h')
  /\ length (fileArrays h) <= length (fileArrays h')
  /\ length (dirArrays h) <= length (dirArrays h')
  /\ length (dirObjs h) <= length (dirObjs h').

(** From a heap that satisfies the invariant [Inv] and has grown out of
    [h0], the computation [m] does not go wrong and leaves a heap that
    satisfies [Inv], whether it returns (a value that satisfies [Q]) or
    throws. *)
Definition keeps {A} (Inv : heap -> Prop) (h0 : heap) (m : M A)
    (Q : A -> heap -> Prop) : Prop :=
  forall h,
    grows h0 h -> Inv h ->
    match m h with
    | Ok a h' => grows h h' /\ Inv h' /\ Q a h'
    | Throw _ h' => grows h h' /\ Inv h'
    | Wrong => False
    end.

(** ** Heaps of some client programs *)

(** Two files "a.txt", an array literal of the two, and a directory
    constructed on that array. *)
Definition duplicate_files_heap : heap :=
  exec (NewFakeDirectory "d" (Some 0) None None)
    (exec (FileArrayLiteral [0; 1])
       (exec (NewFakeFile "a" "txt")
          (exec (NewFakeFile "a" "txt") empty_heap))).

(** Files "a.txt" and "a.md" added to a directory "d" constructed without
    arrays; a directory "x"; a directory "sub" constructed on an array
    literal that holds "x", then added to "d". *)
Definition two_files_heap : heap :=
  exec (AddSubdirectory 0 2)
    (exec (NewFakeDirectory "sub" None None (Some 4))
       (exec (DirArrayLiteral [1])
          (exec (NewFakeDirectory "x" None None None)
             (exec (AddFile 0 1)
                (exec (AddFile 0 0)
                   (exec (NewFakeDirectory "d" None None None)
                      (exec (NewFakeFile "a" "md")
                         (exec (NewFakeFile "a" "txt") empty_heap)))))))).

(** An empty directory and an array literal of the files "a.txt",
    "b.txt", "a.txt", "c.txt". *)
Definition batch_heap : heap :=
  exec (FileArrayLiteral [0; 1; 2; 3])
    (exec (NewFakeDirectory "d" None None None)
       (exec (NewFakeFile "c" "txt")
          (exec (NewFakeFile "a" "txt")
             (exec (NewFakeFile "b" "txt")
                (exec (NewFakeFile "a" "txt") empty_heap))))).

(** A directory that holds "b.txt", and two more files "a.txt" and
    "b.txt" not yet added. *)
Definition collision_heap : heap :=
  exec (NewFakeFile "b" "txt")
    (exec (NewFakeFile "a" "txt")
       (exec (AddFile 0 0)
          (exec (NewFakeFile "b" "txt")
             (exec (NewFakeDirectory "d" None None None) empty_heap)))).

(** ** NIOSEnvironment

    [ScriptArgs] and [ConfigVars] are types of the package
    "nios-scriptable"; the environment stores values of them and reads six
    fields of the configuration, each for its truthiness.  The types and
    these six readings are parameters. *)

Module Setup.
(** [EnvironmentSetupVariables]; an absent [filesystem] is [None]. *)
Record t (ScriptArgs ConfigVars : Type) := Build {
  args : ScriptArgs;
  config : ConfigVars;
  filesystem : option FilesystemWrapper
}.
Arguments Build {ScriptArgs ConfigVars} args config filesystem.
Arguments args {ScriptArgs ConfigVars} t.
Arguments config {ScriptArgs ConfigVars} t.
Arguments filesystem {ScriptArgs ConfigVars} t.
End Setup.

Module Env.
(** The three readonly fields of a [NIOSEnvironment], also the shape of
    the object [getEnv] returns. *)
Record t (ScriptArgs ConfigVars : Type) := Build {
  args : ScriptArgs;
  config : ConfigVars;
  filesystem : FilesystemWrapper
}.
Arguments Build {ScriptArgs ConfigVars} args config filesystem.
Arguments args {ScriptArgs ConfigVars} t.
Arguments config {ScriptArgs ConfigVars} t.
Arguments filesystem {ScriptArgs ConfigVars} t.
End Env.

Section NIOSEnvironment.
Context {ScriptArgs ConfigVars : Type}.
Variables (runsFromHomeScreen runsInActionExtension runsInApp
           runsInNotification runsInWidget runsWithSiri
           : ConfigVars -> bool).

(** [new NIOSEnvironment(setup)]. *)
Definition new_NIOSEnvironment (setup : Setup.t ScriptArgs ConfigVars)
  : M (Env.t ScriptArgs ConfigVars) :=
  fs <- match Setup.filesystem setup with
        | Some fs => ret fs
        | None => basicFilesystem
        end ;;
  ret (Env.Build (Setup.args setup) (Setup.config setup) fs).

Definition checkConfig (this : Env.t ScriptArgs ConfigVars) : M unit :=
  let config := Env.config this in
  if negb (runsFromHomeScreen config)
     && negb (runsInActionExtension config)
     && negb (runsInApp config)
     && negb (runsInNotification config)
     && negb (runsInWidget config)
     && negb (runsWithSiri config)
  then throw (mkError "No running environment was specified.")
  else ret tt.

(** [run(scriptMain)]: the script is a computation whose value is
    dropped.  (The name [run] is that of the runs from the empty heap.) *)
Definition run_script {A} (this : Env.t ScriptArgs ConfigVars)
    (scriptMain : M A) : M unit :=
  checkConfig this ;;
  _ <- scriptMain ;;
  ret tt.

Definition getEnv (this : Env.t ScriptArgs ConfigVars)
  : M (Env.t ScriptArgs ConfigVars) :=
  ret (Env.Build (Env.args this) (Env.config this) (Env.filesystem this)).
End NIOSEnvironment.

(** ** Further views used in the statements beyond the claims *)

(** A [FakeFile] with the tags [ts] and the extended attributes [m], all
    else as in [f]. *)
Definition withTags (f : FakeFile) (ts : list string) : FakeFile :=
  File.Build (File.name f) (File.extension f) ts (File.extattrs f)
             (File.uti f) (File.bookmarks f).

Definition withAttrs (f : FakeFile) (m : JSMap) : FakeFile :=
  File.Build (File.name f) (File.extension f) (File.tags f) m
             (File.uti f) (File.bookmarks f).

(** The private state of a file as the methods keep it: no tag twice, no
    attribute key twice, the type identifier and the bookmarks as the field
    initialisers set them. *)
Definition tidy (f : FakeFile) : Prop :=
  NoDup (File.tags f)
  /\ NoDup (Map_keys (File.extattrs f))
  /\ File.uti f = EmptyString
  /\ File.bookmarks f = [].

(** A well-formed heap whose file objects are [F]. *)
Definition frozen_files (F : list FakeFile) (h : heap) : Prop :=
  wf h /\ fileObjs h = F.

(** [h] is a later state of [h0]: the files and directories of [h0] have
    the name (and extension) they had, and the file and subdirectory lists
    of the directories of [h0] start with what they held. *)
Definition later (h0 h : heap) : Prop :=
  wf h
  /\ (forall r k, keyOf h0 r = Some k -> keyOf h r = Some k)
  /\ (forall r n, nameOf h0 r = Some n -> nameOf h r = Some n)
  /\ (forall this l, fileList h0 this = Some l ->
                     exists l', fileList h this = Some (l ++ l'))
  /\ (forall this l, subdirList h0 this = Some l ->
                     exists l', subdirList h this = Some (l ++ l')).

(** Every object of [h] is in [h'] where and as it was. *)
Definition extends (h h' : heap) : Prop :=
  fileObjs h `prefix_of` fileObjs h'
  /\ fileArrays h `prefix_of` fileArrays h'
  /\ dirArrays h `prefix_of` dirArrays h'
  /\ dirObjs h `prefix_of` dirObjs h'.

(** A file "a.txt" tagged "red" and "blue" with the extended attribute
    "k", and an untouched file "b.txt". *)
Definition tagged_heap : heap :=
  exec (NewFakeFile "b" "txt")
    (exec (WriteExtendedAttribute 0 "v" "k")
       (exec (AddTag 0 "blue")
          (exec (AddTag 0 "red")
             (exec (NewFakeFile "a" "txt") empty_heap)))).

(** ** Runs to try the definitions on *)

Definition run {A} (m : M A) : outcome A := m empty_heap.

Definition returned {A} (o : outcome A) : option A :=
  match o with Ok a _ => Some a | _ => None end.

Definition thrown {A} (o : outcome A) : option string :=
  match o with Throw e _ => Some (message e) | _ => None end.

(** * Properties *)

Example split_abc : split "/" "a/b/c" = ["a"; "b"; "c"].
Proof. reflexivity. Qed.

Example split_empty : split "/" EmptyString = [EmptyString].
Proof. reflexivity. Qed.

Example split_edges :
  split "/" "/a//" = [EmptyString; "a"; EmptyString; EmptyString].
Proof. reflexivity. Qed.

Example basic_listing :
  returned (run (fs <- basicFilesystem ;; listContents (root fs)))
  = Some ["local"; "iCloud"].
Proof. reflexivity. Qed.

Example path_listing :
  returned (run (r <- directoriesFromPath "a/b/c" ;; listContents r))
  = Some ["local"; "iCloud"; "a"; "b"; "c"].
Proof. reflexivity. Qed.

Example path_local :
  thrown (run (directoriesFromPath "a/local"))
  = Some "A directory with the name 'local' already exists.".
Proof. reflexivity. Qed.

Example note_note :
  returned (run (d <- new_FakeDirectory "d" None None None ;;
              f <- new_FakeFile "note" "txt" ;;
              addFile d f ;;
              s <- new_FakeDirectory "note" None None None ;;
              _ <- addSubdirectory d s ;;
              listContents d))
  = Some ["note"; "note"].
Proof. reflexivity. Qed.

(** ** Stepping computations *)

Lemma bind_Ok {A B} (m : M A) (k : A -> M B) h a h' :
  m h = Ok a h' -> bind m k h = k a h'.
Proof. unfold bind. intros ->. reflexivity. Qed.

Lemma bind_Throw {A B} (m : M A) (k : A -> M B) h e h' :
  m h = Throw e h' -> bind m k h = Throw e h'.
Proof. unfold bind. intros ->. reflexivity. Qed.

Lemma bind_Wrong {A B} (m : M A) (k : A -> M B) h :
  m h = Wrong -> bind m k h = Wrong.
Proof. unfold bind. intros ->. reflexivity. Qed.

Lemma read_Ok {A} (sel : heap -> list A) r h a :
  sel h !! r = Some a -> read sel r h = Ok a h.
Proof. unfold read. intros ->. reflexivity. Qed.

Lemma read_inv {A} (sel : heap -> list A) r h a h' :
  read sel r h = Ok a h' -> h' = h /\ sel h !! r = Some a.
Proof.
  unfold read. destruct (sel h !! r) eqn:E; intros H; inversion H; subst; auto.
Qed.

(** ** Maps *)

Lemma Map_get_set_same k v m : Map_get k (Map_set k v m) = Some v.
Proof.
  induction m as [|[k' v'] m IH]; simpl.
  - rewrite String.eqb_refl. reflexivity.
  - destruct (String.eqb k' k) eqn:E; simpl.
    + rewrite String.eqb_refl. reflexivity.
    + rewrite E. exact IH.
Qed.


Lemma Map_set_keys_NoDup k v m :
  NoDup (Map_keys m) -> NoDup (Map_keys (Map_set k v m)).
Proof.
  unfold Map_keys. induction m as [|[k0 v0] m IH]; simpl; intros Hnd.
  - repeat constructor. intros H; inversion H.
  - inversion Hnd as [|? ? Hnotin Hnd']; subst.
    destruct (String.eqb_spec k0 k) as [->|Hk]; simpl.
    + constructor; assumption.
    + constructor; [|auto].
      intros Hin. apply Hnotin. clear -Hin Hk.
      induction m as [|[k1 v1] m IH]; simpl in *.
      * apply list_elem_of_singleton in Hin. congruence.
      * destruct (String.eqb_spec k1 k) as [->|Hk1]; simpl in *.
        -- apply elem_of_cons in Hin as [Hin|Hin]; [congruence|].
           apply elem_of_cons. auto.
        -- apply elem_of_cons in Hin as [Hin|Hin];
             apply elem_of_cons; auto.
Qed.

(** ** FakeFile: extended attributes and tags *)

Lemma Map_set_key_In k v m : In k (Map_keys (Map_set k v m)).
Proof.
  unfold Map_keys. induction m as [|[k' v'] m IH]; simpl; [auto|].
  destruct (String.eqb k' k); simpl; auto.
Qed.

(** C1: a [writeExtendedAttribute(v, k)] followed by
    [readExtendedAttribute(k)] on the same file returns [v] when [v] is not
    the empty string; when [v] is the empty string the read returns [null]
    although the key [k] is then among the extended attributes of the
    file. *)
Theorem C1_read_after_write h this f v k :
  fileObjs h !! this = Some f ->
  exists h1 keys,
    writeExtendedAttribute this v k h = Ok tt h1
    /\ readExtendedAttribute this k h1
       = Ok (if String.eqb v EmptyString then None else Some v) h1
    /\ allExtendedAttributes this h1 = Ok keys h1
    /\ In k keys.
Proof.
  intros Hf. pose proof (lookup_lt_Some _ _ _ Hf) as Hlt.
  set (f' := File.Build (File.name f) (File.extension f) (File.tags f)
               (Map_set k v (File.extattrs f))
               (File.uti f) (File.bookmarks f)).
  assert (Hf' : fileObjs (withFile h this f') !! this = Some f').
  { simpl. apply list_lookup_insert_eq. exact Hlt. }
  exists (withFile h this f'), (Map_keys (Map_set k v (File.extattrs f))).
  split; [|split; [|split]].
  - unfold writeExtendedAttribute.
    erewrite bind_Ok by (apply read_Ok; exact Hf). reflexivity.
  - unfold readExtendedAttribute.
    erewrite bind_Ok by (apply read_Ok; exact Hf').
    simpl. rewrite Map_get_set_same. unfold truthy.
    destruct (String.eqb v EmptyString); reflexivity.
  - unfold allExtendedAttributes.
    erewrite bind_Ok by (apply read_Ok; exact Hf'). reflexivity.
  - apply Map_set_key_In.
Qed.

Example empty_value_reads_null :
  returned (run (f <- new_FakeFile "a" "txt" ;;
                 writeExtendedAttribute f EmptyString "k" ;;
                 v <- readExtendedAttribute f "k" ;;
                 keys <- allExtendedAttributes f ;;
                 ret (v, keys)))
  = Some (None, ["k"]).
Proof. reflexivity. Qed.

Example value_reads_back :
  returned (run (f <- new_FakeFile "a" "txt" ;;
                 writeExtendedAttribute f "v" "k" ;;
                 readExtendedAttribute f "k"))
  = Some (Some "v").
Proof. reflexivity. Qed.

Lemma includes_In x l : includes x l = true <-> In x l.
Proof.
  unfold includes. rewrite existsb_exists. split.
  - intros (y & Hy & E). apply String.eqb_eq in E. subst. exact Hy.
  - intros H. exists x. split; [exact H | apply String.eqb_refl].
Qed.

Lemma includes_snoc x l : includes x (l ++ [x]) = true.
Proof. apply includes_In, in_or_app. right. left. reflexivity. Qed.

(** What [addTag] does to the heap. *)
Lemma addTag_spec h this f tag :
  fileObjs h !! this = Some f ->
  addTag this tag h =
    Ok tt (if includes tag (File.tags f) then h
           else withFile h this
                  (File.Build (File.name f) (File.extension f)
                     (File.tags f ++ [tag]) (File.extattrs f)
                     (File.uti f) (File.bookmarks f))).
Proof.
  intros Hf. unfold addTag. erewrite bind_Ok by (apply read_Ok; exact Hf).
  destruct (includes tag (File.tags f)); reflexivity.
Qed.

(** C10: calling [addTag(t)] a second time returns without error and
    leaves the heap, hence the tags that [allTags] reports, as the first
    call left them; after either call [t] is among the tags. *)
Theorem C10_addTag_idempotent h this f t :
  fileObjs h !! this = Some f ->
  exists h1 ts,
    addTag this t h = Ok tt h1
    /\ addTag this t h1 = Ok tt h1
    /\ allTags this h1 = Ok ts h1
    /\ (x <- (addTag this t ;; addTag this t) ;; allTags this) h = Ok ts h1
    /\ In t ts.
Proof.
  intros Hf. pose proof (lookup_lt_Some _ _ _ Hf) as Hlt.
  rewrite (addTag_spec h this f t Hf).
  destruct (includes t (File.tags f)) eqn:Hinc.
  - exists h, (File.tags f).
    assert (Ha : addTag this t h = Ok tt h).
    { rewrite (addTag_spec h this f t Hf), Hinc. reflexivity. }
    assert (Hall : allTags this h = Ok (File.tags f) h).
    { unfold allTags. erewrite bind_Ok by (apply read_Ok; exact Hf).
      reflexivity. }
    repeat split; auto.
    + erewrite bind_Ok; [exact Hall|].
      erewrite bind_Ok; [exact Ha|exact Ha].
    + apply includes_In. exact Hinc.
  - set (f' := File.Build _ _ _ _ _ _).
    set (h1 := withFile _ _ _).
    assert (Hf' : fileObjs h1 !! this = Some f').
    { simpl. apply list_lookup_insert_eq. exact Hlt. }
    assert (Ha : addTag this t h = Ok tt h1).
    { rewrite (addTag_spec h this f t Hf), Hinc. reflexivity. }
    assert (Hb : addTag this t h1 = Ok tt h1).
    { rewrite (addTag_spec h1 this f' t Hf'). simpl.
      rewrite includes_snoc. reflexivity. }
    assert (Hall : allTags this h1 = Ok (File.tags f ++ [t]) h1).
    { unfold allTags. erewrite bind_Ok by (apply read_Ok; exact Hf').
      reflexivity. }
    exists h1, (File.tags f ++ [t]). repeat split; auto.
    + erewrite bind_Ok; [exact Hall|].
      erewrite bind_Ok; [exact Hb|exact Ha].
    + apply in_or_app. right. left. reflexivity.
Qed.

(** ** Array built-ins *)

Lemma filterM_pure {A} (g : A -> M bool) (q : A -> bool) l h :
  Forall (fun x => g x h = Ok (q x) h) l ->
  filterM g l h = Ok (List.filter q l) h.
Proof.
  induction 1 as [|x l Hx _ IH]; simpl; [reflexivity|].
  rewrite (bind_Ok _ _ _ _ _ Hx), (bind_Ok _ _ _ _ _ IH).
  destruct (q x); reflexivity.
Qed.

Lemma filter_nonempty {A} (q : A -> bool) l :
  (0 <? length (List.filter q l))%nat = existsb q l.
Proof.
  induction l as [|x l IH]; simpl; [reflexivity|].
  destruct (q x); simpl; [reflexivity | exact IH].
Qed.

Lemma indexOf_lookup {A} `{EqDecision A} (x : A) l i :
  indexOf x l = Some i -> l !! i = Some x.
Proof.
  revert i. induction l as [|y l IH]; simpl; intros i; [discriminate|].
  destruct (decide (y = x)) as [->|Hne].
  - intros [= <-]. reflexivity.
  - destruct (indexOf x l) as [j|]; simpl; [|discriminate].
    intros [= <-]. simpl. apply IH. reflexivity.
Qed.

Lemma indexOf_elem {A} `{EqDecision A} (x : A) l :
  x ∈ l -> exists i, indexOf x l = Some i.
Proof.
  induction l as [|y l IH]; simpl; intros Hin.
  - inversion Hin.
  - destruct (decide (y = x)) as [->|Hne]; [eauto|].
    apply elem_of_cons in Hin as [->|Hin]; [congruence|].
    destruct (IH Hin) as [i ->]. simpl. eauto.
Qed.

Lemma split_nonempty sep s : split sep s <> [].
Proof.
  destruct s as [|c s]; simpl; [discriminate|].
  destruct (Ascii.eqb c sep); [discriminate|].
  destruct (split sep s); discriminate.
Qed.

(** ** Keys and names behind references *)

Lemma keyOf_lookup h r f :
  fileObjs h !! r = Some f -> keyOf h r = Some (fileKey f).
Proof. unfold keyOf. intros ->. reflexivity. Qed.

Lemma nameOf_lookup h r d :
  dirObjs h !! r = Some d -> nameOf h r = Some (Dir.name d).
Proof. unfold nameOf. intros ->. reflexivity. Qed.

Lemma allocated_lookup {A} (s : list A) r :
  allocated s r -> exists a, s !! r = Some a.
Proof. intros H. apply lookup_lt_is_Some_2 in H. destruct H; eauto. Qed.

Lemma lookup_allocated {A} (s : list A) r a :
  s !! r = Some a -> allocated s r.
Proof. apply lookup_lt_Some. Qed.

Lemma fileKey_eqb (f g : FakeFile) :
  (String.eqb (File.name f) (File.name g)
   && String.eqb (File.extension f) (File.extension g) = true)
  <-> fileKey f = fileKey g.
Proof.
  unfold fileKey. rewrite andb_true_iff, !String.eqb_eq. split.
  - intros [-> ->]. reflexivity.
  - intros [= -> ->]. auto.
Qed.

(** The scan of [addFile] finds a file exactly when the key of the new
    file is among the keys of the array. *)
Lemma existsb_keys h fs target :
  Forall (allocated (fileObjs h)) fs ->
  existsb (fun r => match fileObjs h !! r with
                    | Some fo =>
                        String.eqb (File.name fo) (File.name target)
                        && String.eqb (File.extension fo)
                                      (File.extension target)
                    | None => false
                    end) fs = true
  <-> Some (fileKey target) ∈ map (keyOf h) fs.
Proof.
  intros Hall. rewrite existsb_exists, list_elem_of_fmap. split.
  - intros (r & Hin & Hr). exists r. split; [|apply list_elem_of_In, Hin].
    unfold keyOf. destruct (fileObjs h !! r) as [fo|]; [|discriminate].
    simpl. f_equal. symmetry. apply fileKey_eqb. exact Hr.
  - intros (r & Hk & Hin). exists r. split; [apply list_elem_of_In, Hin|].
    unfold keyOf in Hk. destruct (fileObjs h !! r) as [fo|]; [|discriminate].
    simpl in Hk. apply fileKey_eqb. congruence.
Qed.

Lemma existsb_names h ds target :
  existsb (fun r => match dirObjs h !! r with
                    | Some o => String.eqb (Dir.name o) (Dir.name target)
                    | None => false
                    end) ds = true
  <-> Some (Dir.name target) ∈ map (nameOf h) ds.
Proof.
  rewrite existsb_exists, list_elem_of_fmap. split.
  - intros (r & Hin & Hr). exists r. split; [|apply list_elem_of_In, Hin].
    unfold nameOf. destruct (dirObjs h !! r) as [o|]; [|discriminate].
    simpl. apply String.eqb_eq in Hr. congruence.
  - intros (r & Hk & Hin). exists r. split; [apply list_elem_of_In, Hin|].
    unfold nameOf in Hk. destruct (dirObjs h !! r) as [o|]; [|discriminate].
    simpl in Hk. apply String.eqb_eq. congruence.
Qed.

(** ** What addFile and addSubdirectory do *)

Section AddFile.
Variables (h : heap) (this file : ref) (d : FakeDirectory)
          (fs : list ref) (target : FakeFile).
Hypothesis Hthis : dirObjs h !! this = Some d.
Hypothesis Hfs : fileArrays h !! Dir.files d = Some fs.
Hypothesis Hfile : fileObjs h !! file = Some target.
Hypothesis Halloc : Forall (allocated (fileObjs h)) fs.

Lemma addFile_scan :
  filterM (fun f =>
             fo <- getFile f ;;
             target <- getFile file ;;
             ret (String.eqb (File.name fo) (File.name target)
                  && String.eqb (File.extension fo)
                                (File.extension target))) fs h
  = Ok (List.filter
          (fun r => match fileObjs h !! r with
                    | Some fo =>
                        String.eqb (File.name fo) (File.name target)
                        && String.eqb (File.extension fo)
                                      (File.extension target)
                    | None => false
                    end) fs) h.
Proof.
  apply filterM_pure. eapply Forall_impl; [exact Halloc|].
  intros r Hr. destruct (allocated_lookup _ _ Hr) as [fo Hfo].
  cbv beta. rewrite Hfo.
  erewrite bind_Ok by (apply read_Ok; exact Hfo).
  erewrite bind_Ok by (apply read_Ok; exact Hfile).
  reflexivity.
Qed.

Lemma addFile_throws :
  Some (fileKey target) ∈ map (keyOf h) fs ->
  addFile this file h
  = Throw (mkError (file_exists_msg (File.name target))) h.
Proof.
  intros Hin. unfold addFile.
  erewrite bind_Ok by (apply read_Ok; exact Hthis).
  erewrite bind_Ok by (apply read_Ok; exact Hfs).
  erewrite bind_Ok by exact addFile_scan.
  rewrite filter_nonempty.
  apply existsb_keys in Hin; [|exact Halloc]. rewrite Hin.
  erewrite bind_Ok by (apply read_Ok; exact Hfile).
  reflexivity.
Qed.

Lemma addFile_pushes :
  Some (fileKey target) ∉ map (keyOf h) fs ->
  addFile this file h
  = Ok tt (withFileArray h (Dir.files d) (fs ++ [file])).
Proof.
  intros Hnin. unfold addFile.
  erewrite bind_Ok by (apply read_Ok; exact Hthis).
  erewrite bind_Ok by (apply read_Ok; exact Hfs).
  erewrite bind_Ok by exact addFile_scan.
  rewrite filter_nonempty.
  destruct (existsb _ fs) eqn:E.
  - exfalso. apply Hnin. apply existsb_keys; assumption.
  - unfold pushFileArray.
    erewrite bind_Ok by (apply read_Ok; exact Hfs).
    reflexivity.
Qed.
End AddFile.

Section AddSubdirectory.
Variables (h : heap) (this dir : ref) (t target : FakeDirectory)
          (subs : list ref).
Hypothesis Hthis : dirObjs h !! this = Some t.
Hypothesis Hsubs : dirArrays h !! Dir.subdirectories t = Some subs.
Hypothesis Hdir : dirObjs h !! dir = Some target.
Hypothesis Halloc : Forall (allocated (dirObjs h)) subs.

Lemma addSubdirectory_scan :
  filterM (fun d =>
             dobj <- getDir d ;;
             target <- getDir dir ;;
             ret (String.eqb (Dir.name dobj) (Dir.name target))) subs h
  = Ok (List.filter
          (fun r => match dirObjs h !! r with
                    | Some o => String.eqb (Dir.name o) (Dir.name target)
                    | None => false
                    end) subs) h.
Proof.
  apply filterM_pure. eapply Forall_impl; [exact Halloc|].
  intros r Hr. destruct (allocated_lookup _ _ Hr) as [o Ho].
  cbv beta. rewrite Ho.
  erewrite bind_Ok by (apply read_Ok; exact Ho).
  erewrite bind_Ok by (apply read_Ok; exact Hdir).
  reflexivity.
Qed.

Lemma addSubdirectory_throws :
  Some (Dir.name target) ∈ map (nameOf h) subs ->
  addSubdirectory this dir h
  = Throw (mkError (dir_exists_msg (Dir.name target))) h.
Proof.
  intros Hin. unfold addSubdirectory.
  erewrite bind_Ok by (apply read_Ok; exact Hthis).
  erewrite bind_Ok by (apply read_Ok; exact Hsubs).
  erewrite bind_Ok by exact addSubdirectory_scan.
  rewrite filter_nonempty.
  apply existsb_names in Hin. rewrite Hin.
  erewrite bind_Throw; [reflexivity|].
  erewrite bind_Ok by (apply read_Ok; exact Hdir).
  reflexivity.
Qed.

Lemma addSubdirectory_pushes :
  Some (Dir.name target) ∉ map (nameOf h) subs ->
  addSubdirectory this dir h
  = Ok dir (withDirArray h (Dir.subdirectories t) (subs ++ [dir])).
Proof.
  intros Hnin. unfold addSubdirectory.
  erewrite bind_Ok by (apply read_Ok; exact Hthis).
  erewrite bind_Ok by (apply read_Ok; exact Hsubs).
  erewrite bind_Ok by exact addSubdirectory_scan.
  rewrite filter_nonempty.
  destruct (existsb _ subs) eqn:E.
  { exfalso. apply Hnin. apply existsb_names. exact E. }
  erewrite bind_Ok.
  2:{ unfold pushDirArray.
      erewrite bind_Ok by (apply read_Ok; exact Hsubs). reflexivity. }
  erewrite bind_Ok.
  2:{ apply read_Ok. simpl. apply list_lookup_insert_eq.
      eapply lookup_lt_Some. exact Hsubs. }
  destruct (indexOf_elem dir (subs ++ [dir])) as [i Hi].
  { apply elem_of_app. right. apply list_elem_of_singleton. reflexivity. }
  rewrite Hi, (indexOf_lookup _ _ _ Hi). reflexivity.
Qed.
End AddSubdirectory.

(** ** Well-formed heaps *)

Lemma wf_fileArray h a fs :
  wf h -> fileArrays h !! a = Some fs -> Forall (allocated (fileObjs h)) fs.
Proof.
  intros (W1 & _ & _) Ha. rewrite Forall_lookup in W1. eapply W1, Ha.
Qed.

Lemma wf_dirArray h a ds :
  wf h -> dirArrays h !! a = Some ds -> Forall (allocated (dirObjs h)) ds.
Proof.
  intros (_ & W2 & _) Ha. rewrite Forall_lookup in W2. eapply W2, Ha.
Qed.

Lemma wf_dir h r d :
  wf h -> dirObjs h !! r = Some d ->
  allocated (fileArrays h) (Dir.files d)
  /\ allocated (dirArrays h) (Dir.subdirectories d).
Proof.
  intros (_ & _ & W3) Hd. rewrite Forall_lookup in W3. eapply W3, Hd.
Qed.

Lemma withFileArray_same h a l :
  fileArrays h !! a = Some l -> withFileArray h a l = h.
Proof.
  intros Ha. unfold withFileArray. rewrite list_insert_id by exact Ha.
  destruct h; reflexivity.
Qed.

Lemma withDirArray_same h a l :
  dirArrays h !! a = Some l -> withDirArray h a l = h.
Proof.
  intros Ha. unfold withDirArray. rewrite list_insert_id by exact Ha.
  destruct h; reflexivity.
Qed.

Lemma withFileArray_twice h a l l' :
  withFileArray (withFileArray h a l) a l' = withFileArray h a l'.
Proof.
  unfold withFileArray. simpl. rewrite list_insert_insert_eq. reflexivity.
Qed.

Lemma withDirArray_twice h a l l' :
  withDirArray (withDirArray h a l) a l' = withDirArray h a l'.
Proof.
  unfold withDirArray. simpl. rewrite list_insert_insert_eq. reflexivity.
Qed.

Lemma fileList_withFileArray h this d l :
  dirObjs h !! this = Some d ->
  allocated (fileArrays h) (Dir.files d) ->
  fileList (withFileArray h (Dir.files d) l) this = Some l.
Proof.
  intros Hd Ha. unfold fileList. simpl. rewrite Hd.
  apply list_lookup_insert_eq. exact Ha.
Qed.

Lemma subdirList_withDirArray h this d l :
  dirObjs h !! this = Some d ->
  allocated (dirArrays h) (Dir.subdirectories d) ->
  subdirList (withDirArray h (Dir.subdirectories d) l) this = Some l.
Proof.
  intros Hd Ha. unfold subdirList. simpl. rewrite Hd.
  apply list_lookup_insert_eq. exact Ha.
Qed.

Lemma message_identifies pre name post :
  identifies (pre +:+ "'" +:+ name +:+ "'" +:+ post) name.
Proof. exists pre, post. reflexivity. Qed.

Lemma file_exists_msg_identifies name :
  identifies (file_exists_msg name) name.
Proof.
  exists "A file with the name ", " already exists.". reflexivity.
Qed.

Lemma dir_exists_msg_identifies name :
  identifies (dir_exists_msg name) name.
Proof.
  exists "A directory with the name ", " already exists.". reflexivity.
Qed.

(** ** addSubdirectory *)

(** C5: on a container whose subdirectory array is [subs], the call
    [addSubdirectory(dir)] throws a DuplicateEntryError that names [dir] and
    leaves the heap as it was when a directory of [subs] has the name of
    [dir]; otherwise it pushes the reference [dir] at the end of the array,
    changes nothing else, and returns that same reference [dir]. *)
Theorem C5_addSubdirectory h this dir t target subs :
  wf h ->
  dirObjs h !! this = Some t ->
  dirArrays h !! Dir.subdirectories t = Some subs ->
  dirObjs h !! dir = Some target ->
  (Some (Dir.name target) ∈ map (nameOf h) subs ->
   exists e,
     addSubdirectory this dir h = Throw e h
     /\ DuplicateEntryError e
     /\ identifies (message e) (Dir.name target))
  /\ (Some (Dir.name target) ∉ map (nameOf h) subs ->
      exists h',
        addSubdirectory this dir h = Ok dir h'
        /\ h' = withDirArray h (Dir.subdirectories t) (subs ++ [dir])
        /\ subdirList h' this = Some (subs ++ [dir])
        /\ (subs ++ [dir]) !! length subs = Some dir).
Proof.
  intros Hwf Hthis Hsubs Hdir.
  pose proof (wf_dirArray _ _ _ Hwf Hsubs) as Halloc.
  split; intros Hin.
  - eexists. split; [|split].
    + eapply addSubdirectory_throws; eassumption.
    + exists (Dir.name target). right. reflexivity.
    + apply dir_exists_msg_identifies.
  - eexists. split; [|split; [reflexivity|split]].
    + eapply addSubdirectory_pushes; eassumption.
    + apply subdirList_withDirArray; [exact Hthis|].
      eapply lookup_allocated, Hsubs.
    + apply list_lookup_middle. reflexivity.
Qed.

(** ** addFile *)

(** What one call of [addFile] does on a well-formed heap. *)
Lemma addFile_spec h this file d fs target :
  wf h ->
  dirObjs h !! this = Some d ->
  fileArrays h !! Dir.files d = Some fs ->
  fileObjs h !! file = Some target ->
  addFile this file h
  = if decide (Some (fileKey target) ∈ map (keyOf h) fs)
    then Throw (mkError (file_exists_msg (File.name target))) h
    else Ok tt (withFileArray h (Dir.files d) (fs ++ [file])).
Proof.
  intros Hwf Hthis Hfs Hfile.
  pose proof (wf_fileArray _ _ _ Hwf Hfs) as Halloc.
  destruct (decide _) as [Hin|Hnin].
  - eapply addFile_throws; eassumption.
  - eapply addFile_pushes; eassumption.
Qed.

Lemma wf_withFileArray h a fs file :
  wf h -> fileArrays h !! a = Some fs -> allocated (fileObjs h) file ->
  wf (withFileArray h a (fs ++ [file])).
Proof.
  intros Hwf Ha Hfile. pose proof (wf_fileArray _ _ _ Hwf Ha) as Hfs.
  destruct Hwf as (W1 & W2 & W3). unfold wf, withFileArray; simpl.
  split; [|split].
  - apply Forall_insert; [exact W1|].
    apply Forall_app. split; [exact Hfs|].
    constructor; [exact Hfile|constructor].
  - exact W2.
  - eapply Forall_impl; [exact W3|]. intros d [H1 H2]. split; [|exact H2].
    unfold allocated. rewrite length_insert. exact H1.
Qed.

Lemma wf_withDirArray h a ds dir :
  wf h -> dirArrays h !! a = Some ds -> allocated (dirObjs h) dir ->
  wf (withDirArray h a (ds ++ [dir])).
Proof.
  intros Hwf Ha Hdir. pose proof (wf_dirArray _ _ _ Hwf Ha) as Hds.
  destruct Hwf as (W1 & W2 & W3). unfold wf, withDirArray; simpl.
  split; [|split].
  - exact W1.
  - apply Forall_insert; [exact W2|].
    apply Forall_app. split; [exact Hds|].
    constructor; [exact Hdir|constructor].
  - eapply Forall_impl; [exact W3|]. intros d [H1 H2]. split; [exact H1|].
    unfold allocated. rewrite length_insert. exact H2.
Qed.

Lemma keyOf_withFileArray h a l :
  keyOf (withFileArray h a l) = keyOf h.
Proof. reflexivity. Qed.

Lemma nameOf_withDirArray h a l :
  nameOf (withDirArray h a l) = nameOf h.
Proof. reflexivity. Qed.

(** C4, as the code has it: once [addFile(f1)] has succeeded on a container
    whose file array was [fs], the array is [fs] followed by [f1]; a call
    [addFile(f2)] then throws a DuplicateEntryError that names [f2] and
    leaves the heap, hence the file array, as it was, when [f2] has the name
    and extension of [f1] or of a file of [fs]; and when it has those of
    neither, the call pushes [f2] at the end of the array. *)
Theorem C4_addFile_after_addFile h this d fs f1 f2 o1 o2 h1 :
  wf h ->
  dirObjs h !! this = Some d ->
  fileArrays h !! Dir.files d = Some fs ->
  fileObjs h !! f1 = Some o1 ->
  fileObjs h !! f2 = Some o2 ->
  addFile this f1 h = Ok tt h1 ->
  fileList h1 this = Some (fs ++ [f1])
  /\ (fileKey o1 = fileKey o2 \/ Some (fileKey o2) ∈ map (keyOf h) fs ->
      exists e,
        addFile this f2 h1 = Throw e h1
        /\ DuplicateEntryError e
        /\ identifies (message e) (File.name o2))
  /\ (fileKey o1 <> fileKey o2 ->
      Some (fileKey o2) ∉ map (keyOf h) fs ->
      exists h2,
        addFile this f2 h1 = Ok tt h2
        /\ fileList h2 this = Some (fs ++ [f1; f2])).
Proof.
  intros Hwf Hthis Hfs Hf1 Hf2 Hadd.
  pose proof (lookup_allocated _ _ _ Hfs) as Ha.
  rewrite (addFile_spec h this f1 d fs o1 Hwf Hthis Hfs Hf1) in Hadd.
  destruct (decide _) as [|Hnew]; [discriminate|].
  injection Hadd as <-.
  set (h1 := withFileArray h (Dir.files d) (fs ++ [f1])).
  assert (Hwf1 : wf h1).
  { apply wf_withFileArray; [exact Hwf|exact Hfs|].
    eapply lookup_allocated, Hf1. }
  assert (Hfs1 : fileArrays h1 !! Dir.files d = Some (fs ++ [f1])).
  { simpl. apply list_lookup_insert_eq. exact Ha. }
  assert (Hkeys : map (keyOf h1) (fs ++ [f1])
                  = map (keyOf h) fs ++ [Some (fileKey o1)]).
  { unfold h1. rewrite keyOf_withFileArray, map_app. simpl.
    rewrite (keyOf_lookup _ _ _ Hf1). reflexivity. }
  pose proof (addFile_spec h1 this f2 d (fs ++ [f1]) o2 Hwf1 Hthis Hfs1 Hf2)
    as Hsecond.
  rewrite Hkeys in Hsecond.
  split; [|split].
  - apply fileList_withFileArray; assumption.
  - intros Hdup. rewrite Hsecond.
    destruct (decide _) as [_|Hnin].
    + eexists. split; [reflexivity|]. split.
      * exists (File.name o2). left. reflexivity.
      * apply file_exists_msg_identifies.
    + exfalso. apply Hnin. apply elem_of_app.
      destruct Hdup as [Heq|Hin]; [right|left; exact Hin].
      rewrite Heq. apply list_elem_of_singleton. reflexivity.
  - intros Hne Hnin. rewrite Hsecond.
    destruct (decide _) as [Hin|_].
    + exfalso. apply elem_of_app in Hin as [Hin|Hin]; [exact (Hnin Hin)|].
      apply list_elem_of_singleton in Hin. congruence.
    + eexists. split; [reflexivity|].
      rewrite <- (app_assoc fs [f1] [f2]).
      apply fileList_withFileArray; [exact Hthis|].
      unfold allocated. simpl. rewrite length_insert. exact Ha.
Qed.

(** ** addFiles *)

Section AddFiles.
Variables (this : ref) (d : FakeDirectory).

Lemma addFiles_loop_all l :
  forall h cur,
    wf h ->
    dirObjs h !! this = Some d ->
    fileArrays h !! Dir.files d = Some cur ->
    Forall (allocated (fileObjs h)) l ->
    NoDup (map (keyOf h) l) ->
    (forall k, k ∈ map (keyOf h) l -> k ∉ map (keyOf h) cur) ->
    forOf l (fun f => addFile this f) h
    = Ok tt (withFileArray h (Dir.files d) (cur ++ l)).
Proof.
  induction l as [|x l IH]; intros h cur Hwf Hthis Hcur Hl Hnd Hdisj.
  - simpl. rewrite app_nil_r, withFileArray_same by exact Hcur.
    reflexivity.
  - apply Forall_cons in Hl as [Hx Hl].
    destruct (allocated_lookup _ _ Hx) as [ox Hox].
    simpl in Hnd. apply NoDup_cons in Hnd as [Hxl Hnd].
    simpl.
    erewrite bind_Ok.
    2:{ rewrite (addFile_spec h this x d cur ox Hwf Hthis Hcur Hox).
        destruct (decide _) as [Hin|_]; [|reflexivity].
        exfalso. apply (Hdisj (keyOf h x)).
        - simpl. apply elem_of_cons. left. reflexivity.
        - rewrite (keyOf_lookup _ _ _ Hox). exact Hin. }
    rewrite (IH _ (cur ++ [x])).
    + rewrite withFileArray_twice, <- app_assoc. reflexivity.
    + apply wf_withFileArray; assumption.
    + exact Hthis.
    + simpl. apply list_lookup_insert_eq. eapply lookup_allocated, Hcur.
    + exact Hl.
    + exact Hnd.
    + rewrite keyOf_withFileArray. intros k Hk Hin.
      rewrite map_app in Hin. apply elem_of_app in Hin as [Hin|Hin].
      * apply (Hdisj k); [|exact Hin].
        simpl. apply elem_of_cons. right. exact Hk.
      * simpl in Hin. apply list_elem_of_singleton in Hin. subst k.
        exact (Hxl Hk).
Qed.

Lemma addFiles_loop_stops pre f post o h cur :
  wf h ->
  dirObjs h !! this = Some d ->
  fileArrays h !! Dir.files d = Some cur ->
  Forall (allocated (fileObjs h)) pre ->
  fileObjs h !! f = Some o ->
  NoDup (map (keyOf h) pre) ->
  (forall k, k ∈ map (keyOf h) pre -> k ∉ map (keyOf h) cur) ->
  Some (fileKey o) ∈ map (keyOf h) (cur ++ pre) ->
  forOf (pre ++ f :: post) (fun f => addFile this f) h
  = Throw (mkError (file_exists_msg (File.name o)))
          (withFileArray h (Dir.files d) (cur ++ pre)).
Proof.
  revert h cur.
  induction pre as [|x pre IH];
    intros h cur Hwf Hthis Hcur Hpre Hf Hnd Hdisj Hin.
  - simpl. rewrite app_nil_r in *.
    rewrite withFileArray_same by exact Hcur.
    apply bind_Throw.
    rewrite (addFile_spec h this f d cur o Hwf Hthis Hcur Hf).
    destruct (decide _) as [_|Hnin]; [reflexivity|contradiction].
  - apply Forall_cons in Hpre as [Hx Hpre].
    destruct (allocated_lookup _ _ Hx) as [ox Hox].
    simpl in Hnd. apply NoDup_cons in Hnd as [Hxl Hnd].
    simpl.
    erewrite bind_Ok.
    2:{ rewrite (addFile_spec h this x d cur ox Hwf Hthis Hcur Hox).
        destruct (decide _) as [Hin'|_]; [|reflexivity].
        exfalso. apply (Hdisj (keyOf h x)).
        - simpl. apply elem_of_cons. left. reflexivity.
        - rewrite (keyOf_lookup _ _ _ Hox). exact Hin'. }
    rewrite (IH _ (cur ++ [x])).
    + rewrite withFileArray_twice, <- app_assoc. reflexivity.
    + apply wf_withFileArray; assumption.
    + exact Hthis.
    + simpl. apply list_lookup_insert_eq. eapply lookup_allocated, Hcur.
    + exact Hpre.
    + exact Hf.
    + exact Hnd.
    + rewrite keyOf_withFileArray. intros k Hk Hin'.
      rewrite map_app in Hin'. apply elem_of_app in Hin' as [Hin'|Hin'].
      * apply (Hdisj k); [|exact Hin'].
        simpl. apply elem_of_cons. right. exact Hk.
      * simpl in Hin'. apply list_elem_of_singleton in Hin'. subst k.
        exact (Hxl Hk).
    + rewrite keyOf_withFileArray, <- app_assoc. exact Hin.
Qed.
End AddFiles.

(** C6: [addFiles(files)] on a container whose file array is [cur] adds
    the elements of [files] in order, each checked against what the array
    holds by then.  When [f] is the first element whose name and extension
    are already in the array (in [cur] or among the elements [pre] before
    it), the call throws the error of [addFile(f)] and leaves the array
    at [cur] followed by [pre]: the files before [f] stay, [f] and the
    elements after it are not added.  When there is no such element the
    call returns and the array is [cur] followed by all of [files]. *)
Theorem C6_addFiles h this d files fs cur :
  wf h ->
  dirObjs h !! this = Some d ->
  fileArrays h !! Dir.files d = Some cur ->
  fileArrays h !! files = Some fs ->
  (forall pre f post o,
      fs = pre ++ f :: post ->
      fileObjs h !! f = Some o ->
      NoDup (map (keyOf h) pre) ->
      (forall k, k ∈ map (keyOf h) pre -> k ∉ map (keyOf h) cur) ->
      Some (fileKey o) ∈ map (keyOf h) (cur ++ pre) ->
      exists h',
        addFiles this files h
        = Throw (mkError (file_exists_msg (File.name o))) h'
        /\ h' = withFileArray h (Dir.files d) (cur ++ pre)
        /\ fileList h' this = Some (cur ++ pre))
  /\ (NoDup (map (keyOf h) fs) ->
      (forall k, k ∈ map (keyOf h) fs -> k ∉ map (keyOf h) cur) ->
      exists h',
        addFiles this files h = Ok tt h'
        /\ h' = withFileArray h (Dir.files d) (cur ++ fs)
        /\ fileList h' this = Some (cur ++ fs)).
Proof.
  intros Hwf Hthis Hcur Hfiles.
  pose proof (wf_fileArray _ _ _ Hwf Hfiles) as Hfs.
  pose proof (lookup_allocated _ _ _ Hcur) as Ha.
  split.
  - intros pre f post o -> Hf Hnd Hdisj Hin.
    apply Forall_app in Hfs as [Hpre _].
    eexists. split; [|split; [reflexivity|]].
    + unfold addFiles.
      erewrite bind_Ok by (apply read_Ok; exact Hfiles).
      eapply addFiles_loop_stops; eassumption.
    + apply fileList_withFileArray; assumption.
  - intros Hnd Hdisj.
    eexists. split; [|split; [reflexivity|]].
    + unfold addFiles.
      erewrite bind_Ok by (apply read_Ok; exact Hfiles).
      eapply addFiles_loop_all; eassumption.
    + apply fileList_withFileArray; assumption.
Qed.

(** When the array handed to [addFiles] is the file array of the container
    itself, the loop throws at its first element and pushes nothing: the
    elements the loop visits are those the array had at the start. *)
Lemma addFiles_own_array h this d f post o :
  wf h ->
  dirObjs h !! this = Some d ->
  fileArrays h !! Dir.files d = Some (f :: post) ->
  fileObjs h !! f = Some o ->
  addFiles this (Dir.files d) h
  = Throw (mkError (file_exists_msg (File.name o))) h.
Proof.
  intros Hwf Hthis Hfs Hf. unfold addFiles.
  erewrite bind_Ok by (apply read_Ok; exact Hfs).
  change (f :: post) with ([] ++ f :: post) at 1.
  rewrite (addFiles_loop_stops this d [] f post o h (f :: post));
    try assumption.
  - rewrite app_nil_r, withFileArray_same by exact Hfs. reflexivity.
  - constructor.
  - constructor.
  - intros k Hk. inversion Hk.
  - rewrite app_nil_r. simpl. rewrite (keyOf_lookup _ _ _ Hf). left.
Qed.

Lemma addSubdirectories_own_array h this t x post o :
  wf h ->
  dirObjs h !! this = Some t ->
  dirArrays h !! Dir.subdirectories t = Some (x :: post) ->
  dirObjs h !! x = Some o ->
  addSubdirectories this (Dir.subdirectories t) h
  = Throw (mkError (dir_exists_msg (Dir.name o))) h.
Proof.
  intros Hwf Hthis Hsubs Hx. unfold addSubdirectories.
  erewrite bind_Ok by (apply read_Ok; exact Hsubs).
  simpl. apply bind_Throw. apply bind_Throw.
  apply (addSubdirectory_throws h this x t o (x :: post)); try assumption.
  - eapply wf_dirArray; eassumption.
  - simpl. rewrite (nameOf_lookup _ _ _ Hx). left.
Qed.

(** ** The tree factory *)

Lemma new_FakeDirectory_fresh name h :
  new_FakeDirectory name None None None h
  = Ok (length (dirObjs h))
       (Heap (fileObjs h) (fileArrays h ++ [[]])
             ((dirArrays h ++ [[]]) ++ [[]])
             (dirObjs h ++ [Dir.Build [] (length (fileArrays h))
                              (length (dirArrays h ++ [[]])) name])).
Proof. reflexivity. Qed.

Lemma lookup_app_allocated {A} (s t : list A) r :
  allocated s r -> (s ++ t) !! r = s !! r.
Proof. intros H. apply lookup_app_l. exact H. Qed.

Lemma map_nameOf_app h o (ds : list ref) objs fobjs farrs darrs :
  dirObjs h = objs ->
  Forall (allocated objs) ds ->
  map (nameOf (Heap fobjs farrs darrs (objs ++ [o]))) ds = map (nameOf h) ds.
Proof.
  intros Hobjs Hall. apply map_ext_Forall.
  eapply Forall_impl; [exact Hall|]. intros r Hr. unfold nameOf. simpl.
  rewrite lookup_app_allocated by exact Hr. rewrite Hobjs. reflexivity.
Qed.

Lemma leaf_allocated h p r : leaf h p r -> allocated (dirObjs h) r.
Proof. intros (c & Hc & _). eapply lookup_allocated, Hc. Qed.

(** A fresh directory does not disturb the leaves there are. *)
Lemma leaf_after_new h p r name :
  allocated (dirArrays h) p ->
  leaf h p r ->
  leaf (Heap (fileObjs h) (fileArrays h ++ [[]])
             ((dirArrays h ++ [[]]) ++ [[]])
             (dirObjs h ++ [Dir.Build [] (length (fileArrays h))
                              (length (dirArrays h ++ [[]])) name])) p r.
Proof.
  intros Hp (c & Hc & Hf & Hd & Hne). exists c. simpl.
  rewrite lookup_app_allocated by (eapply lookup_allocated, Hc).
  rewrite lookup_app_allocated by (eapply lookup_allocated, Hf).
  rewrite <- app_assoc.
  rewrite lookup_app_allocated by (eapply lookup_allocated, Hd).
  auto.
Qed.

Lemma leaf_after_push h p r l :
  leaf h p r -> leaf (withDirArray h p l) p r.
Proof.
  intros (c & Hc & Hf & Hd & Hne). exists c. simpl.
  rewrite list_lookup_insert_ne by congruence. auto.
Qed.

(** One round of the loop on a flat root: the token becomes a new leaf
    at the end of the subdirectories unless its name is taken. *)
Lemma addToken_spec h r subs names token :
  flat_root h r subs names ->
  (token ∈ names ->
   exists h', addToken r token h
              = Throw (mkError (dir_exists_msg token)) h')
  /\ (token ∉ names ->
      exists h' c,
        addToken r token h = Ok tt h'
        /\ flat_root h' r (subs ++ [c]) (names ++ [token])).
Proof.
  intros (d & Hr & Hname & Hsubs & Hfiles & Hnames & Hleaves).
  pose proof (lookup_allocated _ _ _ Hr) as Har.
  pose proof (lookup_allocated _ _ _ Hsubs) as Hasubs.
  pose proof (lookup_allocated _ _ _ Hfiles) as Hafiles.
  assert (Hall : Forall (allocated (dirObjs h)) subs).
  { eapply Forall_impl; [exact Hleaves|]. intros x. apply leaf_allocated. }
  set (c := length (dirObjs h)).
  set (o := Dir.Build [] (length (fileArrays h))
              (length (dirArrays h ++ [[]])) token).
  set (h1 := Heap (fileObjs h) (fileArrays h ++ [[]])
                  ((dirArrays h ++ [[]]) ++ [[]]) (dirObjs h ++ [o])).
  assert (Hnew : new_FakeDirectory token None None None h = Ok c h1)
    by apply new_FakeDirectory_fresh.
  assert (Hr1 : dirObjs h1 !! r = Some d).
  { simpl. rewrite lookup_app_allocated by exact Har. exact Hr. }
  assert (Hsubs1 : dirArrays h1 !! Dir.subdirectories d = Some subs).
  { simpl. rewrite <- app_assoc.
    rewrite lookup_app_allocated by exact Hasubs. exact Hsubs. }
  assert (Hc1 : dirObjs h1 !! c = Some o).
  { simpl. apply list_lookup_middle. reflexivity. }
  assert (Hall1 : Forall (allocated (dirObjs h1)) subs).
  { eapply Forall_impl; [exact Hall|]. intros x Hx. unfold allocated in *.
    simpl. rewrite length_app. lia. }
  assert (Hnames1 : map (nameOf h1) subs = map Some names).
  { unfold h1. rewrite (map_nameOf_app h) by auto. exact Hnames. }
  assert (Hmem : Some token ∈ map (nameOf h1) subs <-> token ∈ names).
  { rewrite Hnames1, list_elem_of_fmap. split.
    - intros (x & [= ->] & Hx). exact Hx.
    - intros Hx. exists token. auto. }
  split; intros Htok.
  - exists h1. unfold addToken.
    rewrite (bind_Ok _ _ _ _ _ Hnew).
    apply bind_Throw.
    apply (addSubdirectory_throws h1 r c d o subs Hr1 Hsubs1 Hc1 Hall1).
    apply Hmem. exact Htok.
  - exists (withDirArray h1 (Dir.subdirectories d) (subs ++ [c])), c.
    split.
    + unfold addToken.
      rewrite (bind_Ok _ _ _ _ _ Hnew).
      erewrite bind_Ok; [reflexivity|].
      apply (addSubdirectory_pushes h1 r c d o subs Hr1 Hsubs1 Hc1 Hall1).
      intros Hin. apply Htok, Hmem. exact Hin.
    + exists d. split; [exact Hr1|]. split; [exact Hname|]. split; [|split].
      * simpl. apply list_lookup_insert_eq.
        rewrite length_app, length_app. unfold allocated in Hasubs. lia.
      * simpl. rewrite lookup_app_allocated by exact Hafiles. exact Hfiles.
      * split.
        -- rewrite nameOf_withDirArray, !map_app, Hnames1. simpl.
           rewrite (nameOf_lookup _ _ _ Hc1). reflexivity.
        -- assert (Hfresh : length (dirArrays h ++ [[]])
                            <> Dir.subdirectories d).
           { rewrite length_app. unfold allocated in Hasubs. simpl. lia. }
           apply Forall_app. split.
           ++ eapply Forall_impl; [exact Hleaves|]. intros x Hx.
              apply leaf_after_push. apply leaf_after_new; assumption.
           ++ constructor; [|constructor].
              exists o. simpl.
              rewrite list_lookup_insert_ne by exact (not_eq_sym Hfresh).
              split; [apply list_lookup_middle; reflexivity|].
              split; [apply list_lookup_middle; reflexivity|].
              split; [apply list_lookup_middle; reflexivity|].
              exact Hfresh.
Qed.

Lemma bind_assoc {A B C} (m : M A) (f : A -> M B) (g : B -> M C) h :
  bind (bind m f) g h = bind m (fun x => bind (f x) g) h.
Proof. unfold bind. destruct (m h); reflexivity. Qed.

Lemma clash_cons_taken names t ts : t ∈ names -> clash names (t :: ts).
Proof. intros H. left. exists t. split; [left|exact H]. Qed.

Lemma clash_cons names t ts :
  t ∉ names -> (clash names (t :: ts) <-> clash (names ++ [t]) ts).
Proof.
  intros Hnew. unfold clash. split.
  - intros [(u & Hu & Hun)|Hdup].
    + apply elem_of_cons in Hu as [->|Hu]; [contradiction|].
      left. exists u. split; [exact Hu|]. apply elem_of_app. auto.
    + destruct (decide (t ∈ ts)) as [Hin|Hnin].
      * left. exists t. split; [exact Hin|].
        apply elem_of_app. right. apply list_elem_of_singleton. reflexivity.
      * right. intros Hnd. apply Hdup. apply NoDup_cons. auto.
  - intros [(u & Hu & Hun)|Hdup].
    + apply elem_of_app in Hun as [Hun|Hun].
      * left. exists u. split; [right; exact Hu|exact Hun].
      * apply list_elem_of_singleton in Hun. subst u.
        right. intros Hnd. apply NoDup_cons in Hnd as [Hnin _]. auto.
    + right. intros Hnd. apply NoDup_cons in Hnd as [_ Hnd]. auto.
Qed.

Lemma clash_nil names : ~ clash names [].
Proof.
  intros [(u & Hu & _)|Hdup]; [inversion Hu|apply Hdup; constructor].
Qed.

(** The loop of [directoriesFromPath] on a flat root: it throws at the
    first token whose name is taken, and adds a leaf per token when there
    is none. *)
Lemma tokens_loop r tokens :
  forall h subs names,
    flat_root h r subs names ->
    (clash names tokens ->
     exists t h',
       t ∈ tokens
       /\ forOf tokens (addToken r) h
          = Throw (mkError (dir_exists_msg t)) h')
    /\ (~ clash names tokens ->
        exists h' subs',
          forOf tokens (addToken r) h = Ok tt h'
          /\ flat_root h' r subs' (names ++ tokens)).
Proof.
  induction tokens as [|t ts IH]; intros h subs names Hroot.
  - split.
    + intros Hc. destruct (clash_nil _ Hc).
    + intros _. exists h, subs. rewrite app_nil_r. auto.
  - destruct (addToken_spec h r subs names t Hroot) as [Htaken Hfree].
    destruct (decide (t ∈ names)) as [Hin|Hnin].
    + split.
      * intros _. destruct (Htaken Hin) as [h' Hthrow].
        exists t, h'. split; [left|]. simpl. apply bind_Throw, Hthrow.
      * intros Hc. destruct Hc. apply clash_cons_taken, Hin.
    + destruct (Hfree Hnin) as (h1 & c & Hstep & Hroot1).
      destruct (IH h1 _ _ Hroot1) as [IHc IHn].
      split.
      * intros Hc. apply clash_cons in Hc; [|exact Hnin].
        destruct (IHc Hc) as (u & h' & Hu & Hthrow).
        exists u, h'. split; [right; exact Hu|].
        simpl. rewrite (bind_Ok _ _ _ _ _ Hstep). exact Hthrow.
      * intros Hc.
        destruct IHn as (h' & subs' & Hok & Hroot').
        { intros Hc'. apply Hc. apply clash_cons; assumption. }
        exists h', subs'. split.
        -- simpl. rewrite (bind_Ok _ _ _ _ _ Hstep). exact Hok.
        -- rewrite <- app_assoc in Hroot'. exact Hroot'.
Qed.

Lemma flat_root_fresh h :
  flat_root
    (Heap (fileObjs h) (fileArrays h ++ [[]])
          ((dirArrays h ++ [[]]) ++ [[]])
          (dirObjs h ++ [Dir.Build [] (length (fileArrays h))
                           (length (dirArrays h ++ [[]])) "root"]))
    (length (dirObjs h)) [] [].
Proof.
  eexists. simpl.
  split; [apply list_lookup_middle; reflexivity|].
  split; [reflexivity|].
  split; [apply list_lookup_middle; reflexivity|].
  split; [apply list_lookup_middle; reflexivity|].
  split; [reflexivity|constructor].
Qed.

Lemma basicFilesystem_unfold h :
  basicFilesystem h
  = (r <- new_FakeDirectory "root" None None None ;;
     addToken r "local" ;;
     addToken r "iCloud" ;;
     ret {| root := r |}) h.
Proof.
  unfold basicFilesystem, addToken, bind, ret.
  rewrite new_FakeDirectory_fresh. cbv iota beta.
  rewrite new_FakeDirectory_fresh. cbv iota beta.
  destruct (addSubdirectory _ _ _) as [a h1| |]; try reflexivity.
  rewrite new_FakeDirectory_fresh. cbv iota beta.
  destruct (addSubdirectory _ _ _) as [a' h2| |]; reflexivity.
Qed.

Lemma clash_decide names tokens : clash names tokens \/ ~ clash names tokens.
Proof.
  destruct (decide (NoDup tokens)) as [Hnd|Hdup]; [|left; right; exact Hdup].
  destruct (decide (Exists (fun t => t ∈ names) tokens)) as [Hex|Hnex].
  - left. left. apply Exists_exists in Hex. exact Hex.
  - right. intros [Hex|Hdup]; [|contradiction].
    apply Hnex. apply Exists_exists. exact Hex.
Qed.

Lemma basicFilesystem_spec h :
  exists r h' local_ iCloud,
    basicFilesystem h = Ok {| root := r |} h'
    /\ flat_root h' r [local_; iCloud] ["local"; "iCloud"].
Proof.
  rewrite basicFilesystem_unfold.
  rewrite (bind_Ok _ _ _ _ _ (new_FakeDirectory_fresh "root" h)).
  pose proof (flat_root_fresh h) as Hroot0.
  destruct (addToken_spec _ _ _ _ "local" Hroot0) as [_ Hlocal].
  destruct Hlocal as (h1 & l & Hstep1 & Hroot1); [apply not_elem_of_nil|].
  destruct (addToken_spec _ _ _ _ "iCloud" Hroot1) as [_ HiCloud].
  destruct HiCloud as (h2 & i & Hstep2 & Hroot2).
  { simpl. intros Hin. apply list_elem_of_singleton in Hin. discriminate. }
  exists (length (dirObjs h)), h2, l, i. split; [|exact Hroot2].
  rewrite (bind_Ok _ _ _ _ _ Hstep1), (bind_Ok _ _ _ _ _ Hstep2).
  reflexivity.
Qed.

(** ** listContents *)

Lemma pushEach_pure {A B} (g : A -> M B) (view : A -> option B) h l :
  forall contents,
    Forall (fun x => exists b, view x = Some b /\ g x h = Ok b h) l ->
    pushEach l g contents h = Ok (contents ++ omap view l) h.
Proof.
  induction l as [|x l IH]; intros contents Hall; simpl.
  - rewrite app_nil_r. reflexivity.
  - apply Forall_cons in Hall as [(b & Hv & Hg) Hall].
    rewrite (bind_Ok _ _ _ _ _ Hg), (IH _ Hall), Hv, <- app_assoc.
    reflexivity.
Qed.

(** The listing is the names of the subdirectories in stored order, then
    the names of the files in stored order. *)
Lemma listContents_spec h this d subs fs :
  wf h ->
  dirObjs h !! this = Some d ->
  dirArrays h !! Dir.subdirectories d = Some subs ->
  fileArrays h !! Dir.files d = Some fs ->
  listContents this h
  = Ok (omap (nameOf h) subs ++ omap (fileNameOf h) fs) h.
Proof.
  intros Hwf Hthis Hsubs Hfs. unfold listContents.
  erewrite bind_Ok by (apply read_Ok; exact Hthis).
  erewrite bind_Ok by (apply read_Ok; exact Hsubs).
  erewrite bind_Ok.
  2:{ apply (pushEach_pure _ (nameOf h)).
      eapply Forall_impl; [exact (wf_dirArray _ _ _ Hwf Hsubs)|].
      intros r Hr. destruct (allocated_lookup _ _ Hr) as [o Ho].
      exists (Dir.name o). split; [apply nameOf_lookup, Ho|].
      erewrite bind_Ok by (apply read_Ok; exact Ho). reflexivity. }
  erewrite bind_Ok by (apply read_Ok; exact Hfs).
  apply (pushEach_pure _ (fileNameOf h)).
  eapply Forall_impl; [exact (wf_fileArray _ _ _ Hwf Hfs)|].
  intros r Hr. destruct (allocated_lookup _ _ Hr) as [o Ho].
  exists (File.name o). split; [unfold fileNameOf; rewrite Ho; reflexivity|].
  erewrite bind_Ok by (apply read_Ok; exact Ho). reflexivity.
Qed.

Lemma omap_map_Some {A B} (view : A -> option B) l names :
  map view l = map Some names -> omap view l = names.
Proof.
  revert names. induction l as [|x l IH]; intros [|n names] H;
    simpl in *; try discriminate; [reflexivity|].
  injection H as Hx Hl. rewrite Hx. f_equal. apply IH, Hl.
Qed.

Lemma listContents_flat_root h r subs names :
  flat_root h r subs names -> listContents r h = Ok names h.
Proof.
  intros (d & Hr & _ & Hsubs & Hfiles & Hnames & Hleaves).
  unfold listContents.
  erewrite bind_Ok by (apply read_Ok; exact Hr).
  erewrite bind_Ok by (apply read_Ok; exact Hsubs).
  erewrite bind_Ok.
  2:{ apply (pushEach_pure _ (nameOf h)).
      eapply Forall_impl; [exact Hleaves|].
      intros x (o & Ho & _). exists (Dir.name o).
      split; [apply nameOf_lookup, Ho|].
      erewrite bind_Ok by (apply read_Ok; exact Ho). reflexivity. }
  erewrite bind_Ok by (apply read_Ok; exact Hfiles).
  simpl. rewrite (omap_map_Some _ _ _ Hnames). reflexivity.
Qed.

Lemma flat_root_children h r subs names :
  flat_root h r subs names ->
  nameOf h r = Some "root"
  /\ subdirList h r = Some subs
  /\ fileList h r = Some []
  /\ map (nameOf h) subs = map Some names
  /\ Forall (fun c => subdirList h c = Some [] /\ fileList h c = Some [])
            subs.
Proof.
  intros (d & Hr & Hname & Hsubs & Hfiles & Hnames & Hleaves).
  unfold subdirList, fileList. rewrite Hr.
  split; [rewrite (nameOf_lookup _ _ _ Hr), Hname; reflexivity|].
  repeat (split; [assumption|]).
  eapply Forall_impl; [exact Hleaves|].
  intros c (o & Ho & Hf & Hd & _). unfold subdirList, fileList.
  rewrite Ho. auto.
Qed.

Lemma map_Some_omap {A B} (view : A -> option B) l :
  Forall (fun x => is_Some (view x)) l ->
  map view l = map Some (omap view l).
Proof.
  induction 1 as [|x l [b Hb] _ IH]; simpl; [reflexivity|].
  rewrite Hb. simpl. f_equal. exact IH.
Qed.

(** C7: from any heap, [basicFilesystem()] returns a wrapper whose root is
    a new directory named "root" with no files and with exactly two
    subdirectories, named "local" and "iCloud" in that order, and
    [listContents()] on that root returns ["local", "iCloud"].  On any
    directory of a well-formed heap [listContents()] returns the names of
    the subdirectories in stored order followed by the names of the files
    in stored order. *)
Theorem C7_basicFilesystem :
  (forall h,
      exists fs h' local_ iCloud,
        basicFilesystem h = Ok fs h'
        /\ nameOf h' (root fs) = Some "root"
        /\ subdirList h' (root fs) = Some [local_; iCloud]
        /\ nameOf h' local_ = Some "local"
        /\ nameOf h' iCloud = Some "iCloud"
        /\ fileList h' (root fs) = Some []
        /\ listContents (root fs) h' = Ok ["local"; "iCloud"] h')
  /\ (forall h this subs fs,
         wf h ->
         subdirList h this = Some subs ->
         fileList h this = Some fs ->
         exists dnames fnames,
           map (nameOf h) subs = map Some dnames
           /\ map (fileNameOf h) fs = map Some fnames
           /\ listContents this h = Ok (dnames ++ fnames) h).
Proof.
  split.
  - intros h.
    destruct (basicFilesystem_spec h) as (r & h' & l & i & Hrun & Hroot).
    exists {| root := r |}, h', l, i. simpl.
    destruct (flat_root_children _ _ _ _ Hroot)
      as (Hname & Hsubs & Hfiles & Hnames & _).
    injection Hnames as Hl Hi.
    repeat (split; [assumption|]).
    apply listContents_flat_root with (subs := [l; i]). exact Hroot.
  - intros h this subs fs Hwf Hsubs Hfs.
    unfold subdirList, fileList in *.
    destruct (dirObjs h !! this) as [d|] eqn:Hd; [|discriminate].
    exists (omap (nameOf h) subs), (omap (fileNameOf h) fs).
    split; [|split].
    + apply map_Some_omap.
      eapply Forall_impl; [exact (wf_dirArray _ _ _ Hwf Hsubs)|].
      intros r Hr. destruct (allocated_lookup _ _ Hr) as [o Ho].
      exists (Dir.name o). apply nameOf_lookup, Ho.
    + apply map_Some_omap.
      eapply Forall_impl; [exact (wf_fileArray _ _ _ Hwf Hfs)|].
      intros r Hr. destruct (allocated_lookup _ _ Hr) as [o Ho].
      exists (File.name o). unfold fileNameOf. rewrite Ho. reflexivity.
    + apply (listContents_spec h this d subs fs); assumption.
Qed.

(** ** directoriesFromPath *)

Lemma directoriesFromTokens_spec tokens h :
  tokens <> [] ->
  (clash ["local"; "iCloud"] tokens ->
   exists t h',
     t ∈ tokens
     /\ directoriesFromTokens tokens h
        = Throw (mkError (dir_exists_msg t)) h')
  /\ (~ clash ["local"; "iCloud"] tokens ->
      exists r h' subs,
        directoriesFromTokens tokens h = Ok r h'
        /\ flat_root h' r subs (["local"; "iCloud"] ++ tokens)).
Proof.
  intros Hne.
  destruct (basicFilesystem_spec h) as (r & h0 & l & i & Hrun & Hroot).
  assert (Hunfold : directoriesFromTokens tokens h
                    = (forOf tokens (addToken r) ;; ret r) h0).
  { unfold directoriesFromTokens.
    destruct tokens as [|t ts]; [congruence|]. cbn [length Nat.eqb].
    rewrite (bind_Ok _ _ _ _ _ Hrun). reflexivity. }
  rewrite Hunfold.
  destruct (tokens_loop r tokens h0 _ _ Hroot) as [Hclash Hfree].
  split; intros Hc.
  - destruct (Hclash Hc) as (t & h' & Ht & Hthrow).
    exists t, h'. split; [exact Ht|]. apply bind_Throw, Hthrow.
  - destruct (Hfree Hc) as (h' & subs' & Hok & Hroot').
    exists r, h', subs'. split; [|exact Hroot'].
    rewrite (bind_Ok _ _ _ _ _ Hok). reflexivity.
Qed.

Lemma dir_exists_msg_not_invalid t : dir_exists_msg t <> "Invalid path.".
Proof. unfold dir_exists_msg. simpl. discriminate. Qed.

Lemma no_clash_abc : ~ clash ["local"; "iCloud"] ["a"; "b"; "c"].
Proof.
  intros [(t & Ht & Hn)|Hdup].
  - repeat (apply elem_of_cons in Ht as [->|Ht];
            [repeat (apply elem_of_cons in Hn as [Hn|Hn];
                     [discriminate|]); inversion Hn|]).
    inversion Ht.
  - apply Hdup. apply (bool_decide_unpack _). vm_compute. exact I.
Qed.

(** C3: from any heap, [directoriesFromPath("a/b/c")] returns a new
    directory named "root" whose subdirectories are five directories named
    "local", "iCloud", "a", "b", "c" in that order, each without
    subdirectories or files of its own, and [listContents()] on the result
    returns these five names in that order. *)
Theorem C3_directoriesFromPath_abc h :
  exists r h' subs,
    directoriesFromPath "a/b/c" h = Ok r h'
    /\ nameOf h' r = Some "root"
    /\ subdirList h' r = Some subs
    /\ map (nameOf h') subs = map Some ["local"; "iCloud"; "a"; "b"; "c"]
    /\ Forall (fun c => subdirList h' c = Some [] /\ fileList h' c = Some [])
              subs
    /\ listContents r h' = Ok ["local"; "iCloud"; "a"; "b"; "c"] h'.
Proof.
  destruct (directoriesFromTokens_spec ["a"; "b"; "c"] h) as [_ Hfree];
    [discriminate|].
  destruct (Hfree no_clash_abc) as (r & h' & subs & Hrun & Hroot).
  exists r, h', subs.
  destruct (flat_root_children _ _ _ _ Hroot)
    as (Hname & Hsubs & _ & Hnames & Hleaves).
  split; [exact Hrun|].
  repeat (split; [assumption|]).
  apply listContents_flat_root with (subs := subs). exact Hroot.
Qed.

(** C8: the statements after the split throw the error "Invalid path."
    exactly when the token array is empty; the split of a string is never
    empty; hence no error thrown by [directoriesFromPath], on any string
    and heap, is an InvalidPathError. *)
Theorem C8_invalid_path_unreachable :
  (forall tokens h,
      (exists e h', directoriesFromTokens tokens h = Throw e h'
                    /\ InvalidPathError e)
      <-> tokens = [])
  /\ (forall path, split "/" path <> [])
  /\ (forall path h e h',
         directoriesFromPath path h = Throw e h' -> ~ InvalidPathError e).
Proof.
  assert (Hnonempty : forall tokens h e h',
             tokens <> [] ->
             directoriesFromTokens tokens h = Throw e h' ->
             ~ InvalidPathError e).
  { intros tokens h e h' Hne Hthrow Hinv.
    destruct (directoriesFromTokens_spec tokens h Hne) as [Hclash Hfree].
    destruct (clash_decide ["local"; "iCloud"] tokens) as [Hc|Hc].
    - destruct (Hclash Hc) as (t & h1 & _ & Ht).
      rewrite Ht in Hthrow. injection Hthrow as <- _.
      exact (dir_exists_msg_not_invalid t Hinv).
    - destruct (Hfree Hc) as (r & h1 & subs & Hok & _).
      rewrite Hok in Hthrow. discriminate. }
  split; [|split].
  - intros tokens h. split.
    + intros (e & h' & Hthrow & Hinv).
      destruct tokens as [|t ts]; [reflexivity|].
      exfalso. eapply Hnonempty; [|exact Hthrow|exact Hinv]. discriminate.
    + intros ->. exists (mkError "Invalid path."), h.
      split; reflexivity.
  - intros path. apply split_nonempty.
  - intros path h e h'. apply Hnonempty, split_nonempty.
Qed.

(** C9: when a segment of the path is "local" or "iCloud", or two of its
    segments are equal, [directoriesFromPath] throws, from any heap, the
    DuplicateEntryError of [addSubdirectory] for one of the segments, which
    is not an InvalidPathError. *)
Theorem C9_directoriesFromPath_duplicate path h :
  "local" ∈ split "/" path
  \/ "iCloud" ∈ split "/" path
  \/ ~ NoDup (split "/" path) ->
  exists e h',
    directoriesFromPath path h = Throw e h'
    /\ DuplicateEntryError e
    /\ ~ InvalidPathError e
    /\ exists t, t ∈ split "/" path /\ message e = dir_exists_msg t.
Proof.
  intros Hcond.
  assert (Hc : clash ["local"; "iCloud"] (split "/" path)).
  { destruct Hcond as [Hl|[Hi|Hdup]].
    - left. exists "local". split; [exact Hl|left].
    - left. exists "iCloud". split; [exact Hi|right; left].
    - right. exact Hdup. }
  destruct (directoriesFromTokens_spec (split "/" path) h
              (split_nonempty _ _)) as [Hclash _].
  destruct (Hclash Hc) as (t & h' & Ht & Hthrow).
  exists (mkError (dir_exists_msg t)), h'.
  split; [exact Hthrow|]. split; [|split].
  - exists t. right. reflexivity.
  - apply dir_exists_msg_not_invalid.
  - exists t. auto.
Qed.

(** ** Heaps that grow stay well formed *)

Lemma grows_refl h : grows h h.
Proof. unfold grows. auto. Qed.

Lemma grows_trans h1 h2 h3 : grows h1 h2 -> grows h2 h3 -> grows h1 h3.
Proof. unfold grows. intros (?&?&?&?) (?&?&?&?). repeat split; lia. Qed.

Lemma grows_fileObjs h h' r :
  grows h h' -> allocated (fileObjs h) r -> allocated (fileObjs h') r.
Proof. unfold grows, allocated. intros (?&?&?&?). lia. Qed.

Lemma grows_fileArrays h h' r :
  grows h h' -> allocated (fileArrays h) r -> allocated (fileArrays h') r.
Proof. unfold grows, allocated. intros (?&?&?&?). lia. Qed.

Lemma grows_dirArrays h h' r :
  grows h h' -> allocated (dirArrays h) r -> allocated (dirArrays h') r.
Proof. unfold grows, allocated. intros (?&?&?&?). lia. Qed.

Lemma grows_dirObjs h h' r :
  grows h h' -> allocated (dirObjs h) r -> allocated (dirObjs h') r.
Proof. unfold grows, allocated. intros (?&?&?&?). lia. Qed.

Lemma keyOf_extend h h' xs r :
  fileObjs h' = fileObjs h ++ xs ->
  allocated (fileObjs h) r -> keyOf h' r = keyOf h r.
Proof.
  intros E Hr. unfold keyOf. rewrite E, lookup_app_allocated by exact Hr.
  reflexivity.
Qed.

Lemma nameOf_extend h h' ds r :
  dirObjs h' = dirObjs h ++ ds ->
  allocated (dirObjs h) r -> nameOf h' r = nameOf h r.
Proof.
  intros E Hr. unfold nameOf. rewrite E, lookup_app_allocated by exact Hr.
  reflexivity.
Qed.

Lemma map_keyOf_extend h h' xs l :
  fileObjs h' = fileObjs h ++ xs ->
  Forall (allocated (fileObjs h)) l ->
  map (keyOf h') l = map (keyOf h) l.
Proof.
  intros E Hl. apply map_ext_Forall. eapply Forall_impl; [exact Hl|].
  intros r Hr. eapply keyOf_extend; eassumption.
Qed.

Lemma map_nameOf_extend h h' ds l :
  dirObjs h' = dirObjs h ++ ds ->
  Forall (allocated (dirObjs h)) l ->
  map (nameOf h') l = map (nameOf h) l.
Proof.
  intros E Hl. apply map_ext_Forall. eapply Forall_impl; [exact Hl|].
  intros r Hr. eapply nameOf_extend; eassumption.
Qed.

Lemma allocated_app {A} (s t : list A) r :
  allocated s r -> allocated (s ++ t) r.
Proof. unfold allocated. rewrite length_app. lia. Qed.

(** Allocation: a heap that extends the stores of a well-formed heap with
    objects whose references are allocated is well formed. *)
Lemma wf_extend h h' xs ys zs ds :
  wf h ->
  fileObjs h' = fileObjs h ++ xs ->
  fileArrays h' = fileArrays h ++ ys ->
  dirArrays h' = dirArrays h ++ zs ->
  dirObjs h' = dirObjs h ++ ds ->
  Forall (Forall (allocated (fileObjs h'))) ys ->
  Forall (Forall (allocated (dirObjs h'))) zs ->
  Forall (fun d => allocated (fileArrays h') (Dir.files d)
                   /\ allocated (dirArrays h') (Dir.subdirectories d)) ds ->
  wf h'.
Proof.
  intros (W1 & W2 & W3) Efo Efa Eda Edo Hys Hzs Hds.
  unfold wf. rewrite Efa, Eda. rewrite Edo at 2.
  split; [|split].
  - apply Forall_app. split; [|exact Hys].
    eapply Forall_impl; [exact W1|]. intros l Hl.
    eapply Forall_impl; [exact Hl|]. intros r Hr.
    rewrite Efo. apply allocated_app, Hr.
  - apply Forall_app. split; [|exact Hzs].
    eapply Forall_impl; [exact W2|]. intros l Hl.
    eapply Forall_impl; [exact Hl|]. intros r Hr.
    rewrite Edo. apply allocated_app, Hr.
  - apply Forall_app. split.
    + eapply Forall_impl; [exact W3|]. intros d [H1 H2].
      split; apply allocated_app; assumption.
    + rewrite <- Efa, <- Eda. exact Hds.
Qed.

(** A file object replaced by another. *)
Lemma wf_withFile h r f : wf h -> wf (withFile h r f).
Proof.
  intros (W1 & W2 & W3). unfold wf, withFile. simpl.
  split; [|auto].
  eapply Forall_impl; [exact W1|]. intros l Hl.
  eapply Forall_impl; [exact Hl|]. intros x Hx.
  unfold allocated. rewrite length_insert. exact Hx.
Qed.

Lemma grows_withFileArray h a l : grows h (withFileArray h a l).
Proof. unfold grows. simpl. rewrite length_insert. auto. Qed.

Lemma grows_withDirArray h a l : grows h (withDirArray h a l).
Proof. unfold grows. simpl. rewrite length_insert. auto. Qed.

Lemma grows_withFile h r f : grows h (withFile h r f).
Proof. unfold grows. simpl. rewrite length_insert. auto. Qed.

Lemma new_FakeDirectory_wf h name fs bs ds :
  wf h ->
  allocated_opt (fileArrays h) fs ->
  allocated_opt (dirArrays h) ds ->
  exists h',
    new_FakeDirectory name fs bs ds h = Ok (length (dirObjs h)) h'
    /\ grows h h' /\ wf h'.
Proof.
  intros Hwf Hfs Hds.
  assert (Hnew : forall {A} (s : list A) (x : A),
             allocated (s ++ [x]) (length s)).
  { intros A s x. unfold allocated. rewrite length_app. simpl. lia. }
  destruct fs as [fa|], ds as [sa|]; simpl in Hfs, Hds;
    eexists;
    (split;
     [cbv [new_FakeDirectory bind ret newDirArray newFileArray newDirObj];
      reflexivity|]);
    (split; [unfold grows; simpl; rewrite ?length_app; simpl; lia|]).
  - eapply (wf_extend h _ [] [] [[]] [_]);
      [exact Hwf|simpl; rewrite ?app_nil_r; reflexivity ..| | |];
      repeat constructor; simpl; [exact Hfs|apply allocated_app, Hds].
  - eapply (wf_extend h _ [] [] [[]; []] [_]);
      [exact Hwf
      |simpl; rewrite ?app_nil_r, <- ?app_assoc; reflexivity ..| | |];
      repeat constructor; simpl; [exact Hfs|apply Hnew].
  - eapply (wf_extend h _ [] [[]] [[]] [_]);
      [exact Hwf|simpl; rewrite ?app_nil_r; reflexivity ..| | |];
      repeat constructor; simpl; [apply Hnew|apply allocated_app, Hds].
  - eapply (wf_extend h _ [] [[]] [[]; []] [_]);
      [exact Hwf
      |simpl; rewrite ?app_nil_r, <- ?app_assoc; reflexivity ..| | |];
      repeat constructor; simpl; apply Hnew.
Qed.

(** ** Computations that keep an invariant of heaps

    What follows holds for any invariant [Inv] of heaps that implies
    well-formedness and that allocation, the update of a file object that
    keeps name and extension, and the two guarded pushes preserve;
    [ctor_ok] is what the invariant asks of a constructor call. *)

Section Keeps.
Variable Inv : heap -> Prop.
Variable ctor_ok : heap -> call -> Prop.

Hypothesis Inv_wf : forall h, Inv h -> wf h.

Hypothesis Inv_newFile :
  forall h f,
    Inv h ->
    Inv (Heap (fileObjs h ++ [f]) (fileArrays h) (dirArrays h) (dirObjs h)).

Hypothesis Inv_fileArrayLiteral :
  forall h l,
    Inv h -> Forall (allocated (fileObjs h)) l ->
    Inv (Heap (fileObjs h) (fileArrays h ++ [l]) (dirArrays h) (dirObjs h)).

Hypothesis Inv_dirArrayLiteral :
  forall h l,
    Inv h -> Forall (allocated (dirObjs h)) l ->
    Inv (Heap (fileObjs h) (fileArrays h) (dirArrays h ++ [l]) (dirObjs h)).

Hypothesis Inv_newDir :
  forall h name fs bs ds,
    Inv h ->
    allocated_opt (fileArrays h) fs ->
    allocated_opt (dirArrays h) ds ->
    ctor_ok h (NewFakeDirectory name fs bs ds) ->
    exists h',
      new_FakeDirectory name fs bs ds h = Ok (length (dirObjs h)) h'
      /\ grows h h' /\ Inv h'.

Hypothesis ctor_ok_no_arrays :
  forall h name bs, ctor_ok h (NewFakeDirectory name None bs None).

Hypothesis Inv_withFile :
  forall h r f f',
    Inv h -> fileObjs h !! r = Some f -> fileKey f' = fileKey f ->
    Inv (withFile h r f').

Hypothesis Inv_pushFile :
  forall h a fs file target,
    Inv h ->
    fileArrays h !! a = Some fs ->
    fileObjs h !! file = Some target ->
    Some (fileKey target) ∉ map (keyOf h) fs ->
    Inv (withFileArray h a (fs ++ [file])).

Hypothesis Inv_pushDir :
  forall h a ds dir target,
    Inv h ->
    dirArrays h !! a = Some ds ->
    dirObjs h !! dir = Some target ->
    Some (Dir.name target) ∉ map (nameOf h) ds ->
    Inv (withDirArray h a (ds ++ [dir])).

Lemma keeps_ret {A} h0 (a : A) (Q : A -> heap -> Prop) :
  (forall h, grows h0 h -> Q a h) -> keeps Inv h0 (ret a) Q.
Proof. intros HQ h Hg Hinv. simpl. auto using grows_refl. Qed.

Lemma keeps_throw {A} h0 e (Q : A -> heap -> Prop) :
  keeps Inv h0 (throw e) Q.
Proof. intros h Hg Hinv. simpl. auto using grows_refl. Qed.

Lemma keeps_bind {A B} h0 (m : M A) (k : A -> M B) Q R :
  keeps Inv h0 m Q ->
  (forall a h1, grows h0 h1 -> Q a h1 -> keeps Inv h1 (k a) R) ->
  keeps Inv h0 (bind m k) R.
Proof.
  intros Hm Hk h Hg Hinv. specialize (Hm h Hg Hinv). unfold bind.
  destruct (m h) as [a h1|e h1|]; [|exact Hm|exact Hm].
  destruct Hm as (Hg1 & Hinv1 & HQ).
  specialize (Hk a h1 (grows_trans _ _ _ Hg Hg1) HQ h1 (grows_refl _) Hinv1).
  destruct (k a h1) as [b h2|e h2|]; [|..].
  - destruct Hk as (Hg2 & Hinv2 & HR).
    eauto using grows_trans.
  - destruct Hk as (Hg2 & Hinv2). eauto using grows_trans.
  - exact Hk.
Qed.

Lemma keeps_forOf {A} h0 (l : list A) (body : A -> M unit) :
  (forall x, x ∈ l -> keeps Inv h0 (body x) (fun _ _ => True)) ->
  keeps Inv h0 (forOf l body) (fun _ _ => True).
Proof.
  induction l as [|x l IH]; intros Hbody; simpl.
  - apply keeps_ret. auto.
  - eapply keeps_bind.
    + apply Hbody. left.
    + intros _ h1 Hg1 _ h Hg Hinv.
      apply IH; [|eapply grows_trans; eassumption|exact Hinv].
      intros y Hy. apply Hbody. right. exact Hy.
Qed.

Lemma addFile_keeps h0 this file :
  allocated (dirObjs h0) this -> allocated (fileObjs h0) file ->
  keeps Inv h0 (addFile this file) (fun _ _ => True).
Proof.
  intros Hthis Hfile h Hg Hinv. pose proof (Inv_wf _ Hinv) as Hwf.
  destruct (allocated_lookup _ _ (grows_dirObjs _ _ _ Hg Hthis)) as [d Hd].
  destruct (allocated_lookup _ _ (grows_fileObjs _ _ _ Hg Hfile))
    as [target Htarget].
  destruct (wf_dir _ _ _ Hwf Hd) as [Hfa _].
  destruct (allocated_lookup _ _ Hfa) as [fs Hfs].
  rewrite (addFile_spec h this file d fs target Hwf Hd Hfs Htarget).
  destruct (decide _) as [Hin|Hnin].
  - auto using grows_refl.
  - split; [apply grows_withFileArray|]. split; [|exact I].
    eapply Inv_pushFile; eassumption.
Qed.

Lemma addFiles_keeps h0 this files :
  allocated (dirObjs h0) this -> allocated (fileArrays h0) files ->
  keeps Inv h0 (addFiles this files) (fun _ _ => True).
Proof.
  intros Hthis Hfiles h Hg Hinv. pose proof (Inv_wf _ Hinv) as Hwf.
  destruct (allocated_lookup _ _ (grows_fileArrays _ _ _ Hg Hfiles))
    as [fs Hfs].
  unfold addFiles. erewrite bind_Ok by (apply read_Ok; exact Hfs).
  apply (keeps_forOf h); [|apply grows_refl|exact Hinv].
  intros f Hf. apply addFile_keeps.
  - eapply grows_dirObjs; eassumption.
  - pose proof (wf_fileArray _ _ _ Hwf Hfs) as Hall.
    rewrite Forall_forall in Hall. apply Hall, Hf.
Qed.

Lemma addSubdirectory_keeps h0 this dir :
  allocated (dirObjs h0) this -> allocated (dirObjs h0) dir ->
  keeps Inv h0 (addSubdirectory this dir) (fun r _ => r = dir).
Proof.
  intros Hthis Hdir h Hg Hinv. pose proof (Inv_wf _ Hinv) as Hwf.
  destruct (allocated_lookup _ _ (grows_dirObjs _ _ _ Hg Hthis)) as [t Ht].
  destruct (allocated_lookup _ _ (grows_dirObjs _ _ _ Hg Hdir))
    as [target Htarget].
  destruct (wf_dir _ _ _ Hwf Ht) as [_ Hsa].
  destruct (allocated_lookup _ _ Hsa) as [subs Hsubs].
  pose proof (wf_dirArray _ _ _ Hwf Hsubs) as Hall.
  destruct (decide (Some (Dir.name target) ∈ map (nameOf h) subs))
    as [Hin|Hnin].
  - rewrite (addSubdirectory_throws h this dir t target subs) by assumption.
    auto using grows_refl.
  - rewrite (addSubdirectory_pushes h this dir t target subs) by assumption.
    split; [apply grows_withDirArray|]. split; [|reflexivity].
    eapply Inv_pushDir; eassumption.
Qed.

Lemma addSubdirectories_keeps h0 this dirs :
  allocated (dirObjs h0) this -> allocated (dirArrays h0) dirs ->
  keeps Inv h0 (addSubdirectories this dirs) (fun _ _ => True).
Proof.
  intros Hthis Hdirs h Hg Hinv. pose proof (Inv_wf _ Hinv) as Hwf.
  destruct (allocated_lookup _ _ (grows_dirArrays _ _ _ Hg Hdirs))
    as [ds Hds].
  unfold addSubdirectories. erewrite bind_Ok by (apply read_Ok; exact Hds).
  apply (keeps_forOf h); [|apply grows_refl|exact Hinv].
  intros x Hx. eapply keeps_bind.
  - apply addSubdirectory_keeps.
    + eapply grows_dirObjs; eassumption.
    + pose proof (wf_dirArray _ _ _ Hwf Hds) as Hall.
      rewrite Forall_forall in Hall. apply Hall, Hx.
  - intros. apply keeps_ret. auto.
Qed.

Lemma listContents_keeps h0 this :
  allocated (dirObjs h0) this ->
  keeps Inv h0 (listContents this) (fun _ _ => True).
Proof.
  intros Hthis h Hg Hinv. pose proof (Inv_wf _ Hinv) as Hwf.
  destruct (allocated_lookup _ _ (grows_dirObjs _ _ _ Hg Hthis)) as [d Hd].
  destruct (wf_dir _ _ _ Hwf Hd) as [Hfa Hsa].
  destruct (allocated_lookup _ _ Hfa) as [fs Hfs].
  destruct (allocated_lookup _ _ Hsa) as [subs Hsubs].
  rewrite (listContents_spec h this d subs fs) by assumption.
  auto using grows_refl.
Qed.

Lemma new_FakeDirectory_keeps h0 name :
  keeps Inv h0 (new_FakeDirectory name None None None)
        (fun r h => allocated (dirObjs h) r).
Proof.
  intros h Hg Hinv.
  destruct (Inv_newDir h name None None None Hinv I I
              (ctor_ok_no_arrays h name None))
    as (h' & Hrun & Hg' & Hinv').
  rewrite Hrun. split; [exact Hg'|]. split; [exact Hinv'|].
  rewrite new_FakeDirectory_fresh in Hrun. injection Hrun as <-.
  unfold allocated. simpl. rewrite length_app. simpl. lia.
Qed.

Lemma addToken_keeps h0 r token :
  allocated (dirObjs h0) r ->
  keeps Inv h0 (addToken r token) (fun _ _ => True).
Proof.
  intros Hr. unfold addToken. eapply keeps_bind.
  - apply new_FakeDirectory_keeps.
  - intros d h1 Hg1 Hd. eapply keeps_bind.
    + apply addSubdirectory_keeps; [|exact Hd].
      eapply grows_dirObjs; eassumption.
    + intros. apply keeps_ret. auto.
Qed.

Lemma basicFilesystem_keeps h0 :
  keeps Inv h0 basicFilesystem (fun fs h => allocated (dirObjs h) (root fs)).
Proof.
  intros h Hg Hinv. rewrite basicFilesystem_unfold.
  revert h Hg Hinv. change (keeps Inv h0
    (r <- new_FakeDirectory "root" None None None ;;
     addToken r "local" ;; addToken r "iCloud" ;; ret {| root := r |})
    (fun fs h => allocated (dirObjs h) (root fs))).
  eapply keeps_bind; [apply new_FakeDirectory_keeps|].
  intros r h1 Hg1 Hr.
  eapply keeps_bind; [apply addToken_keeps, Hr|].
  intros _ h2 Hg2 _.
  eapply keeps_bind.
  { apply addToken_keeps. eapply grows_dirObjs; eassumption. }
  intros _ h3 Hg3 _. apply keeps_ret. intros h4 Hg4. simpl.
  eapply grows_dirObjs; [|exact Hr].
  eauto using grows_trans.
Qed.

Lemma directoriesFromTokens_keeps h0 tokens :
  keeps Inv h0 (directoriesFromTokens tokens)
        (fun r h => allocated (dirObjs h) r).
Proof.
  unfold directoriesFromTokens.
  destruct (length tokens =? 0)%nat; [apply keeps_throw|].
  eapply keeps_bind; [apply basicFilesystem_keeps|].
  intros fs h1 Hg1 Hr. cbv zeta.
  eapply keeps_bind.
  - apply keeps_forOf. intros t _. apply (addToken_keeps h1 (root fs) t Hr).
  - intros _ h2 Hg2 _. apply keeps_ret. intros h3 Hg3.
    eapply grows_dirObjs; [|exact Hr]. eauto using grows_trans.
Qed.

(** The methods of [FakeFile] on an allocated file. *)
Lemma file_update_keeps h0 this (g : FakeFile -> FakeFile) :
  (forall f, fileKey (g f) = fileKey f) ->
  allocated (fileObjs h0) this ->
  keeps Inv h0 (f <- getFile this ;; setFile this (g f)) (fun _ _ => True).
Proof.
  intros Hkey Hthis h Hg Hinv.
  destruct (allocated_lookup _ _ (grows_fileObjs _ _ _ Hg Hthis)) as [f Hf].
  erewrite bind_Ok by (apply read_Ok; exact Hf). simpl.
  split; [apply grows_withFile|]. split; [|exact I].
  eapply Inv_withFile; [exact Hinv|exact Hf|apply Hkey].
Qed.

Lemma file_read_keeps {A} h0 this (g : FakeFile -> A) :
  allocated (fileObjs h0) this ->
  keeps Inv h0 (f <- getFile this ;; ret (g f)) (fun _ _ => True).
Proof.
  intros Hthis h Hg Hinv.
  destruct (allocated_lookup _ _ (grows_fileObjs _ _ _ Hg Hthis)) as [f Hf].
  erewrite bind_Ok by (apply read_Ok; exact Hf). simpl.
  auto using grows_refl.
Qed.

Lemma addTag_keeps h0 this tag :
  allocated (fileObjs h0) this ->
  keeps Inv h0 (addTag this tag) (fun _ _ => True).
Proof.
  intros Hthis h Hg Hinv.
  destruct (allocated_lookup _ _ (grows_fileObjs _ _ _ Hg Hthis)) as [f Hf].
  rewrite (addTag_spec h this f tag Hf).
  destruct (includes tag (File.tags f)); [auto using grows_refl|].
  split; [apply grows_withFile|]. split; [|exact I].
  eapply Inv_withFile; [exact Hinv|exact Hf|reflexivity].
Qed.

Lemma removeTag_keeps h0 this tag :
  allocated (fileObjs h0) this ->
  keeps Inv h0 (removeTag this tag) (fun _ _ => True).
Proof.
  intros Hthis h Hg Hinv.
  destruct (allocated_lookup _ _ (grows_fileObjs _ _ _ Hg Hthis)) as [f Hf].
  unfold removeTag. erewrite bind_Ok by (apply read_Ok; exact Hf).
  destruct (includes tag (File.tags f)); simpl; [|auto using grows_refl].
  split; [apply grows_withFile|]. split; [|exact I].
  eapply Inv_withFile; [exact Hinv|exact Hf|reflexivity].
Qed.

Lemma readExtendedAttribute_keeps h0 this name :
  allocated (fileObjs h0) this ->
  keeps Inv h0 (readExtendedAttribute this name) (fun _ _ => True).
Proof.
  intros Hthis h Hg Hinv.
  destruct (allocated_lookup _ _ (grows_fileObjs _ _ _ Hg Hthis)) as [f Hf].
  unfold readExtendedAttribute.
  erewrite bind_Ok by (apply read_Ok; exact Hf). cbv zeta.
  destruct (Map_get name (File.extattrs f)) as [a|];
    [destruct (truthy a)|]; simpl; auto using grows_refl.
Qed.

(** A computation that keeps the invariant neither goes wrong nor leaves
    a heap without the invariant. *)
Lemma keeps_exec {A} h (m : M A) Q :
  keeps Inv h m Q -> Inv h -> ~ is_wrong (m h) /\ Inv (heap_after h (m h)).
Proof.
  intros K Hinv. specialize (K h (grows_refl h) Hinv).
  destruct (m h); simpl; tauto.
Qed.

(** Every typed call that satisfies [ctor_ok] keeps the invariant and does
    not go wrong. *)
Lemma call_keeps h c :
  Inv h -> typed h c -> ctor_ok h c ->
  ~ goes_wrong c h /\ Inv (exec c h).
Proof.
  intros Hinv Htyped Hctor.
  destruct c; simpl in *.
  - split; [tauto|]. apply Inv_newFile, Hinv.
  - split; [tauto|]. apply Inv_fileArrayLiteral; assumption.
  - split; [tauto|]. apply Inv_dirArrayLiteral; assumption.
  - destruct Htyped as [Hfs Hds].
    destruct (Inv_newDir h name files bookmarks subdirectories
                Hinv Hfs Hds Hctor) as (h' & -> & _ & Hinv').
    simpl. tauto.
  - eapply keeps_exec; [apply addTag_keeps|]; eassumption.
  - eapply keeps_exec; [apply removeTag_keeps|]; eassumption.
  - eapply keeps_exec; [apply (file_read_keeps h this File.tags)|];
      eassumption.
  - eapply keeps_exec; [apply readExtendedAttribute_keeps|]; eassumption.
  - eapply keeps_exec;
      [apply (file_read_keeps h this
                (fun f => Map_keys (File.extattrs f)))|];
      eassumption.
  - eapply keeps_exec; [|exact Hinv].
    apply (file_update_keeps h this
             (fun f => File.Build (File.name f) (File.extension f)
                         (File.tags f)
                         (Map_set name value (File.extattrs f))
                         (File.uti f) (File.bookmarks f)));
      auto.
  - eapply keeps_exec; [apply (file_read_keeps h this File.uti)|];
      eassumption.
  - eapply keeps_exec; [apply addFile_keeps|]; tauto.
  - eapply keeps_exec; [apply addFiles_keeps|]; tauto.
  - eapply keeps_exec; [apply addSubdirectory_keeps|]; tauto.
  - eapply keeps_exec; [apply addSubdirectories_keeps|]; tauto.
  - eapply keeps_exec; [apply listContents_keeps|]; eassumption.
  - eapply keeps_exec; [apply basicFilesystem_keeps|]; eassumption.
  - eapply keeps_exec; [apply directoriesFromTokens_keeps|]; eassumption.
Qed.

Lemma exec_keeps h c :
  Inv h -> typed h c -> ctor_ok h c -> Inv (exec c h).
Proof. intros. apply call_keeps; assumption. Qed.

Lemma reachable_keeps h :
  Inv empty_heap -> reachable ctor_ok h -> Inv h.
Proof.
  intros Hempty. induction 1 as [|h c _ IH Htyped Hctor]; [exact Hempty|].
  apply exec_keeps; assumption.
Qed.
End Keeps.

(** ** Client runs keep the heap well formed *)

Lemma wf_empty : wf empty_heap.
Proof. repeat split; constructor. Qed.

(** Any typed call on a well-formed heap, whatever arrays it hands to the
    constructor, leaves a well-formed heap and reads no reference without
    object. *)
Lemma call_wf h c :
  wf h -> typed h c -> ~ goes_wrong c h /\ wf (exec c h).
Proof.
  intros Hwf Htyped.
  apply (call_keeps wf any_call); try assumption; try exact I.
  - auto.
  - intros h0 f Hwf0.
    eapply (wf_extend h0 _ [f] [] [] []);
      [exact Hwf0|simpl; rewrite ?app_nil_r; reflexivity ..| | |];
      constructor.
  - intros h0 l Hwf0 Hl.
    eapply (wf_extend h0 _ [] [l] [] []);
      [exact Hwf0|simpl; rewrite ?app_nil_r; reflexivity ..| | |];
      repeat constructor. exact Hl.
  - intros h0 l Hwf0 Hl.
    eapply (wf_extend h0 _ [] [] [l] []);
      [exact Hwf0|simpl; rewrite ?app_nil_r; reflexivity ..| | |];
      repeat constructor. exact Hl.
  - intros h0 name fs bs ds Hwf0 Hfs Hds _.
    apply new_FakeDirectory_wf; assumption.
  - intros; exact I.
  - intros h0 r f f' Hwf0 Hr _. eapply wf_withFile; eassumption.
  - intros h0 a fs file target Hwf0 Ha Hfile _.
    apply wf_withFileArray; [exact Hwf0|exact Ha|].
    eapply lookup_allocated, Hfile.
  - intros h0 a ds dir target Hwf0 Ha Hdir _.
    apply wf_withDirArray; [exact Hwf0|exact Ha|].
    eapply lookup_allocated, Hdir.
Qed.

(** Every heap a client reaches with typed calls is well formed. *)
Lemma reachable_wf h : reachable any_call h -> wf h.
Proof.
  induction 1 as [|h c _ IH Htyped _]; [exact wf_empty|].
  apply call_wf; assumption.
Qed.

(** C2: the code breaks the invariant.  The constructor stores the array
    it is given without the check that [addFile] and [addFiles] make on
    every file: a directory constructed on an array of two files "a.txt"
    has two child files with the same name and extension, where
    [addFiles] of that same array on a directory constructed without
    arrays throws at the second file and keeps only the first. *)
Theorem C2_constructor_keeps_duplicates :
  reachable any_call duplicate_files_heap
  /\ fileList duplicate_files_heap 0 = Some [0; 1]
  /\ keyOf duplicate_files_heap 0 = Some ("a", "txt")
  /\ keyOf duplicate_files_heap 1 = Some ("a", "txt")
  /\ ~ unique_children duplicate_files_heap
  /\ exists h',
       (e <- new_FakeDirectory "e" None None None ;; addFiles e 0)
         duplicate_files_heap
       = Throw (mkError "A file with the name 'a' already exists.") h'
       /\ fileList h' 1 = Some [0].
Proof.
  split; [|repeat (split; [reflexivity|]); split].
  - unfold duplicate_files_heap.
    repeat (apply reachable_call;
            [|vm_compute; repeat constructor|exact I]).
    apply reachable_empty.
  - intros H. apply Forall_inv in H. destruct H as [Hf _].
    unfold files_unique in Hf. simpl in Hf.
    apply NoDup_cons in Hf as [Hnotin _]. apply Hnotin. left.
  - eexists. split; vm_compute; reflexivity.
Qed.

(** ** The theorems at concrete inputs *)

Lemma wf_collision_heap : wf collision_heap.
Proof. unfold wf. simpl. repeat constructor. Qed.

(** C4 as stated fails: on a directory that holds "b.txt", [addFile] of
    "a.txt" succeeds, and [addFile] of a second "b.txt", whose name differs
    from that of "a.txt", throws instead of appending. *)
Lemma C4_other_file_collides :
  wf collision_heap
  /\ fileList collision_heap 0 = Some [0]
  /\ keyOf collision_heap 1 = Some ("a", "txt")
  /\ keyOf collision_heap 2 = Some ("b", "txt")
  /\ exists h1,
       addFile 0 1 collision_heap = Ok tt h1
       /\ fileList h1 0 = Some [0; 1]
       /\ addFile 0 2 h1
          = Throw (mkError "A file with the name 'b' already exists.") h1
       /\ ~ (exists h2, addFile 0 2 h1 = Ok tt h2
                        /\ fileList h2 0 = Some [0; 1; 2]).
Proof.
  split; [exact wf_collision_heap|].
  repeat (split; [reflexivity|]).
  exists (heap_after collision_heap (addFile 0 1 collision_heap)).
  repeat (split; [vm_compute; reflexivity|]).
  intros (h2 & Hok & _). vm_compute in Hok. discriminate.
Qed.

Lemma wf_two_files_heap : wf two_files_heap.
Proof. unfold wf. simpl. repeat constructor. Qed.

Lemma C7_basicFilesystem_witness :
  (wf two_files_heap
   /\ subdirList two_files_heap 0 = Some [2]
   /\ fileList two_files_heap 0 = Some [0; 1])
  /\ exists dnames fnames,
       map (nameOf two_files_heap) [2] = map Some dnames
       /\ map (fileNameOf two_files_heap) [0; 1] = map Some fnames
       /\ listContents 0 two_files_heap = Ok (dnames ++ fnames) two_files_heap.
Proof.
  split.
  { split; [exact wf_two_files_heap|]. split; reflexivity. }
  apply (proj2 C7_basicFilesystem two_files_heap 0 [2] [0; 1]
           wf_two_files_heap eq_refl eq_refl).
Defined.

Lemma C4_addFile_after_addFile_witness :
  (wf collision_heap
   /\ dirObjs collision_heap !! 0 = Some (Dir.Build [] 0 1 "d")
   /\ fileArrays collision_heap !! 0 = Some [0]
   /\ fileObjs collision_heap !! 1
      = Some (File.Build "a" "txt" [] [] EmptyString [])
   /\ fileObjs collision_heap !! 2
      = Some (File.Build "b" "txt" [] [] EmptyString [])
   /\ addFile 0 1 collision_heap
      = Ok tt (withFileArray collision_heap 0 [0; 1]))
  /\ fileList (withFileArray collision_heap 0 [0; 1]) 0 = Some [0; 1]
  /\ exists e,
       addFile 0 2 (withFileArray collision_heap 0 [0; 1])
       = Throw e (withFileArray collision_heap 0 [0; 1])
       /\ DuplicateEntryError e
       /\ identifies (message e) "b".
Proof.
  assert (Hadd : addFile 0 1 collision_heap
                 = Ok tt (withFileArray collision_heap 0 [0; 1])).
  { vm_compute. reflexivity. }
  split.
  { split; [exact wf_collision_heap|].
    repeat (split; [reflexivity|]). exact Hadd. }
  destruct (C4_addFile_after_addFile collision_heap 0 (Dir.Build [] 0 1 "d")
              [0] 1 2 (File.Build "a" "txt" [] [] EmptyString [])
              (File.Build "b" "txt" [] [] EmptyString [])
              (withFileArray collision_heap 0 [0; 1])
              wf_collision_heap eq_refl eq_refl eq_refl eq_refl Hadd)
    as (Hlist & Hfail & _).
  split; [exact Hlist|].
  apply Hfail. right. simpl. left.
Defined.

Lemma C5_addSubdirectory_witness :
  (wf two_files_heap
   /\ dirObjs two_files_heap !! 0 = Some (Dir.Build [] 0 1 "d")
   /\ dirArrays two_files_heap !! 1 = Some [2]
   /\ dirObjs two_files_heap !! 1 = Some (Dir.Build [] 1 3 "x")
   /\ dirObjs two_files_heap !! 2 = Some (Dir.Build [] 2 4 "sub")
   /\ map (nameOf two_files_heap) [2] = [Some "sub"])
  /\ (exists h',
        addSubdirectory 0 1 two_files_heap = Ok 1 h'
        /\ h' = withDirArray two_files_heap 1 [2; 1]
        /\ subdirList h' 0 = Some [2; 1]
        /\ [2; 1] !! 1 = Some 1)
  /\ (exists e,
        addSubdirectory 0 2 two_files_heap = Throw e two_files_heap
        /\ DuplicateEntryError e
        /\ identifies (message e) "sub").
Proof.
  split.
  { split; [exact wf_two_files_heap|]. repeat split; reflexivity. }
  split.
  - apply (C5_addSubdirectory two_files_heap 0 1 (Dir.Build [] 0 1 "d")
             (Dir.Build [] 1 3 "x") [2]
             wf_two_files_heap eq_refl eq_refl eq_refl).
    simpl. intros Hin. apply list_elem_of_singleton in Hin. discriminate.
  - apply (C5_addSubdirectory two_files_heap 0 2 (Dir.Build [] 0 1 "d")
             (Dir.Build [] 2 4 "sub") [2]
             wf_two_files_heap eq_refl eq_refl eq_refl).
    simpl. left.
Defined.

Lemma wf_batch_heap : wf batch_heap.
Proof. unfold wf. simpl. repeat constructor. Qed.

Lemma C6_addFiles_witness :
  (wf batch_heap
   /\ dirObjs batch_heap !! 0 = Some (Dir.Build [] 0 1 "d")
   /\ fileArrays batch_heap !! 0 = Some []
   /\ fileArrays batch_heap !! 1 = Some [0; 1; 2; 3]
   /\ map (keyOf batch_heap) [0; 1; 2; 3]
      = [Some ("a", "txt"); Some ("b", "txt");
         Some ("a", "txt"); Some ("c", "txt")])
  /\ exists h',
       addFiles 0 1 batch_heap
       = Throw (mkError "A file with the name 'a' already exists.") h'
       /\ h' = withFileArray batch_heap 0 [0; 1]
       /\ fileList h' 0 = Some [0; 1].
Proof.
  split.
  { split; [exact wf_batch_heap|]. repeat split; reflexivity. }
  destruct (C6_addFiles batch_heap 0 (Dir.Build [] 0 1 "d") 1 [0; 1; 2; 3] []
              wf_batch_heap eq_refl eq_refl eq_refl) as [Hstop _].
  apply (Hstop [0; 1] 2 [3] (File.Build "a" "txt" [] [] EmptyString [])).
  - reflexivity.
  - reflexivity.
  - apply (bool_decide_unpack _). vm_compute. exact I.
  - intros k _. simpl. apply not_elem_of_nil.
  - simpl. left.
Defined.

Lemma C8_invalid_path_unreachable_witness :
  directoriesFromPath "a/local" empty_heap
  = Throw (mkError "A directory with the name 'local' already exists.")
          (heap_after empty_heap (directoriesFromPath "a/local" empty_heap))
  /\ ~ InvalidPathError
         (mkError "A directory with the name 'local' already exists.").
Proof.
  assert (Hthrow : directoriesFromPath "a/local" empty_heap
    = Throw (mkError "A directory with the name 'local' already exists.")
        (heap_after empty_heap (directoriesFromPath "a/local" empty_heap))).
  { vm_compute. reflexivity. }
  split; [exact Hthrow|].
  exact (proj2 (proj2 C8_invalid_path_unreachable) _ _ _ _ Hthrow).
Defined.

Lemma C9_directoriesFromPath_duplicate_witness :
  "local" ∈ split "/" "a/local"
  /\ exists e h',
       directoriesFromPath "a/local" empty_heap = Throw e h'
       /\ DuplicateEntryError e
       /\ ~ InvalidPathError e
       /\ exists t, t ∈ split "/" "a/local" /\ message e = dir_exists_msg t.
Proof.
  assert (Hin : "local" ∈ split "/" "a/local").
  { simpl. right. left. }
  split; [exact Hin|].
  apply (C9_directoriesFromPath_duplicate "a/local" empty_heap).
  left. exact Hin.
Defined.

Lemma C1_read_after_write_witness :
  fileObjs (exec (NewFakeFile "a" "txt") empty_heap) !! 0
  = Some (File.Build "a" "txt" [] [] EmptyString [])
  /\ exists h1 keys,
       writeExtendedAttribute 0 EmptyString "k"
         (exec (NewFakeFile "a" "txt") empty_heap) = Ok tt h1
       /\ readExtendedAttribute 0 "k" h1 = Ok None h1
       /\ allExtendedAttributes 0 h1 = Ok keys h1
       /\ In "k" keys.
Proof.
  split; [reflexivity|].
  apply (C1_read_after_write (exec (NewFakeFile "a" "txt") empty_heap) 0
           (File.Build "a" "txt" [] [] EmptyString []) EmptyString "k").
  reflexivity.
Defined.

Lemma C10_addTag_idempotent_witness :
  fileObjs (exec (NewFakeFile "a" "txt") empty_heap) !! 0
  = Some (File.Build "a" "txt" [] [] EmptyString [])
  /\ exists h1 ts,
       addTag 0 "red" (exec (NewFakeFile "a" "txt") empty_heap) = Ok tt h1
       /\ addTag 0 "red" h1 = Ok tt h1
       /\ allTags 0 h1 = Ok ts h1
       /\ (x <- (addTag 0 "red" ;; addTag 0 "red") ;; allTags 0)
            (exec (NewFakeFile "a" "txt") empty_heap) = Ok ts h1
       /\ In "red" ts.
Proof.
  split; [reflexivity|].
  apply (C10_addTag_idempotent (exec (NewFakeFile "a" "txt") empty_heap) 0
           (File.Build "a" "txt" [] [] EmptyString []) "red").
  reflexivity.
Defined.

(** * Properties beyond the claims *)

(** ** FakeFile: removing tags *)

Lemma withFile_same h r f : fileObjs h !! r = Some f -> withFile h r f = h.
Proof.
  intros Hr. unfold withFile. rewrite list_insert_id by exact Hr.
  destruct h; reflexivity.
Qed.

Lemma withFile_twice h r f f' :
  withFile (withFile h r f) r f' = withFile h r f'.
Proof. unfold withFile. simpl. rewrite list_insert_insert_eq. reflexivity. Qed.

Lemma withTags_same f : withTags f (File.tags f) = f.
Proof. destruct f; reflexivity. Qed.

Lemma includes_false x l : includes x l = false <-> x ∉ l.
Proof.
  rewrite <- not_true_iff_false, includes_In, list_elem_of_In. reflexivity.
Qed.

Lemma indexOf_first {A} `{EqDecision A} (x : A) pre post :
  x ∉ pre -> indexOf x (pre ++ x :: post) = Some (length pre).
Proof.
  induction pre as [|y pre IH]; simpl; intros Hnin.
  - destruct (decide (x = x)); [reflexivity|congruence].
  - apply not_elem_of_cons in Hnin as [Hne Hnin].
    destruct (decide (y = x)); [congruence|].
    rewrite (IH Hnin). reflexivity.
Qed.

Lemma splice1_first {A} (pre post : list A) x :
  splice1 (Some (length pre)) (pre ++ x :: post) = pre ++ post.
Proof.
  unfold splice1. rewrite take_app_length, drop_app_ge by lia.
  replace (S (length pre) - length pre) with 1 by lia. reflexivity.
Qed.

(** X1: [removeTag(t)] drops the first occurrence of [t] from the tags and
    keeps the others in their order; when [t] is not a tag it changes
    nothing.  Neither case throws. *)
Theorem X1_removeTag h this f t :
  fileObjs h !! this = Some f ->
  (forall pre post,
      File.tags f = pre ++ t :: post -> t ∉ pre ->
      removeTag this t h = Ok tt (withFile h this (withTags f (pre ++ post))))
  /\ (t ∉ File.tags f -> removeTag this t h = Ok tt h).
Proof.
  intros Hf. split.
  - intros pre post Htags Hpre. unfold removeTag.
    erewrite bind_Ok by (apply read_Ok; exact Hf).
    assert (Hinc : includes t (File.tags f) = true).
    { apply includes_In. rewrite Htags. apply in_or_app. right. left.
      reflexivity. }
    rewrite Hinc, Htags, (indexOf_first t pre post Hpre), splice1_first.
    reflexivity.
  - intros Hnin. unfold removeTag.
    erewrite bind_Ok by (apply read_Ok; exact Hf).
    apply includes_false in Hnin. rewrite Hnin. reflexivity.
Qed.

(** X2: on a file that does not have the tag [t], [addTag(t)] followed by
    [removeTag(t)] leaves the heap exactly as it was. *)
Theorem X2_addTag_removeTag h this f t :
  fileObjs h !! this = Some f ->
  t ∉ File.tags f ->
  (addTag this t ;; removeTag this t) h = Ok tt h.
Proof.
  intros Hf Hnin. pose proof (lookup_lt_Some _ _ _ Hf) as Hlt.
  erewrite bind_Ok.
  2:{ rewrite (addTag_spec h this f t Hf).
      apply includes_false in Hnin. rewrite Hnin. reflexivity. }
  set (f1 := File.Build _ _ _ _ _ _).
  assert (Hf1 : fileObjs (withFile h this f1) !! this = Some f1).
  { simpl. apply list_lookup_insert_eq. exact Hlt. }
  unfold removeTag. erewrite bind_Ok by (apply read_Ok; exact Hf1).
  subst f1.
  cbn [File.tags File.name File.extension File.extattrs File.uti
       File.bookmarks].
  rewrite includes_snoc, (indexOf_first t (File.tags f) [] Hnin).
  rewrite splice1_first, app_nil_r. unfold setFile.
  rewrite withFile_twice.
  fold (withTags f (File.tags f)). rewrite withTags_same.
  rewrite withFile_same by exact Hf. reflexivity.
Qed.

(** ** FakeFile: extended attributes *)

Lemma Map_get_None k m : Map_get k m = None <-> k ∉ Map_keys m.
Proof.
  unfold Map_keys. induction m as [|[k' v] m IH]; simpl.
  - split; [intros _; apply not_elem_of_nil|reflexivity].
  - rewrite not_elem_of_cons.
    destruct (String.eqb_spec k' k) as [->|Hne].
    + split; [discriminate|intros [H _]; congruence].
    + rewrite IH. split; [intros H; split; [congruence|exact H]|tauto].
Qed.

Lemma Map_keys_set k v m :
  Map_keys (Map_set k v m)
  = if decide (k ∈ Map_keys m) then Map_keys m else Map_keys m ++ [k].
Proof.
  unfold Map_keys. induction m as [|[k' v'] m IH]; cbn [Map_set map fst].
  - destruct (decide (k ∈ [])) as [Hin|_]; [inversion Hin|reflexivity].
  - destruct (String.eqb_spec k' k) as [->|Hne]; cbn [map fst].
    + destruct (decide (k ∈ k :: map fst m)) as [_|Hnin]; [reflexivity|].
      exfalso. apply Hnin. left.
    + rewrite IH.
      destruct (decide (k ∈ map fst m)) as [Hin|Hnin];
        destruct (decide (k ∈ k' :: map fst m)) as [Hin'|Hnin'];
        try reflexivity.
      * exfalso. apply Hnin'. right. exact Hin.
      * apply elem_of_cons in Hin' as [->|Hin']; [congruence|contradiction].
Qed.

Lemma Map_set_set k v1 v2 m : Map_set k v2 (Map_set k v1 m) = Map_set k v2 m.
Proof.
  induction m as [|[k' v'] m IH]; simpl.
  - rewrite String.eqb_refl. reflexivity.
  - destruct (String.eqb k' k) eqn:E; simpl.
    + rewrite String.eqb_refl. reflexivity.
    + rewrite E, IH. reflexivity.
Qed.

Lemma allExtendedAttributes_spec h this f :
  fileObjs h !! this = Some f ->
  allExtendedAttributes this h = Ok (Map_keys (File.extattrs f)) h.
Proof.
  intros Hf. unfold allExtendedAttributes.
  erewrite bind_Ok by (apply read_Ok; exact Hf). reflexivity.
Qed.

Lemma readExtendedAttribute_spec h this f k :
  fileObjs h !! this = Some f ->
  readExtendedAttribute this k h
  = Ok (match Map_get k (File.extattrs f) with
        | Some a => if truthy a then Some a else None
        | None => None
        end) h.
Proof.
  intros Hf. unfold readExtendedAttribute.
  erewrite bind_Ok by (apply read_Ok; exact Hf). cbv zeta.
  destruct (Map_get k (File.extattrs f)) as [a|]; [|reflexivity].
  destruct (truthy a); reflexivity.
Qed.

Lemma writeExtendedAttribute_spec h this f v k :
  fileObjs h !! this = Some f ->
  writeExtendedAttribute this v k h
  = Ok tt (withFile h this (withAttrs f (Map_set k v (File.extattrs f)))).
Proof.
  intros Hf. unfold writeExtendedAttribute.
  erewrite bind_Ok by (apply read_Ok; exact Hf). reflexivity.
Qed.

(** X3: [readExtendedAttribute(k)] returns [null] for every key that
    [allExtendedAttributes()] does not list, never returns the empty
    string, and a value it returns belongs to a listed key.  It leaves
    the heap as it is. *)
Theorem X3_read_missing_key h this f k :
  fileObjs h !! this = Some f ->
  exists keys r,
    allExtendedAttributes this h = Ok keys h
    /\ readExtendedAttribute this k h = Ok r h
    /\ (k ∉ keys -> r = None)
    /\ (forall v, r = Some v -> k ∈ keys /\ v <> EmptyString).
Proof.
  intros Hf. eexists _, _.
  split; [apply allExtendedAttributes_spec, Hf|].
  split; [apply readExtendedAttribute_spec, Hf|].
  split.
  - intros Hnin. apply Map_get_None in Hnin. rewrite Hnin. reflexivity.
  - intros v Hv.
    destruct (Map_get k (File.extattrs f)) as [a|] eqn:E; [|discriminate].
    split.
    + destruct (decide (k ∈ Map_keys (File.extattrs f))) as [Hin|Hnin];
        [exact Hin|].
      apply Map_get_None in Hnin. congruence.
    + unfold truthy in Hv. destruct (String.eqb_spec a EmptyString);
        simpl in Hv; [discriminate|congruence].
Qed.


(** X5: [writeExtendedAttribute(v, k)] keeps the list of keys as it is,
    order included, when [k] is already a key, and adds [k] at its end when
    it is not. *)
Theorem X5_write_keys h this f v k :
  fileObjs h !! this = Some f ->
  exists h1 keys,
    allExtendedAttributes this h = Ok keys h
    /\ writeExtendedAttribute this v k h = Ok tt h1
    /\ allExtendedAttributes this h1
       = Ok (if decide (k ∈ keys) then keys else keys ++ [k]) h1.
Proof.
  intros Hf. pose proof (lookup_lt_Some _ _ _ Hf) as Hlt.
  eexists _, _.
  split; [apply allExtendedAttributes_spec, Hf|].
  split; [apply writeExtendedAttribute_spec, Hf|].
  erewrite allExtendedAttributes_spec
    by (simpl; apply list_lookup_insert_eq; exact Hlt).
  simpl. rewrite Map_keys_set. reflexivity.
Qed.

(** X6: a second write to the same key overwrites the first: the two writes
    leave the heap that the second alone leaves. *)
Theorem X6_write_overwrites h this f v1 v2 k :
  fileObjs h !! this = Some f ->
  exists h2,
    writeExtendedAttribute this v2 k h = Ok tt h2
    /\ (writeExtendedAttribute this v1 k ;; writeExtendedAttribute this v2 k) h
       = Ok tt h2.
Proof.
  intros Hf. pose proof (lookup_lt_Some _ _ _ Hf) as Hlt.
  eexists. split; [apply writeExtendedAttribute_spec, Hf|].
  erewrite bind_Ok by (apply writeExtendedAttribute_spec, Hf).
  erewrite writeExtendedAttribute_spec
    by (simpl; apply list_lookup_insert_eq; exact Hlt).
  rewrite withFile_twice. unfold withAttrs. simpl.
  rewrite Map_set_set. reflexivity.
Qed.

(** ** What the constructor of FakeDirectory allocates *)

Lemma new_FakeDirectory_run h name fs bs ds :
  new_FakeDirectory name fs bs ds h
  = Ok (length (dirObjs h))
       (Heap (fileObjs h)
             (fileArrays h ++ match fs with Some _ => [] | None => [[]] end)
             (dirArrays h
              ++ match ds with Some _ => [[]] | None => [[]; []] end)
             (dirObjs h
              ++ [Dir.Build
                    (match bs with Some b => b | None => [] end)
                    (match fs with
                     | Some a => a
                     | None => length (fileArrays h)
                     end)
                    (match ds with
                     | Some a => a
                     | None => S (length (dirArrays h))
                     end)
                    name])).
Proof.
  destruct fs, ds;
    cbv [new_FakeDirectory bind ret newDirArray newFileArray newDirObj];
    cbn [fileObjs fileArrays dirArrays dirObjs];
    rewrite ?app_nil_r, <- ?app_assoc, ?length_app; cbn [length app];
    rewrite ?Nat.add_1_r; reflexivity.
Qed.

(** ** Calls that leave the file objects alone *)

Lemma frozen_wf F h : frozen_files F h -> wf h.
Proof. intros [H _]. exact H. Qed.

Lemma frozen_pushFile F h a fs file target :
  frozen_files F h ->
  fileArrays h !! a = Some fs ->
  fileObjs h !! file = Some target ->
  Some (fileKey target) ∉ map (keyOf h) fs ->
  frozen_files F (withFileArray h a (fs ++ [file])).
Proof.
  intros [Hwf HF] Ha Hfile _. split; [|exact HF].
  apply wf_withFileArray; [exact Hwf|exact Ha|].
  eapply lookup_allocated, Hfile.
Qed.

Lemma frozen_pushDir F h a ds dir target :
  frozen_files F h ->
  dirArrays h !! a = Some ds ->
  dirObjs h !! dir = Some target ->
  Some (Dir.name target) ∉ map (nameOf h) ds ->
  frozen_files F (withDirArray h a (ds ++ [dir])).
Proof.
  intros [Hwf HF] Ha Hdir _. split; [|exact HF].
  apply wf_withDirArray; [exact Hwf|exact Ha|].
  eapply lookup_allocated, Hdir.
Qed.

Lemma frozen_newDir F h name fs bs ds :
  frozen_files F h ->
  allocated_opt (fileArrays h) fs ->
  allocated_opt (dirArrays h) ds ->
  any_call h (NewFakeDirectory name fs bs ds) ->
  exists h',
    new_FakeDirectory name fs bs ds h = Ok (length (dirObjs h)) h'
    /\ grows h h' /\ frozen_files F h'.
Proof.
  intros [Hwf HF] Hfs Hds _.
  destruct (new_FakeDirectory_wf h name fs bs ds Hwf Hfs Hds)
    as (h' & Hrun & Hg & Hwf').
  exists h'. split; [exact Hrun|]. split; [exact Hg|]. split; [exact Hwf'|].
  rewrite new_FakeDirectory_run in Hrun. injection Hrun as <-. exact HF.
Qed.

(** The methods of [FakeDirectory] and the factory neither create nor
    change a file object. *)
Lemma directory_call_fileObjs h c :
  wf h -> typed h c ->
  match c with
  | AddFile _ _ | AddFiles _ _ | AddSubdirectory _ _
  | AddSubdirectories _ _ | ListContents _ | BasicFilesystem
  | DirectoriesFromPath _ | NewFakeDirectory _ _ _ _
  | FileArrayLiteral _ | DirArrayLiteral _ =>
      fileObjs (exec c h) = fileObjs h
  | _ => True
  end.
Proof.
  intros Hwf Htyped.
  assert (Hfrozen : frozen_files (fileObjs h) h) by (split; auto).
  pose proof (frozen_wf (fileObjs h)) as Fwf.
  pose proof (frozen_pushFile (fileObjs h)) as FpF.
  pose proof (frozen_pushDir (fileObjs h)) as FpD.
  pose proof (frozen_newDir (fileObjs h)) as FnD.
  assert (Fany : forall (h0 : heap) name (bs : option (list string)),
             any_call h0 (NewFakeDirectory name None bs None))
    by (intros; exact I).
  destruct c; simpl in *; try exact I; try reflexivity.
  - rewrite new_FakeDirectory_run. reflexivity.
  - eapply (keeps_exec (frozen_files (fileObjs h)));
      [apply (addFile_keeps _ Fwf FpF)|]; tauto.
  - eapply (keeps_exec (frozen_files (fileObjs h)));
      [apply (addFiles_keeps _ Fwf FpF)|]; tauto.
  - eapply (keeps_exec (frozen_files (fileObjs h)));
      [apply (addSubdirectory_keeps _ Fwf FpD)|]; tauto.
  - eapply (keeps_exec (frozen_files (fileObjs h)));
      [apply (addSubdirectories_keeps _ Fwf FpD)|]; tauto.
  - eapply (keeps_exec (frozen_files (fileObjs h)));
      [apply (listContents_keeps _ Fwf)|]; eassumption.
  - eapply (keeps_exec (frozen_files (fileObjs h)));
      [apply (basicFilesystem_keeps _ any_call Fwf FnD Fany FpD)|];
      eassumption.
  - eapply (keeps_exec (frozen_files (fileObjs h)));
      [apply (directoriesFromTokens_keeps _ any_call Fwf FnD Fany FpD)|];
      eassumption.
Qed.

(** ** The private state of files on the heaps a client reaches *)

Lemma NoDup_splice1 {A} (i : option nat) (l : list A) :
  NoDup l -> NoDup (splice1 i l).
Proof.
  intros Hnd. apply (sublist_NoDup _ l); [exact Hnd|].
  destruct i as [i|]; simpl.
  - rewrite <- (take_drop i l) at 3.
    apply sublist_app; [reflexivity|].
    replace (S i) with (i + 1) by lia. rewrite <- drop_drop.
    apply sublist_drop.
  - apply sublist_take.
Qed.

Lemma tidy_new name extension :
  tidy (File.Build name extension [] [] EmptyString []).
Proof. repeat split; constructor. Qed.

Lemma exec_tidy h c :
  wf h -> typed h c ->
  Forall tidy (fileObjs h) -> Forall tidy (fileObjs (exec c h)).
Proof.
  intros Hwf Htyped Htidy.
  pose proof (directory_call_fileObjs h c Hwf Htyped) as E.
  destruct c; cbv beta iota in E; try (rewrite E; exact Htidy);
    simpl in Htyped.
  - (* new FakeFile *)
    simpl. apply Forall_app. split; [exact Htidy|].
    constructor; [apply tidy_new|constructor].
  - (* addTag *)
    destruct (allocated_lookup _ _ Htyped) as [f Hf].
    unfold exec. rewrite (addTag_spec h this f tag Hf).
    destruct (includes tag (File.tags f)) eqn:Hinc; [exact Htidy|].
    simpl. apply Forall_insert; [exact Htidy|].
    rewrite Forall_lookup in Htidy.
    destruct (Htidy _ _ Hf) as (Ht & Hk & Hu & Hb).
    repeat split; simpl; try assumption.
    apply NoDup_app. split; [exact Ht|]. split; [|apply NoDup_singleton].
    intros x Hx Hin. apply list_elem_of_singleton in Hin. subst x.
    apply includes_false in Hinc. contradiction.
  - (* removeTag *)
    destruct (allocated_lookup _ _ Htyped) as [f Hf].
    unfold exec, removeTag. erewrite bind_Ok by (apply read_Ok; exact Hf).
    destruct (includes tag (File.tags f)); [|exact Htidy].
    simpl. apply Forall_insert; [exact Htidy|].
    rewrite Forall_lookup in Htidy.
    destruct (Htidy _ _ Hf) as (Ht & Hk & Hu & Hb).
    repeat split; simpl; try assumption.
    apply NoDup_splice1, Ht.
  - (* allTags *)
    unfold exec, allTags, bind, getFile, read.
    destruct (fileObjs h !! this); exact Htidy.
  - (* readExtendedAttribute *)
    destruct (allocated_lookup _ _ Htyped) as [f Hf].
    unfold exec. rewrite (readExtendedAttribute_spec h this f name Hf).
    exact Htidy.
  - (* allExtendedAttributes *)
    unfold exec, allExtendedAttributes, bind, getFile, read.
    destruct (fileObjs h !! this); exact Htidy.
  - (* writeExtendedAttribute *)
    destruct (allocated_lookup _ _ Htyped) as [f Hf].
    unfold exec. rewrite (writeExtendedAttribute_spec h this f value name Hf).
    simpl. apply Forall_insert; [exact Htidy|].
    rewrite Forall_lookup in Htidy.
    destruct (Htidy _ _ Hf) as (Ht & Hk & Hu & Hb).
    repeat split; simpl; try assumption.
    apply Map_set_keys_NoDup, Hk.
  - (* getUTI *)
    unfold exec, getUTI, bind, getFile, read.
    destruct (fileObjs h !! this); exact Htidy.
Qed.

Lemma reachable_tidy h : reachable any_call h -> Forall tidy (fileObjs h).
Proof.
  induction 1 as [|h c Hr IH Htyped _]; [constructor|].
  apply exec_tidy; [apply reachable_wf, Hr|exact Htyped|exact IH].
Qed.

Lemma reachable_tidy_file h this :
  reachable any_call h -> allocated (fileObjs h) this ->
  exists f, fileObjs h !! this = Some f /\ tidy f.
Proof.
  intros Hr Hthis. destruct (allocated_lookup _ _ Hthis) as [f Hf].
  exists f. split; [exact Hf|].
  pose proof (reachable_tidy h Hr) as Htidy.
  rewrite Forall_lookup in Htidy. exact (Htidy _ _ Hf).
Qed.

Lemma filter_ne_notin (t : string) (l : list string) :
  t ∉ l -> filter (fun x => x <> t) l = l.
Proof.
  induction l as [|y l IH]; intros Hnin; [reflexivity|].
  apply not_elem_of_cons in Hnin as [Hne Hnin].
  rewrite filter_cons_True by congruence. rewrite (IH Hnin). reflexivity.
Qed.

(** X7: on every heap a client reaches, [allTags()] lists no tag twice. *)
Theorem X7_tags_unique h this :
  reachable any_call h ->
  allocated (fileObjs h) this ->
  exists ts, allTags this h = Ok ts h /\ NoDup ts.
Proof.
  intros Hr Hthis.
  destruct (reachable_tidy_file h this Hr Hthis) as (f & Hf & Ht & _).
  exists (File.tags f). split; [|exact Ht].
  unfold allTags. erewrite bind_Ok by (apply read_Ok; exact Hf).
  reflexivity.
Qed.

(** X8: on every heap a client reaches, after [removeTag(t)] the tag [t]
    is not among the tags of the file, and the tags are those it had
    without [t], in the same order. *)
Theorem X8_removed_tag_is_gone h this t :
  reachable any_call h ->
  allocated (fileObjs h) this ->
  exists ts h1 ts1,
    allTags this h = Ok ts h
    /\ removeTag this t h = Ok tt h1
    /\ allTags this h1 = Ok ts1 h1
    /\ (t ∉ ts1)
    /\ ts1 = filter (fun x => x <> t) ts.
Proof.
  intros Hr Hthis.
  destruct (reachable_tidy_file h this Hr Hthis) as (f & Hf & Ht & _).
  pose proof (lookup_lt_Some _ _ _ Hf) as Hlt.
  assert (Hall : forall h' f', fileObjs h' !! this = Some f' ->
                   allTags this h' = Ok (File.tags f') h').
  { intros h' f' Hf'. unfold allTags.
    erewrite bind_Ok by (apply read_Ok; exact Hf'). reflexivity. }
  exists (File.tags f).
  destruct (decide (t ∈ File.tags f)) as [Hin|Hnin].
  - apply list_elem_of_split_l in Hin as (pre & post & Htags & Hpre).
    rewrite Htags in Ht. apply NoDup_app in Ht as (_ & Hdisj & Hpost).
    apply NoDup_cons in Hpost as [Hpost _].
    exists (withFile h this (withTags f (pre ++ post))), (pre ++ post).
    split; [apply Hall, Hf|]. split; [|split; [|split]].
    + unfold removeTag. erewrite bind_Ok by (apply read_Ok; exact Hf).
      assert (Hinc : includes t (File.tags f) = true).
      { apply includes_In. rewrite Htags. apply in_or_app. right. left.
        reflexivity. }
      rewrite Hinc, Htags, (indexOf_first t pre post Hpre), splice1_first.
      reflexivity.
    + apply (Hall _ (withTags f (pre ++ post))).
      simpl. apply list_lookup_insert_eq. exact Hlt.
    + intros Hin. apply elem_of_app in Hin as [Hin|Hin]; contradiction.
    + rewrite Htags, filter_app, filter_cons_False by (intros H; apply H;
        reflexivity).
      rewrite !filter_ne_notin by assumption. reflexivity.
  - exists h, (File.tags f).
    split; [apply Hall, Hf|]. split; [|split; [|split]].
    + unfold removeTag. erewrite bind_Ok by (apply read_Ok; exact Hf).
      apply includes_false in Hnin. rewrite Hnin. reflexivity.
    + apply Hall, Hf.
    + exact Hnin.
    + symmetry. apply filter_ne_notin, Hnin.
Qed.

(** X9: no method sets the type identifier: on every heap a client
    reaches, [getUTI()] returns the empty string. *)
Theorem X9_getUTI_empty h this :
  reachable any_call h ->
  allocated (fileObjs h) this ->
  getUTI this h = Ok EmptyString h.
Proof.
  intros Hr Hthis.
  destruct (reachable_tidy_file h this Hr Hthis) as (f & Hf & _ & _ & Hu & _).
  unfold getUTI. erewrite bind_Ok by (apply read_Ok; exact Hf).
  rewrite Hu. reflexivity.
Qed.

(** X10: on every heap a client reaches, [allExtendedAttributes()] lists
    no key twice. *)
Theorem X10_attribute_keys_unique h this :
  reachable any_call h ->
  allocated (fileObjs h) this ->
  exists keys, allExtendedAttributes this h = Ok keys h /\ NoDup keys.
Proof.
  intros Hr Hthis.
  destruct (reachable_tidy_file h this Hr Hthis) as (f & Hf & _ & Hk & _).
  exists (Map_keys (File.extattrs f)).
  split; [apply allExtendedAttributes_spec, Hf|exact Hk].
Qed.

(** ** What no call changes: names, and the order of children *)

Lemma later_refl h : wf h -> later h h.
Proof.
  intros Hwf. split; [exact Hwf|]. split; [auto|]. split; [auto|].
  split; intros this l Hl; exists []; rewrite app_nil_r; exact Hl.
Qed.

Lemma later_step h0 h h' :
  later h0 h ->
  wf h' ->
  (forall r k, keyOf h r = Some k -> keyOf h' r = Some k) ->
  (forall r n, nameOf h r = Some n -> nameOf h' r = Some n) ->
  (forall this l, fileList h this = Some l ->
                  exists l', fileList h' this = Some (l ++ l')) ->
  (forall this l, subdirList h this = Some l ->
                  exists l', subdirList h' this = Some (l ++ l')) ->
  later h0 h'.
Proof.
  intros (_ & K & N & F & S) Hwf K' N' F' S'.
  split; [exact Hwf|]. split; [auto|]. split; [auto|]. split.
  - intros this l Hl. destruct (F this l Hl) as [l1 H1].
    destruct (F' this _ H1) as [l2 H2]. exists (l1 ++ l2).
    rewrite app_assoc. exact H2.
  - intros this l Hl. destruct (S this l Hl) as [l1 H1].
    destruct (S' this _ H1) as [l2 H2]. exists (l1 ++ l2).
    rewrite app_assoc. exact H2.
Qed.

(** Allocation is a step to a later state. *)
Lemma later_extend h0 h h' xs ys zs ds :
  later h0 h ->
  wf h' ->
  fileObjs h' = fileObjs h ++ xs ->
  fileArrays h' = fileArrays h ++ ys ->
  dirArrays h' = dirArrays h ++ zs ->
  dirObjs h' = dirObjs h ++ ds ->
  later h0 h'.
Proof.
  intros Hl Hwf Efo Efa Eda Edo. apply (later_step h0 h h' Hl Hwf).
  - intros r k. unfold keyOf. rewrite Efo.
    destruct (fileObjs h !! r) as [f|] eqn:E; [|discriminate].
    rewrite (lookup_app_l_Some _ _ _ _ E). auto.
  - intros r n. unfold nameOf. rewrite Edo.
    destruct (dirObjs h !! r) as [d|] eqn:E; [|discriminate].
    rewrite (lookup_app_l_Some _ _ _ _ E). auto.
  - intros this l. unfold fileList. rewrite Edo, Efa.
    destruct (dirObjs h !! this) as [d|] eqn:E; [|discriminate].
    rewrite (lookup_app_l_Some _ _ _ _ E). intros Hl'.
    exists []. rewrite app_nil_r. apply lookup_app_l_Some, Hl'.
  - intros this l. unfold subdirList. rewrite Edo, Eda.
    destruct (dirObjs h !! this) as [d|] eqn:E; [|discriminate].
    rewrite (lookup_app_l_Some _ _ _ _ E). intros Hl'.
    exists []. rewrite app_nil_r. apply lookup_app_l_Some, Hl'.
Qed.

Lemma later_withFile h0 h r f f' :
  later h0 h ->
  fileObjs h !! r = Some f ->
  fileKey f' = fileKey f ->
  later h0 (withFile h r f').
Proof.
  intros Hl Hr Hkey. pose proof Hl as (Hwf & _).
  apply (later_step h0 h _ Hl); [apply wf_withFile, Hwf|..].
  - intros x k. unfold keyOf, withFile. simpl.
    destruct (decide (x = r)) as [->|Hne].
    + rewrite list_lookup_insert_eq by (eapply lookup_lt_Some, Hr).
      rewrite Hr. simpl. congruence.
    + rewrite list_lookup_insert_ne by congruence. auto.
  - auto.
  - intros this l Hthis. exists []. rewrite app_nil_r. exact Hthis.
  - intros this l Hthis. exists []. rewrite app_nil_r. exact Hthis.
Qed.

Lemma later_pushFile h0 h a fs file target :
  later h0 h ->
  fileArrays h !! a = Some fs ->
  fileObjs h !! file = Some target ->
  Some (fileKey target) ∉ map (keyOf h) fs ->
  later h0 (withFileArray h a (fs ++ [file])).
Proof.
  intros Hl Ha Hfile _. pose proof Hl as (Hwf & _).
  apply (later_step h0 h _ Hl).
  - apply wf_withFileArray; [exact Hwf|exact Ha|].
    eapply lookup_allocated, Hfile.
  - auto.
  - auto.
  - intros this l. unfold fileList. simpl.
    destruct (dirObjs h !! this) as [d|]; [|discriminate].
    destruct (decide (Dir.files d = a)) as [E|Hne].
    + rewrite E, Ha. intros [= <-]. exists [file].
      apply list_lookup_insert_eq. eapply lookup_lt_Some, Ha.
    + rewrite list_lookup_insert_ne by congruence.
      intros Hthis. exists []. rewrite app_nil_r. exact Hthis.
  - intros this l Hthis. exists []. rewrite app_nil_r. exact Hthis.
Qed.

Lemma later_pushDir h0 h a ds dir target :
  later h0 h ->
  dirArrays h !! a = Some ds ->
  dirObjs h !! dir = Some target ->
  Some (Dir.name target) ∉ map (nameOf h) ds ->
  later h0 (withDirArray h a (ds ++ [dir])).
Proof.
  intros Hl Ha Hdir _. pose proof Hl as (Hwf & _).
  apply (later_step h0 h _ Hl).
  - apply wf_withDirArray; [exact Hwf|exact Ha|].
    eapply lookup_allocated, Hdir.
  - auto.
  - auto.
  - intros this l Hthis. exists []. rewrite app_nil_r. exact Hthis.
  - intros this l. unfold subdirList. simpl.
    destruct (dirObjs h !! this) as [d|]; [|discriminate].
    destruct (decide (Dir.subdirectories d = a)) as [E|Hne].
    + rewrite E, Ha. intros [= <-]. exists [dir].
      apply list_lookup_insert_eq. eapply lookup_lt_Some, Ha.
    + rewrite list_lookup_insert_ne by congruence.
      intros Hthis. exists []. rewrite app_nil_r. exact Hthis.
Qed.

Lemma later_newDir h0 h name fs bs ds :
  later h0 h ->
  allocated_opt (fileArrays h) fs ->
  allocated_opt (dirArrays h) ds ->
  any_call h (NewFakeDirectory name fs bs ds) ->
  exists h',
    new_FakeDirectory name fs bs ds h = Ok (length (dirObjs h)) h'
    /\ grows h h' /\ later h0 h'.
Proof.
  intros Hl Hfs Hds _. pose proof Hl as (Hwf & _).
  destruct (new_FakeDirectory_wf h name fs bs ds Hwf Hfs Hds)
    as (h' & Hrun & Hg & Hwf').
  exists h'. split; [exact Hrun|]. split; [exact Hg|].
  rewrite new_FakeDirectory_run in Hrun. injection Hrun as <-.
  eapply later_extend;
    [exact Hl|exact Hwf'|simpl; symmetry; apply app_nil_r|reflexivity ..].
Qed.

Lemma call_later h c : wf h -> typed h c -> later h (exec c h).
Proof.
  intros Hwf Htyped.
  apply (call_keeps (later h) any_call); try assumption; try exact I.
  - intros h' (H & _). exact H.
  - intros h' f Hl. pose proof Hl as (Hwf' & _).
    eapply (later_extend h h' _ [f] [] [] []); try exact Hl; simpl;
      rewrite ?app_nil_r; try reflexivity.
    eapply (wf_extend h' _ [f] [] [] []);
      [exact Hwf'|simpl; rewrite ?app_nil_r; reflexivity ..| | |];
      constructor.
  - intros h' l Hl Hall. pose proof Hl as (Hwf' & _).
    eapply (later_extend h h' _ [] [l] [] []); try exact Hl; simpl;
      rewrite ?app_nil_r; try reflexivity.
    eapply (wf_extend h' _ [] [l] [] []);
      [exact Hwf'|simpl; rewrite ?app_nil_r; reflexivity ..| | |];
      repeat constructor. exact Hall.
  - intros h' l Hl Hall. pose proof Hl as (Hwf' & _).
    eapply (later_extend h h' _ [] [] [l] []); try exact Hl; simpl;
      rewrite ?app_nil_r; try reflexivity.
    eapply (wf_extend h' _ [] [] [l] []);
      [exact Hwf'|simpl; rewrite ?app_nil_r; reflexivity ..| | |];
      repeat constructor. exact Hall.
  - apply later_newDir.
  - intros; exact I.
  - apply later_withFile.
  - apply later_pushFile.
  - apply later_pushDir.
  - apply later_refl, Hwf.
Qed.

(** X11: [name] and [extension] are readonly in effect: no typed call,
    whether it returns or throws, changes the name or extension of a file
    or the name of a directory that exists when it is made. *)
Theorem X11_names_never_change h c :
  wf h -> typed h c ->
  (forall r k, keyOf h r = Some k -> keyOf (exec c h) r = Some k)
  /\ (forall r n, nameOf h r = Some n -> nameOf (exec c h) r = Some n).
Proof.
  intros Hwf Htyped.
  destruct (call_later h c Hwf Htyped) as (_ & K & N & _). auto.
Qed.

(** X12: children are never removed or reordered: after any typed call,
    whether it returns or throws, the file list and the subdirectory list
    of every directory start with what they held before the call. *)
Theorem X12_children_only_appended h c :
  wf h -> typed h c ->
  (forall this l, fileList h this = Some l ->
                  exists l', fileList (exec c h) this = Some (l ++ l'))
  /\ (forall this l, subdirList h this = Some l ->
                     exists l', subdirList (exec c h) this = Some (l ++ l')).
Proof.
  intros Hwf Htyped.
  destruct (call_later h c Hwf Htyped) as (_ & _ & _ & F & S). auto.
Qed.

(** ** addSubdirectories *)

Section AddSubdirectories.
Variables (this : ref) (t : FakeDirectory).

Lemma addSubdirectories_step h cur x ox :
  wf h ->
  dirObjs h !! this = Some t ->
  dirArrays h !! Dir.subdirectories t = Some cur ->
  dirObjs h !! x = Some ox ->
  Some (Dir.name ox) ∉ map (nameOf h) cur ->
  (_ <- addSubdirectory this x ;; ret tt) h
  = Ok tt (withDirArray h (Dir.subdirectories t) (cur ++ [x])).
Proof.
  intros Hwf Hthis Hcur Hx Hnew.
  erewrite bind_Ok; [reflexivity|].
  apply (addSubdirectory_pushes h this x t ox cur); try assumption.
  eapply wf_dirArray; eassumption.
Qed.

Lemma addSubdirectories_loop_all l :
  forall h cur,
    wf h ->
    dirObjs h !! this = Some t ->
    dirArrays h !! Dir.subdirectories t = Some cur ->
    Forall (allocated (dirObjs h)) l ->
    NoDup (map (nameOf h) l) ->
    (forall n, n ∈ map (nameOf h) l -> n ∉ map (nameOf h) cur) ->
    forOf l (fun d => _ <- addSubdirectory this d ;; ret tt) h
    = Ok tt (withDirArray h (Dir.subdirectories t) (cur ++ l)).
Proof.
  induction l as [|x l IH]; intros h cur Hwf Hthis Hcur Hl Hnd Hdisj.
  - simpl. rewrite app_nil_r, withDirArray_same by exact Hcur.
    reflexivity.
  - apply Forall_cons in Hl as [Hx Hl].
    destruct (allocated_lookup _ _ Hx) as [ox Hox].
    simpl in Hnd. apply NoDup_cons in Hnd as [Hxl Hnd].
    cbn [forOf].
    erewrite bind_Ok.
    2:{ apply (addSubdirectories_step h cur x ox); try assumption.
        intros Hin. apply (Hdisj (nameOf h x)).
        - simpl. apply elem_of_cons. left. reflexivity.
        - rewrite (nameOf_lookup _ _ _ Hox). exact Hin. }
    rewrite (IH _ (cur ++ [x])).
    + rewrite withDirArray_twice, <- app_assoc. reflexivity.
    + apply wf_withDirArray; assumption.
    + exact Hthis.
    + simpl. apply list_lookup_insert_eq. eapply lookup_allocated, Hcur.
    + exact Hl.
    + exact Hnd.
    + rewrite nameOf_withDirArray. intros n Hn Hin.
      rewrite map_app in Hin. apply elem_of_app in Hin as [Hin|Hin].
      * apply (Hdisj n); [|exact Hin].
        simpl. apply elem_of_cons. right. exact Hn.
      * simpl in Hin. apply list_elem_of_singleton in Hin. subst n.
        exact (Hxl Hn).
Qed.

Lemma addSubdirectories_loop_stops pre x post o :
  forall h cur,
    wf h ->
    dirObjs h !! this = Some t ->
    dirArrays h !! Dir.subdirectories t = Some cur ->
    Forall (allocated (dirObjs h)) pre ->
    dirObjs h !! x = Some o ->
    NoDup (map (nameOf h) pre) ->
    (forall n, n ∈ map (nameOf h) pre -> n ∉ map (nameOf h) cur) ->
    Some (Dir.name o) ∈ map (nameOf h) (cur ++ pre) ->
    forOf (pre ++ x :: post) (fun d => _ <- addSubdirectory this d ;; ret tt) h
    = Throw (mkError (dir_exists_msg (Dir.name o)))
            (withDirArray h (Dir.subdirectories t) (cur ++ pre)).
Proof.
  induction pre as [|y pre IH];
    intros h cur Hwf Hthis Hcur Hpre Hx Hnd Hdisj Hin.
  - simpl. rewrite app_nil_r in *.
    rewrite withDirArray_same by exact Hcur.
    apply bind_Throw. apply bind_Throw.
    apply (addSubdirectory_throws h this x t o cur); try assumption.
    eapply wf_dirArray; eassumption.
  - apply Forall_cons in Hpre as [Hy Hpre].
    destruct (allocated_lookup _ _ Hy) as [oy Hoy].
    simpl in Hnd. apply NoDup_cons in Hnd as [Hyl Hnd].
    cbn [app forOf].
    erewrite bind_Ok.
    2:{ apply (addSubdirectories_step h cur y oy); try assumption.
        intros Hin'. apply (Hdisj (nameOf h y)).
        - simpl. apply elem_of_cons. left. reflexivity.
        - rewrite (nameOf_lookup _ _ _ Hoy). exact Hin'. }
    rewrite (IH _ (cur ++ [y])).
    + rewrite withDirArray_twice, <- app_assoc. reflexivity.
    + apply wf_withDirArray; assumption.
    + exact Hthis.
    + simpl. apply list_lookup_insert_eq. eapply lookup_allocated, Hcur.
    + exact Hpre.
    + exact Hx.
    + exact Hnd.
    + rewrite nameOf_withDirArray. intros n Hn Hin'.
      rewrite map_app in Hin'. apply elem_of_app in Hin' as [Hin'|Hin'].
      * apply (Hdisj n); [|exact Hin'].
        simpl. apply elem_of_cons. right. exact Hn.
      * simpl in Hin'. apply list_elem_of_singleton in Hin'. subst n.
        exact (Hyl Hn).
    + rewrite nameOf_withDirArray, <- app_assoc. exact Hin.
Qed.
End AddSubdirectories.

(** X13: [addSubdirectories(dirs)] on a container whose subdirectory array
    is [cur] adds the elements of [dirs] in order.  At the first element
    [x] whose name is already in the array (in [cur] or among the elements
    [pre] before it) it throws the error of [addSubdirectory(x)] and leaves
    the array at [cur] followed by [pre]; when there is no such element it
    returns and the array is [cur] followed by all of [dirs]. *)
Theorem X13_addSubdirectories h this t dirs ds cur :
  wf h ->
  dirObjs h !! this = Some t ->
  dirArrays h !! Dir.subdirectories t = Some cur ->
  dirArrays h !! dirs = Some ds ->
  (forall pre x post o,
      ds = pre ++ x :: post ->
      dirObjs h !! x = Some o ->
      NoDup (map (nameOf h) pre) ->
      (forall n, n ∈ map (nameOf h) pre -> n ∉ map (nameOf h) cur) ->
      Some (Dir.name o) ∈ map (nameOf h) (cur ++ pre) ->
      exists h',
        addSubdirectories this dirs h
        = Throw (mkError (dir_exists_msg (Dir.name o))) h'
        /\ h' = withDirArray h (Dir.subdirectories t) (cur ++ pre)
        /\ subdirList h' this = Some (cur ++ pre))
  /\ (NoDup (map (nameOf h) ds) ->
      (forall n, n ∈ map (nameOf h) ds -> n ∉ map (nameOf h) cur) ->
      exists h',
        addSubdirectories this dirs h = Ok tt h'
        /\ h' = withDirArray h (Dir.subdirectories t) (cur ++ ds)
        /\ subdirList h' this = Some (cur ++ ds)).
Proof.
  intros Hwf Hthis Hcur Hdirs.
  pose proof (wf_dirArray _ _ _ Hwf Hdirs) as Hds.
  pose proof (lookup_allocated _ _ _ Hcur) as Ha.
  split.
  - intros pre x post o -> Hx Hnd Hdisj Hin.
    apply Forall_app in Hds as [Hpre _].
    eexists. split; [|split; [reflexivity|]].
    + unfold addSubdirectories.
      erewrite bind_Ok by (apply read_Ok; exact Hdirs).
      eapply addSubdirectories_loop_stops; eassumption.
    + apply subdirList_withDirArray; assumption.
  - intros Hnd Hdisj.
    eexists. split; [|split; [reflexivity|]].
    + unfold addSubdirectories.
      erewrite bind_Ok by (apply read_Ok; exact Hdirs).
      eapply addSubdirectories_loop_all; eassumption.
    + apply subdirList_withDirArray; assumption.
Qed.

(** ** listContents after an addition *)

Lemma omap_snoc {A B} (view : A -> option B) l x b :
  view x = Some b -> omap view (l ++ [x]) = omap view l ++ [b].
Proof. intros Hx. rewrite omap_app. simpl. rewrite Hx. reflexivity. Qed.

(** X14: for a directory whose [files] and [subdirectories] are two
    different arrays, as they are in every heap here (the first is an array
    of the store of file arrays, the second one of the store of directory
    arrays): [listContents()] leaves the heap as it is.  After a successful
    [addFile(file)] the listing is the former listing followed by the name
    of [file]; after a successful [addSubdirectory(dir)] the name of [dir]
    stands after the names of the former subdirectories and before the
    names of the files.  On a directory constructed with one array as both
    fields a push shows in both halves of the listing, and this is not
    claimed. *)
Theorem X14_listContents_after_add h this d subs fs :
  wf h ->
  dirObjs h !! this = Some d ->
  dirArrays h !! Dir.subdirectories d = Some subs ->
  fileArrays h !! Dir.files d = Some fs ->
  exists dnames fnames,
    map (nameOf h) subs = map Some dnames
    /\ map (fileNameOf h) fs = map Some fnames
    /\ listContents this h = Ok (dnames ++ fnames) h
    /\ (forall file target,
           fileObjs h !! file = Some target ->
           Some (fileKey target) ∉ map (keyOf h) fs ->
           exists h1,
             addFile this file h = Ok tt h1
             /\ listContents this h1
                = Ok (dnames ++ fnames ++ [File.name target]) h1)
    /\ (forall dir o,
           dirObjs h !! dir = Some o ->
           Some (Dir.name o) ∉ map (nameOf h) subs ->
           exists h1,
             addSubdirectory this dir h = Ok dir h1
             /\ listContents this h1
                = Ok (dnames ++ [Dir.name o] ++ fnames) h1).
Proof.
  intros Hwf Hthis Hsubs Hfs.
  exists (omap (nameOf h) subs), (omap (fileNameOf h) fs).
  split.
  { apply map_Some_omap.
    eapply Forall_impl; [exact (wf_dirArray _ _ _ Hwf Hsubs)|].
    intros r Hr. destruct (allocated_lookup _ _ Hr) as [o Ho].
    exists (Dir.name o). apply nameOf_lookup, Ho. }
  split.
  { apply map_Some_omap.
    eapply Forall_impl; [exact (wf_fileArray _ _ _ Hwf Hfs)|].
    intros r Hr. destruct (allocated_lookup _ _ Hr) as [o Ho].
    exists (File.name o). unfold fileNameOf. rewrite Ho. reflexivity. }
  split; [apply (listContents_spec h this d subs fs); assumption|].
  split.
  - intros file target Hfile Hnew. eexists. split.
    + apply (addFile_pushes h this file d fs target); try assumption.
      eapply wf_fileArray; eassumption.
    + erewrite (listContents_spec _ this d subs (fs ++ [file])).
      * change (nameOf (withFileArray h (Dir.files d) (fs ++ [file])))
          with (nameOf h).
        change (fileNameOf (withFileArray h (Dir.files d) (fs ++ [file])))
          with (fileNameOf h).
        rewrite (omap_snoc (fileNameOf h) fs file (File.name target)).
        -- reflexivity.
        -- unfold fileNameOf. rewrite Hfile. reflexivity.
      * apply wf_withFileArray; [exact Hwf|exact Hfs|].
        eapply lookup_allocated, Hfile.
      * exact Hthis.
      * exact Hsubs.
      * simpl. apply list_lookup_insert_eq. eapply lookup_lt_Some, Hfs.
  - intros dir o Hdir Hnew. eexists. split.
    + apply (addSubdirectory_pushes h this dir d o subs); try assumption.
      eapply wf_dirArray; eassumption.
    + erewrite (listContents_spec _ this d (subs ++ [dir]) fs).
      * change (nameOf (withDirArray h (Dir.subdirectories d)
                          (subs ++ [dir])))
          with (nameOf h).
        change (fileNameOf (withDirArray h (Dir.subdirectories d)
                              (subs ++ [dir])))
          with (fileNameOf h).
        rewrite (omap_snoc (nameOf h) subs dir (Dir.name o)).
        -- rewrite <- app_assoc. reflexivity.
        -- apply nameOf_lookup, Hdir.
      * apply wf_withDirArray; [exact Hwf|exact Hsubs|].
        eapply lookup_allocated, Hdir.
      * exact Hthis.
      * simpl. apply list_lookup_insert_eq. eapply lookup_lt_Some, Hsubs.
      * exact Hfs.
Qed.

(** ** References returned and arrays shared *)

(** X15: the reference [addSubdirectory] returns is the stored child, so a
    call chained on it reaches the child held by the parent: after
    [parent.addSubdirectory(child).addSubdirectory(grandchild)], with the
    two names free and the two directories not constructed on one
    subdirectory array, the parent's subdirectories end with [child] and
    those of [child] end with [grandchild]. *)
Theorem X15_chained_addSubdirectory
    h parent child grandchild p c g ps cs :
  wf h ->
  dirObjs h !! parent = Some p ->
  dirObjs h !! child = Some c ->
  dirObjs h !! grandchild = Some g ->
  dirArrays h !! Dir.subdirectories p = Some ps ->
  dirArrays h !! Dir.subdirectories c = Some cs ->
  Dir.subdirectories p <> Dir.subdirectories c ->
  Some (Dir.name c) ∉ map (nameOf h) ps ->
  Some (Dir.name g) ∉ map (nameOf h) cs ->
  exists h2,
    (r <- addSubdirectory parent child ;; addSubdirectory r grandchild) h
    = Ok grandchild h2
    /\ subdirList h2 parent = Some (ps ++ [child])
    /\ subdirList h2 child = Some (cs ++ [grandchild]).
Proof.
  intros Hwf Hp Hc Hg Hps Hcs Hne Hfree1 Hfree2.
  pose proof (wf_dirArray _ _ _ Hwf Hps) as Hallp.
  pose proof (wf_dirArray _ _ _ Hwf Hcs) as Hallc.
  pose proof (lookup_allocated _ _ _ Hps) as Hap.
  pose proof (lookup_allocated _ _ _ Hcs) as Hac.
  set (h1 := withDirArray h (Dir.subdirectories p) (ps ++ [child])).
  assert (Hcs1 : dirArrays h1 !! Dir.subdirectories c = Some cs).
  { simpl. rewrite list_lookup_insert_ne by exact Hne. exact Hcs. }
  exists (withDirArray h1 (Dir.subdirectories c) (cs ++ [grandchild])).
  split; [|split].
  - erewrite bind_Ok
      by (apply (addSubdirectory_pushes h parent child p c ps); assumption).
    apply (addSubdirectory_pushes h1 child grandchild c g cs); assumption.
  - unfold subdirList. simpl. rewrite Hp.
    rewrite list_lookup_insert_ne by congruence.
    apply list_lookup_insert_eq. exact Hap.
  - unfold subdirList. simpl. rewrite Hc.
    apply list_lookup_insert_eq. rewrite length_insert. exact Hac.
Qed.

(** X16: the constructor stores the array it is given, not a copy: two
    directories constructed on the same array of files share it, so a file
    added to one is in the file list of the other, which then refuses the
    same file. *)
Theorem X16_constructor_shares_array h a fs n1 n2 b1 b2 file target :
  wf h ->
  fileArrays h !! a = Some fs ->
  fileObjs h !! file = Some target ->
  Some (fileKey target) ∉ map (keyOf h) fs ->
  exists d1 d2 h',
    (d1 <- new_FakeDirectory n1 (Some a) b1 None ;;
     d2 <- new_FakeDirectory n2 (Some a) b2 None ;;
     addFile d1 file ;;
     ret (d1, d2)) h = Ok (d1, d2) h'
    /\ d1 <> d2
    /\ fileList h' d1 = Some (fs ++ [file])
    /\ fileList h' d2 = Some (fs ++ [file])
    /\ addFile d2 file h'
       = Throw (mkError (file_exists_msg (File.name target))) h'.
Proof.
  intros Hwf Ha Hfile Hnew.
  pose proof (wf_fileArray _ _ _ Hwf Ha) as Hall.
  pose proof (lookup_allocated _ _ _ Ha) as Haa.
  rewrite (bind_Ok _ _ _ _ _ (new_FakeDirectory_run h n1 (Some a) b1 None)).
  set (D1 := Dir.Build _ a _ n1).
  set (h1 := Heap _ _ _ _).
  rewrite (bind_Ok _ _ _ _ _ (new_FakeDirectory_run h1 n2 (Some a) b2 None)).
  set (D2 := Dir.Build _ a _ n2).
  set (h2 := Heap _ _ _ _).
  assert (HD1 : dirObjs h2 !! length (dirObjs h) = Some D1).
  { simpl. apply lookup_app_l_Some. apply list_lookup_middle. reflexivity. }
  assert (HD2 : dirObjs h2 !! length (dirObjs h1) = Some D2).
  { simpl. apply list_lookup_middle. reflexivity. }
  assert (Ha2 : fileArrays h2 !! a = Some fs).
  { simpl. rewrite !app_nil_r. exact Ha. }
  assert (Hadd : addFile (length (dirObjs h)) file h2
                 = Ok tt (withFileArray h2 a (fs ++ [file]))).
  { apply (addFile_pushes h2 _ file D1 fs target); assumption. }
  exists (length (dirObjs h)), (length (dirObjs h1)),
         (withFileArray h2 a (fs ++ [file])).
  split; [|split; [|split; [|split]]].
  - rewrite (bind_Ok _ _ _ _ _ Hadd). reflexivity.
  - simpl. rewrite length_app. simpl. lia.
  - unfold fileList. cbn [dirObjs withFileArray fileArrays]. rewrite HD1.
    apply list_lookup_insert_eq. eapply lookup_lt_Some, Ha2.
  - unfold fileList. cbn [dirObjs withFileArray fileArrays]. rewrite HD2.
    apply list_lookup_insert_eq. eapply lookup_lt_Some, Ha2.
  - apply (addFile_throws _ _ file D2 (fs ++ [file]) target).
    + exact HD2.
    + cbn [dirObjs withFileArray fileArrays].
      apply list_lookup_insert_eq. eapply lookup_lt_Some, Ha2.
    + exact Hfile.
    + apply Forall_app. split; [exact Hall|].
      constructor; [eapply lookup_allocated, Hfile|constructor].
    + rewrite map_app. apply elem_of_app. right. simpl.
      change (keyOf (withFileArray h2 a (fs ++ [file])) file)
        with (keyOf h file).
      rewrite (keyOf_lookup _ _ _ Hfile). left.
Qed.

(** ** directoriesFromPath on any path *)

Lemma clash_defaults tokens :
  clash ["local"; "iCloud"] tokens
  <-> "local" ∈ tokens \/ "iCloud" ∈ tokens \/ ~ NoDup tokens.
Proof.
  unfold clash. split.
  - intros [(t & Ht & Hn)|Hdup]; [|auto].
    apply elem_of_cons in Hn as [->|Hn]; [auto|].
    apply list_elem_of_singleton in Hn. subst t. auto.
  - intros [Hl|[Hi|Hdup]]; [| |auto].
    + left. exists "local". split; [exact Hl|left].
    + left. exists "iCloud". split; [exact Hi|right; left].
Qed.

(** X17: [directoriesFromPath(path)] returns exactly when the segments of
    the path are pairwise different and none is "local" or "iCloud"; it
    then returns a new directory named "root" whose listing is "local",
    "iCloud" and the segments in order, empty segments included. *)
Theorem X17_directoriesFromPath path h :
  (NoDup (split "/" path)
   /\ ("local" ∉ split "/" path)
   /\ ("iCloud" ∉ split "/" path) ->
   exists r h',
     directoriesFromPath path h = Ok r h'
     /\ nameOf h' r = Some "root"
     /\ listContents r h' = Ok (["local"; "iCloud"] ++ split "/" path) h')
  /\ ((exists r h', directoriesFromPath path h = Ok r h') ->
      NoDup (split "/" path)
      /\ ("local" ∉ split "/" path)
      /\ ("iCloud" ∉ split "/" path)).
Proof.
  destruct (directoriesFromTokens_spec (split "/" path) h
              (split_nonempty _ _)) as [Hclash Hfree].
  split.
  - intros (Hnd & Hl & Hi).
    destruct Hfree as (r & h' & subs & Hrun & Hroot).
    { rewrite clash_defaults. tauto. }
    exists r, h'. split; [exact Hrun|].
    destruct (flat_root_children _ _ _ _ Hroot) as (Hname & _).
    split; [exact Hname|].
    apply listContents_flat_root with (subs := subs). exact Hroot.
  - intros (r & h' & Hrun).
    assert (Hno : ~ clash ["local"; "iCloud"] (split "/" path)).
    { intros Hc. destruct (Hclash Hc) as (t & h1 & _ & Hthrow).
      unfold directoriesFromPath in Hrun. congruence. }
    rewrite clash_defaults in Hno.
    split; [|tauto].
    destruct (decide (NoDup (split "/" path))); tauto.
Qed.

(** ** The factory leaves the objects there are alone *)

Lemma extends_refl h : extends h h.
Proof. repeat split; reflexivity. Qed.

Lemma extends_trans h1 h2 h3 : extends h1 h2 -> extends h2 h3 -> extends h1 h3.
Proof.
  intros (A1 & B1 & C1 & D1) (A2 & B2 & C2 & D2).
  repeat split; etrans; eassumption.
Qed.

Lemma prefix_insert_ge {A} (l0 l : list A) i x :
  l0 `prefix_of` l -> length l0 <= i -> l0 `prefix_of` <[i := x]> l.
Proof.
  intros [k ->] Hi. rewrite insert_app_r_alt by exact Hi.
  apply prefix_app_r. reflexivity.
Qed.

Lemma extends_withDirArray h0 h a l :
  extends h0 h -> length (dirArrays h0) <= a ->
  extends h0 (withDirArray h a l).
Proof.
  intros (A & B & C & D) Ha. repeat split; simpl; try assumption.
  apply prefix_insert_ge; assumption.
Qed.

Lemma extends_new h0 h name :
  extends h0 h ->
  extends h0
    (Heap (fileObjs h) (fileArrays h ++ [[]])
          ((dirArrays h ++ [[]]) ++ [[]])
          (dirObjs h ++ [Dir.Build [] (length (fileArrays h))
                           (length (dirArrays h ++ [[]])) name])).
Proof.
  intros (A & B & C & D). repeat split; simpl; try assumption;
    repeat apply prefix_app_r; assumption.
Qed.

Lemma extends_lookup {A} (l l' : list A) r a :
  l `prefix_of` l' -> l !! r = Some a -> l' !! r = Some a.
Proof. intros [k ->] Hr. apply lookup_app_l_Some, Hr. Qed.

(** One round of the loop of [directoriesFromPath], with the heap it
    leaves. *)
Lemma addToken_run h r d subs token :
  dirObjs h !! r = Some d ->
  dirArrays h !! Dir.subdirectories d = Some subs ->
  Forall (allocated (dirObjs h)) subs ->
  addToken r token h
  = if decide (Some token ∈ map (nameOf h) subs)
    then Throw (mkError (dir_exists_msg token))
           (Heap (fileObjs h) (fileArrays h ++ [[]])
                 ((dirArrays h ++ [[]]) ++ [[]])
                 (dirObjs h ++ [Dir.Build [] (length (fileArrays h))
                                  (length (dirArrays h ++ [[]])) token]))
    else Ok tt
           (withDirArray
              (Heap (fileObjs h) (fileArrays h ++ [[]])
                    ((dirArrays h ++ [[]]) ++ [[]])
                    (dirObjs h ++ [Dir.Build [] (length (fileArrays h))
                                     (length (dirArrays h ++ [[]])) token]))
              (Dir.subdirectories d) (subs ++ [length (dirObjs h)])).
Proof.
  intros Hr Hsubs Hall.
  pose proof (lookup_allocated _ _ _ Hr) as Har.
  pose proof (lookup_allocated _ _ _ Hsubs) as Hasubs.
  set (o := Dir.Build [] (length (fileArrays h))
              (length (dirArrays h ++ [[]])) token).
  set (h1 := Heap (fileObjs h) (fileArrays h ++ [[]])
                  ((dirArrays h ++ [[]]) ++ [[]]) (dirObjs h ++ [o])).
  assert (Hr1 : dirObjs h1 !! r = Some d).
  { simpl. apply lookup_app_l_Some, Hr. }
  assert (Hsubs1 : dirArrays h1 !! Dir.subdirectories d = Some subs).
  { simpl. apply lookup_app_l_Some, lookup_app_l_Some, Hsubs. }
  assert (Hc1 : dirObjs h1 !! length (dirObjs h) = Some o).
  { simpl. apply list_lookup_middle. reflexivity. }
  assert (Hall1 : Forall (allocated (dirObjs h1)) subs).
  { eapply Forall_impl; [exact Hall|]. intros x Hx.
    simpl. apply allocated_app, Hx. }
  assert (Hnames1 : map (nameOf h1) subs = map (nameOf h) subs).
  { unfold h1. apply (map_nameOf_app h); auto. }
  unfold addToken.
  rewrite (bind_Ok _ _ _ _ _ (new_FakeDirectory_fresh token h)).
  fold o. fold h1.
  destruct (decide (Some token ∈ map (nameOf h) subs)) as [Hin|Hnin].
  - apply bind_Throw.
    apply (addSubdirectory_throws h1 r _ d o subs Hr1 Hsubs1 Hc1 Hall1).
    rewrite Hnames1. exact Hin.
  - erewrite bind_Ok; [reflexivity|].
    apply (addSubdirectory_pushes h1 r _ d o subs Hr1 Hsubs1 Hc1 Hall1).
    rewrite Hnames1. exact Hnin.
Qed.

Lemma tokens_extends h0 r d tokens :
  forall h subs,
    extends h0 h ->
    length (dirArrays h0) <= Dir.subdirectories d ->
    dirObjs h !! r = Some d ->
    dirArrays h !! Dir.subdirectories d = Some subs ->
    Forall (allocated (dirObjs h)) subs ->
    match forOf tokens (addToken r) h with
    | Ok _ h' => extends h0 h'
    | Throw _ h' => extends h0 h'
    | Wrong => False
    end.
Proof.
  induction tokens as [|t ts IH]; intros h subs Hext Hsa Hr Hsubs Hall.
  - simpl. exact Hext.
  - cbn [forOf]. unfold bind at 1.
    rewrite (addToken_run h r d subs t Hr Hsubs Hall).
    destruct (decide _) as [Hin|Hnin].
    + apply extends_new, Hext.
    + apply (IH _ (subs ++ [length (dirObjs h)])).
      * apply extends_withDirArray; [apply extends_new, Hext|exact Hsa].
      * exact Hsa.
      * simpl. apply lookup_app_l_Some, Hr.
      * simpl. apply list_lookup_insert_eq.
        rewrite !length_app. apply lookup_lt_Some in Hsubs. lia.
      * simpl. apply Forall_app. split.
        -- eapply Forall_impl; [exact Hall|]. intros x Hx.
           apply allocated_app, Hx.
        -- constructor; [|constructor].
           unfold allocated. rewrite length_app. simpl. lia.
Qed.

Lemma directoriesFromTokens_extends tokens h :
  match directoriesFromTokens tokens h with
  | Ok r h' => extends h h' /\ r = length (dirObjs h)
  | Throw _ h' => extends h h'
  | Wrong => False
  end.
Proof.
  unfold directoriesFromTokens.
  destruct (length tokens =? 0)%nat; [apply extends_refl|].
  unfold bind at 1. rewrite basicFilesystem_unfold.
  rewrite (bind_Ok _ _ _ _ _ (new_FakeDirectory_fresh "root" h)).
  set (d := Dir.Build [] _ _ "root").
  set (h1 := Heap _ _ _ _).
  assert (Hext1 : extends h h1) by apply extends_new, extends_refl.
  assert (Hsa : length (dirArrays h) <= Dir.subdirectories d).
  { simpl. rewrite length_app. lia. }
  assert (Hr1 : dirObjs h1 !! length (dirObjs h) = Some d).
  { simpl. apply list_lookup_middle. reflexivity. }
  assert (Hsubs1 : dirArrays h1 !! Dir.subdirectories d = Some []).
  { simpl. apply list_lookup_middle. reflexivity. }
  pose proof (tokens_extends h (length (dirObjs h)) d
                ("local" :: "iCloud" :: tokens) h1 [] Hext1 Hsa Hr1 Hsubs1
                (Forall_nil_2 _)) as Hloop.
  cbn [forOf] in Hloop. unfold bind in *. unfold ret at 1.
  destruct (addToken _ "local" h1) as [[] h2|e h2|]; [|exact Hloop..].
  destruct (addToken _ "iCloud" h2) as [[] h3|e h3|]; [|exact Hloop..].
  cbv zeta. cbn [root].
  destruct (forOf tokens _ h3) as [[] h4|e h4|].
  - unfold ret. auto.
  - exact Hloop.
  - exact Hloop.
Qed.

Lemma basicFilesystem_extends h :
  exists h',
    basicFilesystem h = Ok {| root := length (dirObjs h) |} h'
    /\ extends h h'.
Proof.
  rewrite basicFilesystem_unfold.
  rewrite (bind_Ok _ _ _ _ _ (new_FakeDirectory_fresh "root" h)).
  set (d := Dir.Build [] _ _ "root").
  set (h1 := Heap _ _ _ _).
  assert (Hext1 : extends h h1) by apply extends_new, extends_refl.
  assert (Hsa : length (dirArrays h) <= Dir.subdirectories d).
  { simpl. rewrite length_app. lia. }
  assert (Hr1 : dirObjs h1 !! length (dirObjs h) = Some d).
  { simpl. apply list_lookup_middle. reflexivity. }
  assert (Hsubs1 : dirArrays h1 !! Dir.subdirectories d = Some []).
  { simpl. apply list_lookup_middle. reflexivity. }
  pose proof (tokens_extends h (length (dirObjs h)) d
                ["local"; "iCloud"] h1 [] Hext1 Hsa Hr1 Hsubs1
                (Forall_nil_2 _)) as Hloop.
  destruct (basicFilesystem_spec h) as (r & h' & l & i & Hrun & _).
  rewrite basicFilesystem_unfold in Hrun.
  rewrite (bind_Ok _ _ _ _ _ (new_FakeDirectory_fresh "root" h)) in Hrun.
  fold d in Hrun. fold h1 in Hrun.
  cbn [forOf] in Hloop. unfold bind, ret in *.
  destruct (addToken _ "local" h1) as [[] h2|e h2|]; try discriminate.
  destruct (addToken _ "iCloud" h2) as [[] h3|e h3|]; try discriminate.
  eauto.
Qed.

Lemma listContents_lookup h this d subs fs :
  dirObjs h !! this = Some d ->
  dirArrays h !! Dir.subdirectories d = Some subs ->
  fileArrays h !! Dir.files d = Some fs ->
  Forall (allocated (dirObjs h)) subs ->
  Forall (allocated (fileObjs h)) fs ->
  listContents this h
  = Ok (omap (nameOf h) subs ++ omap (fileNameOf h) fs) h.
Proof.
  intros Hthis Hsubs Hfs Hall1 Hall2. unfold listContents.
  erewrite bind_Ok by (apply read_Ok; exact Hthis).
  erewrite bind_Ok by (apply read_Ok; exact Hsubs).
  erewrite bind_Ok.
  2:{ apply (pushEach_pure _ (nameOf h)).
      eapply Forall_impl; [exact Hall1|].
      intros r Hr. destruct (allocated_lookup _ _ Hr) as [o Ho].
      exists (Dir.name o). split; [apply nameOf_lookup, Ho|].
      erewrite bind_Ok by (apply read_Ok; exact Ho). reflexivity. }
  erewrite bind_Ok by (apply read_Ok; exact Hfs).
  apply (pushEach_pure _ (fileNameOf h)).
  eapply Forall_impl; [exact Hall2|].
  intros r Hr. destruct (allocated_lookup _ _ Hr) as [o Ho].
  exists (File.name o). split; [unfold fileNameOf; rewrite Ho; reflexivity|].
  erewrite bind_Ok by (apply read_Ok; exact Ho). reflexivity.
Qed.

Lemma omap_ext_Forall {A B} (f g : A -> option B) l :
  Forall (fun x => f x = g x) l -> omap f l = omap g l.
Proof.
  induction 1 as [|x l Hx _ IH]; [reflexivity|].
  cbn [omap list_omap]. rewrite Hx. fold (omap f l). fold (omap g l).
  rewrite IH. reflexivity.
Qed.

Lemma allocated_prefix {A} (l l' : list A) r :
  l `prefix_of` l' -> allocated l r -> allocated l' r.
Proof. intros [k ->] Hr. apply allocated_app, Hr. Qed.

(** The listing of a directory of [h] is the same in a heap that extends
    [h]. *)
Lemma listContents_extends h h' this :
  wf h -> extends h h' -> allocated (dirObjs h) this ->
  exists L, listContents this h = Ok L h /\ listContents this h' = Ok L h'.
Proof.
  intros Hwf (A & B & C & D) Hthis.
  destruct (allocated_lookup _ _ Hthis) as [d Hd].
  destruct (wf_dir _ _ _ Hwf Hd) as [Hfa Hsa].
  destruct (allocated_lookup _ _ Hfa) as [fs Hfs].
  destruct (allocated_lookup _ _ Hsa) as [subs Hsubs].
  pose proof (wf_dirArray _ _ _ Hwf Hsubs) as Hall1.
  pose proof (wf_fileArray _ _ _ Hwf Hfs) as Hall2.
  exists (omap (nameOf h) subs ++ omap (fileNameOf h) fs).
  split; [apply (listContents_lookup h this d subs fs); assumption|].
  rewrite (listContents_lookup h' this d subs fs).
  - f_equal. f_equal.
    + apply omap_ext_Forall.
      eapply Forall_impl; [exact Hall1|]. intros r Hr.
      destruct (allocated_lookup _ _ Hr) as [o Ho]. unfold nameOf.
      rewrite Ho, (extends_lookup _ _ _ _ D Ho). reflexivity.
    + apply omap_ext_Forall.
      eapply Forall_impl; [exact Hall2|]. intros r Hr.
      destruct (allocated_lookup _ _ Hr) as [o Ho]. unfold fileNameOf.
      rewrite Ho, (extends_lookup _ _ _ _ A Ho). reflexivity.
  - eapply extends_lookup; eassumption.
  - eapply extends_lookup; eassumption.
  - eapply extends_lookup; eassumption.
  - eapply Forall_impl; [exact Hall1|]. intros r.
    apply allocated_prefix, D.
  - eapply Forall_impl; [exact Hall2|]. intros r.
    apply allocated_prefix, A.
Qed.

(** X18: the factory builds on new objects only.  [basicFilesystem()]
    and [directoriesFromPath(path)], the latter also when it throws, leave
    every object of the heap where and as it was, so every directory that
    existed lists the same contents afterwards, and the root they return
    is a directory that did not exist before. *)
Theorem X18_factory_leaves_existing_objects h path this :
  wf h ->
  allocated (dirObjs h) this ->
  exists L,
    listContents this h = Ok L h
    /\ (exists fs h',
          basicFilesystem h = Ok fs h'
          /\ extends h h'
          /\ ~ allocated (dirObjs h) (root fs)
          /\ listContents this h' = Ok L h')
    /\ match directoriesFromPath path h with
       | Ok r h' =>
           extends h h'
           /\ ~ allocated (dirObjs h) r
           /\ listContents this h' = Ok L h'
       | Throw _ h' => extends h h' /\ listContents this h' = Ok L h'
       | Wrong => False
       end.
Proof.
  intros Hwf Hthis.
  destruct (listContents_extends h h this Hwf (extends_refl h) Hthis)
    as (L & HL & _).
  assert (Hsame : forall h', extends h h' -> listContents this h' = Ok L h').
  { intros h' Hext.
    destruct (listContents_extends h h' this Hwf Hext Hthis)
      as (L' & HL' & Hh').
    congruence. }
  exists L. split; [exact HL|]. split.
  - destruct (basicFilesystem_extends h) as (h' & Hrun & Hext).
    exists {| root := length (dirObjs h) |}, h'.
    split; [exact Hrun|]. split; [exact Hext|].
    split; [unfold allocated; simpl; lia|auto].
  - pose proof (directoriesFromTokens_extends (split "/" path) h) as H.
    unfold directoriesFromPath.
    destruct (directoriesFromTokens (split "/" path) h) as [r h'|e h'|].
    + destruct H as [Hext ->].
      split; [exact Hext|]. split; [unfold allocated; lia|auto].
    + auto.
    + exact H.
Qed.

(** ** NIOSEnvironment *)

(** X19: [run(scriptMain)] throws "No running environment was specified."
    without running the script, and so without touching the heap, when
    none of the six running contexts of the configuration is set; when one
    is set it does what the script does and drops its value. *)
Theorem X19_run_needs_context {ScriptArgs ConfigVars A}
    (runsFromHomeScreen runsInActionExtension runsInApp
     runsInNotification runsInWidget runsWithSiri : ConfigVars -> bool)
    (this : Env.t ScriptArgs ConfigVars) (scriptMain : M A) h :
  (runsFromHomeScreen (Env.config this)
   || runsInActionExtension (Env.config this)
   || runsInApp (Env.config this)
   || runsInNotification (Env.config this)
   || runsInWidget (Env.config this)
   || runsWithSiri (Env.config this) = false ->
   run_script runsFromHomeScreen runsInActionExtension runsInApp
     runsInNotification runsInWidget runsWithSiri this scriptMain h
   = Throw (mkError "No running environment was specified.") h)
  /\ (runsFromHomeScreen (Env.config this)
      || runsInActionExtension (Env.config this)
      || runsInApp (Env.config this)
      || runsInNotification (Env.config this)
      || runsInWidget (Env.config this)
      || runsWithSiri (Env.config this) = true ->
      run_script runsFromHomeScreen runsInActionExtension runsInApp
        runsInNotification runsInWidget runsWithSiri this scriptMain h
      = (_ <- scriptMain ;; ret tt) h).
Proof.
  unfold run_script, checkConfig. cbv zeta.
  destruct (runsFromHomeScreen (Env.config this)),
           (runsInActionExtension (Env.config this)),
           (runsInApp (Env.config this)),
           (runsInNotification (Env.config this)),
           (runsInWidget (Env.config this)),
           (runsWithSiri (Env.config this));
    simpl; split; intros H; try discriminate; reflexivity.
Qed.

(** X20: an environment constructed with a filesystem keeps that wrapper
    and allocates nothing; constructed without one it gets a tree of its
    own from [basicFilesystem()]: a root that did not exist before, listing
    "local" and "iCloud", with every object of the heap left as it was.
    [getEnv()] returns the three fields as they are. *)
Theorem X20_environment_filesystem {ScriptArgs ConfigVars}
    (a : ScriptArgs) (c : ConfigVars) h :
  (forall fs,
      (env <- new_NIOSEnvironment (Setup.Build a c (Some fs)) ;; getEnv env) h
      = Ok (Env.Build a c fs) h)
  /\ (exists fs h',
        (env <- new_NIOSEnvironment (Setup.Build a c None) ;; getEnv env) h
        = Ok (Env.Build a c fs) h'
        /\ ~ allocated (dirObjs h) (root fs)
        /\ extends h h'
        /\ listContents (root fs) h' = Ok ["local"; "iCloud"] h').
Proof.
  split; [reflexivity|].
  destruct (basicFilesystem_extends h) as (h' & Hrun & Hext).
  destruct (basicFilesystem_spec h) as (r & h'' & l & i & Hrun' & Hroot).
  rewrite Hrun in Hrun'. injection Hrun' as <- <-.
  exists {| root := length (dirObjs h) |}, h'.
  split; [|split; [|split]].
  - unfold new_NIOSEnvironment. cbn [Setup.filesystem Setup.args Setup.config].
    rewrite bind_assoc. rewrite (bind_Ok _ _ _ _ _ Hrun). reflexivity.
  - unfold allocated. simpl. lia.
  - exact Hext.
  - apply listContents_flat_root with (subs := [l; i]). exact Hroot.
Qed.

(** ** The properties beyond the claims at concrete inputs *)

Lemma reachable_tagged_heap : reachable any_call tagged_heap.
Proof.
  unfold tagged_heap.
  repeat (apply reachable_call; [|vm_compute; repeat constructor|exact I]).
  apply reachable_empty.
Qed.

Lemma X1_removeTag_witness :
  fileObjs tagged_heap !! 0
  = Some (File.Build "a" "txt" ["red"; "blue"] [("k", "v")] EmptyString [])
  /\ removeTag 0 "blue" tagged_heap
     = Ok tt (withFile tagged_heap 0
                (File.Build "a" "txt" ["red"] [("k", "v")] EmptyString []))
  /\ removeTag 0 "green" tagged_heap = Ok tt tagged_heap.
Proof.
  split; [reflexivity|]. split.
  - apply (proj1 (X1_removeTag tagged_heap 0 _ "blue" eq_refl) ["red"] []);
      [reflexivity|compute_done].
  - apply (proj2 (X1_removeTag tagged_heap 0 _ "green" eq_refl)).
    compute_done.
Defined.

Lemma X2_addTag_removeTag_witness :
  fileObjs tagged_heap !! 0
  = Some (File.Build "a" "txt" ["red"; "blue"] [("k", "v")] EmptyString [])
  /\ ("green" ∉ ["red"; "blue"])
  /\ (addTag 0 "green" ;; removeTag 0 "green") tagged_heap = Ok tt tagged_heap.
Proof.
  split; [reflexivity|]. split; [compute_done|].
  apply (X2_addTag_removeTag tagged_heap 0 _ "green" eq_refl).
  compute_done.
Defined.

Lemma X3_read_missing_key_witness :
  fileObjs tagged_heap !! 0
  = Some (File.Build "a" "txt" ["red"; "blue"] [("k", "v")] EmptyString [])
  /\ exists keys r,
       allExtendedAttributes 0 tagged_heap = Ok keys tagged_heap
       /\ readExtendedAttribute 0 "z" tagged_heap = Ok r tagged_heap
       /\ ("z" ∉ keys -> r = None)
       /\ (forall v, r = Some v -> "z" ∈ keys /\ v <> EmptyString).
Proof.
  split; [reflexivity|].
  exact (X3_read_missing_key tagged_heap 0 _ "z" eq_refl).
Defined.


Lemma X5_write_keys_witness :
  fileObjs tagged_heap !! 0
  = Some (File.Build "a" "txt" ["red"; "blue"] [("k", "v")] EmptyString [])
  /\ exists h1 keys,
       allExtendedAttributes 0 tagged_heap = Ok keys tagged_heap
       /\ writeExtendedAttribute 0 "w" "j" tagged_heap = Ok tt h1
       /\ allExtendedAttributes 0 h1
          = Ok (if decide ("j" ∈ keys) then keys else keys ++ ["j"]) h1.
Proof.
  split; [reflexivity|].
  exact (X5_write_keys tagged_heap 0 _ "w" "j" eq_refl).
Defined.

Lemma X6_write_overwrites_witness :
  fileObjs tagged_heap !! 0
  = Some (File.Build "a" "txt" ["red"; "blue"] [("k", "v")] EmptyString [])
  /\ exists h2,
       writeExtendedAttribute 0 "y" "k" tagged_heap = Ok tt h2
       /\ (writeExtendedAttribute 0 "x" "k" ;; writeExtendedAttribute 0 "y" "k")
            tagged_heap = Ok tt h2.
Proof.
  split; [reflexivity|].
  exact (X6_write_overwrites tagged_heap 0 _ "x" "y" "k" eq_refl).
Defined.

Lemma X7_tags_unique_witness :
  reachable any_call tagged_heap
  /\ allocated (fileObjs tagged_heap) 0
  /\ exists ts, allTags 0 tagged_heap = Ok ts tagged_heap /\ NoDup ts.
Proof.
  split; [exact reachable_tagged_heap|].
  split; [vm_compute; lia|].
  apply (X7_tags_unique tagged_heap 0 reachable_tagged_heap).
  vm_compute; lia.
Defined.

Lemma X8_removed_tag_is_gone_witness :
  reachable any_call tagged_heap
  /\ allocated (fileObjs tagged_heap) 0
  /\ exists ts h1 ts1,
       allTags 0 tagged_heap = Ok ts tagged_heap
       /\ removeTag 0 "red" tagged_heap = Ok tt h1
       /\ allTags 0 h1 = Ok ts1 h1
       /\ ("red" ∉ ts1)
       /\ ts1 = filter (fun x => x <> "red") ts.
Proof.
  split; [exact reachable_tagged_heap|].
  split; [vm_compute; lia|].
  apply (X8_removed_tag_is_gone tagged_heap 0 "red" reachable_tagged_heap).
  vm_compute; lia.
Defined.

Lemma X9_getUTI_empty_witness :
  reachable any_call tagged_heap
  /\ allocated (fileObjs tagged_heap) 1
  /\ getUTI 1 tagged_heap = Ok EmptyString tagged_heap.
Proof.
  split; [exact reachable_tagged_heap|].
  split; [vm_compute; lia|].
  apply (X9_getUTI_empty tagged_heap 1 reachable_tagged_heap).
  vm_compute; lia.
Defined.

Lemma X10_attribute_keys_unique_witness :
  reachable any_call tagged_heap
  /\ allocated (fileObjs tagged_heap) 0
  /\ exists keys,
       allExtendedAttributes 0 tagged_heap = Ok keys tagged_heap
       /\ NoDup keys.
Proof.
  split; [exact reachable_tagged_heap|].
  split; [vm_compute; lia|].
  apply (X10_attribute_keys_unique tagged_heap 0 reachable_tagged_heap).
  vm_compute; lia.
Defined.

Lemma X11_names_never_change_witness :
  wf two_files_heap
  /\ typed two_files_heap (AddFile 1 0)
  /\ (forall r k, keyOf two_files_heap r = Some k ->
                  keyOf (exec (AddFile 1 0) two_files_heap) r = Some k)
  /\ (forall r n, nameOf two_files_heap r = Some n ->
                  nameOf (exec (AddFile 1 0) two_files_heap) r = Some n).
Proof.
  split; [exact wf_two_files_heap|].
  split; [vm_compute; repeat constructor|].
  apply (X11_names_never_change two_files_heap (AddFile 1 0) wf_two_files_heap).
  vm_compute; repeat constructor.
Defined.

Lemma X12_children_only_appended_witness :
  wf two_files_heap
  /\ typed two_files_heap (AddFile 1 0)
  /\ (forall this l,
         fileList two_files_heap this = Some l ->
         exists l',
           fileList (exec (AddFile 1 0) two_files_heap) this = Some (l ++ l'))
  /\ (forall this l,
         subdirList two_files_heap this = Some l ->
         exists l',
           subdirList (exec (AddFile 1 0) two_files_heap) this
           = Some (l ++ l')).
Proof.
  split; [exact wf_two_files_heap|].
  split; [vm_compute; repeat constructor|].
  apply (X12_children_only_appended two_files_heap (AddFile 1 0)
           wf_two_files_heap).
  vm_compute; repeat constructor.
Defined.

Lemma X13_addSubdirectories_witness :
  wf two_files_heap
  /\ dirObjs two_files_heap !! 1 = Some (Dir.Build [] 1 3 "x")
  /\ dirArrays two_files_heap !! 3 = Some []
  /\ dirArrays two_files_heap !! 1 = Some [2]
  /\ NoDup (map (nameOf two_files_heap) [2])
  /\ exists h',
       addSubdirectories 1 1 two_files_heap = Ok tt h'
       /\ h' = withDirArray two_files_heap 3 [2]
       /\ subdirList h' 1 = Some [2].
Proof.
  split; [exact wf_two_files_heap|].
  do 3 (split; [reflexivity|]).
  split; [compute_done|].
  apply (proj2 (X13_addSubdirectories two_files_heap 1 (Dir.Build [] 1 3 "x")
                  1 [2] [] wf_two_files_heap eq_refl eq_refl eq_refl)).
  - compute_done.
  - intros n _ Hin. inversion Hin.
Defined.

Lemma X14_listContents_after_add_witness :
  wf two_files_heap
  /\ dirObjs two_files_heap !! 0 = Some (Dir.Build [] 0 1 "d")
  /\ dirArrays two_files_heap !! 1 = Some [2]
  /\ fileArrays two_files_heap !! 0 = Some [0; 1]
  /\ exists dnames fnames,
       map (nameOf two_files_heap) [2] = map Some dnames
       /\ map (fileNameOf two_files_heap) [0; 1] = map Some fnames
       /\ listContents 0 two_files_heap = Ok (dnames ++ fnames) two_files_heap
       /\ (forall file target,
              fileObjs two_files_heap !! file = Some target ->
              Some (fileKey target) ∉ map (keyOf two_files_heap) [0; 1] ->
              exists h1,
                addFile 0 file two_files_heap = Ok tt h1
                /\ listContents 0 h1
                   = Ok (dnames ++ fnames ++ [File.name target]) h1)
       /\ (forall dir o,
              dirObjs two_files_heap !! dir = Some o ->
              Some (Dir.name o) ∉ map (nameOf two_files_heap) [2] ->
              exists h1,
                addSubdirectory 0 dir two_files_heap = Ok dir h1
                /\ listContents 0 h1
                   = Ok (dnames ++ [Dir.name o] ++ fnames) h1).
Proof.
  split; [exact wf_two_files_heap|].
  do 3 (split; [reflexivity|]).
  exact (X14_listContents_after_add two_files_heap 0 (Dir.Build [] 0 1 "d")
           [2] [0; 1] wf_two_files_heap eq_refl eq_refl eq_refl).
Defined.

Lemma X15_chained_addSubdirectory_witness :
  wf two_files_heap
  /\ dirObjs two_files_heap !! 0 = Some (Dir.Build [] 0 1 "d")
  /\ dirObjs two_files_heap !! 1 = Some (Dir.Build [] 1 3 "x")
  /\ dirObjs two_files_heap !! 2 = Some (Dir.Build [] 2 4 "sub")
  /\ dirArrays two_files_heap !! 1 = Some [2]
  /\ dirArrays two_files_heap !! 3 = Some []
  /\ (Some "x" ∉ map (nameOf two_files_heap) [2])
  /\ exists h2,
       (r <- addSubdirectory 0 1 ;; addSubdirectory r 2) two_files_heap
       = Ok 2 h2
       /\ subdirList h2 0 = Some [2; 1]
       /\ subdirList h2 1 = Some [2].
Proof.
  split; [exact wf_two_files_heap|].
  do 5 (split; [reflexivity|]).
  split; [compute_done|].
  apply (X15_chained_addSubdirectory two_files_heap 0 1 2
           (Dir.Build [] 0 1 "d") (Dir.Build [] 1 3 "x")
           (Dir.Build [] 2 4 "sub") [2] []
           wf_two_files_heap eq_refl eq_refl eq_refl eq_refl eq_refl).
  - discriminate.
  - compute_done.
  - compute_done.
Defined.

Lemma X16_constructor_shares_array_witness :
  wf collision_heap
  /\ fileArrays collision_heap !! 0 = Some [0]
  /\ fileObjs collision_heap !! 1
     = Some (File.Build "a" "txt" [] [] EmptyString [])
  /\ (Some ("a", "txt") ∉ map (keyOf collision_heap) [0])
  /\ exists d1 d2 h',
       (d1 <- new_FakeDirectory "p" (Some 0) None None ;;
        d2 <- new_FakeDirectory "q" (Some 0) None None ;;
        addFile d1 1 ;;
        ret (d1, d2)) collision_heap = Ok (d1, d2) h'
       /\ d1 <> d2
       /\ fileList h' d1 = Some [0; 1]
       /\ fileList h' d2 = Some [0; 1]
       /\ addFile d2 1 h'
          = Throw (mkError (file_exists_msg "a")) h'.
Proof.
  split; [exact wf_collision_heap|].
  do 2 (split; [reflexivity|]).
  split; [compute_done|].
  apply (X16_constructor_shares_array collision_heap 0 [0] "p" "q" None None
           1 (File.Build "a" "txt" [] [] EmptyString [])
           wf_collision_heap eq_refl eq_refl).
  compute_done.
Defined.

Lemma X17_directoriesFromPath_witness :
  NoDup (split "/" "a/b")
  /\ ("local" ∉ split "/" "a/b")
  /\ ("iCloud" ∉ split "/" "a/b")
  /\ exists r h',
       directoriesFromPath "a/b" empty_heap = Ok r h'
       /\ nameOf h' r = Some "root"
       /\ listContents r h' = Ok ["local"; "iCloud"; "a"; "b"] h'.
Proof.
  assert (H : NoDup (split "/" "a/b")
              /\ ("local" ∉ split "/" "a/b")
              /\ ("iCloud" ∉ split "/" "a/b")).
  { split; [compute_done|]. split; compute_done. }
  destruct H as (H1 & H2 & H3).
  do 3 (split; [assumption|]).
  apply (proj1 (X17_directoriesFromPath "a/b" empty_heap)).
  split; [assumption|]. split; assumption.
Defined.

Lemma X18_factory_leaves_existing_objects_witness :
  wf two_files_heap
  /\ allocated (dirObjs two_files_heap) 0
  /\ exists L,
       listContents 0 two_files_heap = Ok L two_files_heap
       /\ (exists fs h',
             basicFilesystem two_files_heap = Ok fs h'
             /\ extends two_files_heap h'
             /\ ~ allocated (dirObjs two_files_heap) (root fs)
             /\ listContents 0 h' = Ok L h')
       /\ match directoriesFromPath "a/a" two_files_heap with
          | Ok r h' =>
              extends two_files_heap h'
              /\ ~ allocated (dirObjs two_files_heap) r
              /\ listContents 0 h' = Ok L h'
          | Throw _ h' =>
              extends two_files_heap h' /\ listContents 0 h' = Ok L h'
          | Wrong => False
          end.
Proof.
  split; [exact wf_two_files_heap|].
  split; [vm_compute; lia|].
  apply (X18_factory_leaves_existing_objects two_files_heap "a/a" 0
           wf_two_files_heap).
  vm_compute; lia.
Defined.

Lemma X19_run_needs_context_witness :
  run_script (fun _ => false) (fun _ => false) (fun b : bool => b)
    (fun _ => false) (fun _ => false) (fun _ => false)
    (Env.Build tt false {| root := 0 |}) (new_FakeFile "a" "txt") empty_heap
  = Throw (mkError "No running environment was specified.") empty_heap
  /\ run_script (fun _ => false) (fun _ => false) (fun b : bool => b)
       (fun _ => false) (fun _ => false) (fun _ => false)
       (Env.Build tt true {| root := 0 |}) (new_FakeFile "a" "txt") empty_heap
     = (_ <- new_FakeFile "a" "txt" ;; ret tt) empty_heap.
Proof.
  split.
  - apply (proj1 (X19_run_needs_context
                    (fun _ => false) (fun _ => false) (fun b : bool => b)
                    (fun _ => false) (fun _ => false) (fun _ => false)
                    (Env.Build tt false {| root := 0 |})
                    (new_FakeFile "a" "txt") empty_heap)).
    reflexivity.
  - apply (proj2 (X19_run_needs_context
                    (fun _ => false) (fun _ => false) (fun b : bool => b)
                    (fun _ => false) (fun _ => false) (fun _ => false)
                    (Env.Build tt true {| root := 0 |})
                    (new_FakeFile "a" "txt") empty_heap)).
    reflexivity.
Defined.
